(** * The completion session controller of coc.nvim

    A shallow embedding of [src/completion/index.ts] (class [Completion]):
    the controller's fields become a record, the objects it shares with its
    collaborators (documents, aggregators, cancellation tokens) live in
    stores indexed by reference, and every method is a function in a small
    monad that threads the store, collects the calls made on the host editor
    and on the collaborators, and propagates JavaScript exceptions. *)

From Stdlib Require Import ZArith Ascii String List Bool Lia.
From stdpp Require Import base option list gmap strings pretty.

Local Open Scope string_scope.
Local Open Scope Z_scope.

(** ** JavaScript strings

    A string is a sequence of code units; the model keeps the code units
    below 256, so that a code unit, a byte and an [ascii] coincide. *)
Module JS.

Definition chars (s : string) : list ascii := list_ascii_of_string s.
Definition str (l : list ascii) : string := string_of_list_ascii l.

(** [s.length] *)
Definition len (s : string) : Z := Z.of_nat (String.length s).

(** The index normalisation of [String.prototype.slice]: a negative index
    counts from the end, and every index is clamped to [0, length]. *)
Definition rel_index (n i : Z) : Z :=
  if i <? 0 then Z.max (n + i) 0 else Z.min i n.

(** [s.slice(b, e)] *)
Definition slice (s : string) (b e : Z) : string :=
  let from := rel_index (len s) b in
  let to := rel_index (len s) e in
  str (take (Z.to_nat (to - from)) (drop (Z.to_nat from) (chars s))).

(** [s.slice(b)] *)
Definition slice_from (s : string) (b : Z) : string := slice s b (len s).

(** [s[i]]: a string of one code unit, or [undefined] out of range. *)
Definition at_index (s : string) (i : Z) : option string :=
  if i <? 0 then None
  else match chars s !! Z.to_nat i with
       | Some c => Some (String c EmptyString)
       | None => None
       end.

(** [s.endsWith(t)] *)
Definition endsWith (s t : string) : bool :=
  (String.length t <=? String.length s)%nat
  && String.eqb (str (drop (String.length s - String.length t)%nat (chars s))) t.

(** White space as [trim] and the regular expression class [\s] see it,
    among the code units below 256: TAB, LF, VT, FF, CR, SPACE, NBSP. *)
Definition is_space (c : ascii) : bool :=
  let n := nat_of_ascii c in
  ((9 <=? n) && (n <=? 13) || (n =? 32) || (n =? 160))%nat.

Fixpoint trimStart (s : string) : string :=
  match s with
  | EmptyString => EmptyString
  | String c r => if is_space c then trimStart r else s
  end.

Fixpoint trimEnd (s : string) : string :=
  match s with
  | EmptyString => EmptyString
  | String c r =>
      match trimEnd r with
      | EmptyString => if is_space c then EmptyString else String c EmptyString
      | r' => String c r'
      end
  end.

(** [s.trim()] *)
Definition trim (s : string) : string := trimEnd (trimStart s).

(** [/\s/.test(s)] *)
Definition has_space (s : string) : bool := existsb is_space (chars s).

(** Truthiness of a value of type [string | null | undefined]. *)
Definition truthy (s : option string) : bool :=
  match s with
  | Some (String _ _) => true
  | _ => false
  end.

(** The template literal [`${i}`] for a digit. *)
Definition digit (i : nat) : string :=
  String (ascii_of_nat (48 + i)) EmptyString.

End JS.

(** ** Values exchanged with the host and the providers *)

Record Documentation := {
  doc_kind : string;
  doc_value : string;
}.

(** [VimCompleteItem], a candidate. *)
Record VimCompleteItem := {
  word : string;
  abbr : option string;
  info : option string;
  user_data : option string;
  documentation : option Documentation;
  hasDetail : bool;
}.

(** The payload of the host's [CompleteDone] event, [v:completed_item]: an
    empty dictionary when nothing was accepted, hence the optional word. *)
Record CompletedItem := {
  done_word : option string;
  done_user_data : option string;
}.

(** [CompleteOption], the trigger context. *)
Record CompleteOption := {
  bufnr : Z;
  linenr : Z;
  col : Z;
  colnr : Z;
  line : string;
  opt_input : string;
  filetype : string;
  triggerCharacter : option string;
  source : option string;
}.

Definition with_filetype (ft : string) (o : CompleteOption) : CompleteOption :=
  {| bufnr := bufnr o; linenr := linenr o; col := col o; colnr := colnr o;
     line := line o; opt_input := opt_input o; filetype := ft;
     triggerCharacter := triggerCharacter o; source := source o |}.

Definition with_triggerCharacter (ch : option string) (o : CompleteOption)
  : CompleteOption :=
  {| bufnr := bufnr o; linenr := linenr o; col := col o; colnr := colnr o;
     line := line o; opt_input := opt_input o; filetype := filetype o;
     triggerCharacter := ch; source := source o |}.

(** [CompleteConfig] *)
Record CompleteConfig := {
  autoTrigger : string;
  keepCompleteopt : bool;
  acceptSuggestionOnCommitCharacter : bool;
  previewIsKeyword : string;
  enablePreview : bool;
  maxPreviewWidth : Z;
  triggerAfterInsertEnter : bool;
  noselect : bool;
  numberSelect : bool;
  maxItemCount : Z;
  timeout : Z;
  minTriggerInputLength : Z;
  snippetIndicator : string;
  fixInsertedWord : bool;
  localityBonus : bool;
}.

Record LastInsert := {
  character : string;
  timestamp : Z;
}.

(** A provider, known to the controller by name only. *)
Definition ISource := string.

(** A JavaScript exception. *)
Record Error := {
  message : string;
  stack : string;
}.

(** Reading a property of [null] or [undefined]. *)
Definition TypeError (prop : string) : Error :=
  {| message := "Cannot read property '" ++ prop ++ "' of undefined";
     stack := "TypeError: Cannot read property '" ++ prop ++ "' of undefined" |}.

(** ** Shared objects *)

(** References into the stores. *)
Definition loc := nat.

(** The fields of a [Document] the controller reads or writes. *)
Record Document := {
  doc_bufnr : Z;
  doc_filetype : string;
  changedtick : Z;
  paused : bool;
  doc_lines : list string;
}.

Definition set_paused (b : bool) (d : Document) : Document :=
  {| doc_bufnr := doc_bufnr d; doc_filetype := doc_filetype d;
     changedtick := changedtick d; paused := b; doc_lines := doc_lines d |}.

(** The fields of the session aggregator [Complete] the controller reads. *)
Record Complete := {
  c_option : CompleteOption;
  c_input : string;
  c_results : option (list (list VimCompleteItem));
  c_isIncomplete : bool;
  c_isCanceled : bool;
}.

(** Modelled from the spec: [Complete.cancel] is not among the sources; it
    "marks the aggregator canceled". *)
Definition cancel (c : Complete) : Complete :=
  {| c_option := c_option c; c_input := c_input c; c_results := c_results c;
     c_isIncomplete := c_isIncomplete c; c_isCanceled := true |}.

(** ** The controller *)

Record Completion := {
  completeItems : list VimCompleteItem;
  config : CompleteConfig;
  document : option loc;
  floating : bool;
  activted : bool;
  input : option string;
  lastInsert : option LastInsert;
  complete : option loc;
  recentScores : gmap string Z;
  resolveTokenSource : option loc;
  changedTick : Z;
  currIndex : nat;
  insertCharTs : Z;
  insertLeaveTs : Z;
  isResolving : bool;
  previewBuffer : option Z;
}.

(** Assignments to the fields, [this.f = v]. *)
Definition set_completeItems (v : list VimCompleteItem) (c : Completion) : Completion :=
  {| completeItems := v; config := config c; document := document c; floating
     := floating c; activted := activted c; input := input c; lastInsert :=
     lastInsert c; complete := complete c; recentScores := recentScores c;
     resolveTokenSource := resolveTokenSource c; changedTick := changedTick c;
     currIndex := currIndex c; insertCharTs := insertCharTs c; insertLeaveTs :=
     insertLeaveTs c; isResolving := isResolving c; previewBuffer :=
     previewBuffer c |}.
Definition set_document (v : option loc) (c : Completion) : Completion :=
  {| completeItems := completeItems c; config := config c; document := v;
     floating := floating c; activted := activted c; input := input c;
     lastInsert := lastInsert c; complete := complete c; recentScores :=
     recentScores c; resolveTokenSource := resolveTokenSource c; changedTick :=
     changedTick c; currIndex := currIndex c; insertCharTs := insertCharTs c;
     insertLeaveTs := insertLeaveTs c; isResolving := isResolving c;
     previewBuffer := previewBuffer c |}.
Definition set_floating (v : bool) (c : Completion) : Completion :=
  {| completeItems := completeItems c; config := config c; document := document
     c; floating := v; activted := activted c; input := input c; lastInsert :=
     lastInsert c; complete := complete c; recentScores := recentScores c;
     resolveTokenSource := resolveTokenSource c; changedTick := changedTick c;
     currIndex := currIndex c; insertCharTs := insertCharTs c; insertLeaveTs :=
     insertLeaveTs c; isResolving := isResolving c; previewBuffer :=
     previewBuffer c |}.
Definition set_activted (v : bool) (c : Completion) : Completion :=
  {| completeItems := completeItems c; config := config c; document := document
     c; floating := floating c; activted := v; input := input c; lastInsert :=
     lastInsert c; complete := complete c; recentScores := recentScores c;
     resolveTokenSource := resolveTokenSource c; changedTick := changedTick c;
     currIndex := currIndex c; insertCharTs := insertCharTs c; insertLeaveTs :=
     insertLeaveTs c; isResolving := isResolving c; previewBuffer :=
     previewBuffer c |}.
Definition set_input (v : option string) (c : Completion) : Completion :=
  {| completeItems := completeItems c; config := config c; document := document
     c; floating := floating c; activted := activted c; input := v; lastInsert
     := lastInsert c; complete := complete c; recentScores := recentScores c;
     resolveTokenSource := resolveTokenSource c; changedTick := changedTick c;
     currIndex := currIndex c; insertCharTs := insertCharTs c; insertLeaveTs :=
     insertLeaveTs c; isResolving := isResolving c; previewBuffer :=
     previewBuffer c |}.
Definition set_lastInsert (v : option LastInsert) (c : Completion) : Completion :=
  {| completeItems := completeItems c; config := config c; document := document
     c; floating := floating c; activted := activted c; input := input c;
     lastInsert := v; complete := complete c; recentScores := recentScores c;
     resolveTokenSource := resolveTokenSource c; changedTick := changedTick c;
     currIndex := currIndex c; insertCharTs := insertCharTs c; insertLeaveTs :=
     insertLeaveTs c; isResolving := isResolving c; previewBuffer :=
     previewBuffer c |}.
Definition set_complete (v : option loc) (c : Completion) : Completion :=
  {| completeItems := completeItems c; config := config c; document := document
     c; floating := floating c; activted := activted c; input := input c;
     lastInsert := lastInsert c; complete := v; recentScores := recentScores c;
     resolveTokenSource := resolveTokenSource c; changedTick := changedTick c;
     currIndex := currIndex c; insertCharTs := insertCharTs c; insertLeaveTs :=
     insertLeaveTs c; isResolving := isResolving c; previewBuffer :=
     previewBuffer c |}.
Definition set_recentScores (v : gmap string Z) (c : Completion) : Completion :=
  {| completeItems := completeItems c; config := config c; document := document
     c; floating := floating c; activted := activted c; input := input c;
     lastInsert := lastInsert c; complete := complete c; recentScores := v;
     resolveTokenSource := resolveTokenSource c; changedTick := changedTick c;
     currIndex := currIndex c; insertCharTs := insertCharTs c; insertLeaveTs :=
     insertLeaveTs c; isResolving := isResolving c; previewBuffer :=
     previewBuffer c |}.
Definition set_resolveTokenSource (v : option loc) (c : Completion) : Completion :=
  {| completeItems := completeItems c; config := config c; document := document
     c; floating := floating c; activted := activted c; input := input c;
     lastInsert := lastInsert c; complete := complete c; recentScores :=
     recentScores c; resolveTokenSource := v; changedTick := changedTick c;
     currIndex := currIndex c; insertCharTs := insertCharTs c; insertLeaveTs :=
     insertLeaveTs c; isResolving := isResolving c; previewBuffer :=
     previewBuffer c |}.
Definition set_changedTick (v : Z) (c : Completion) : Completion :=
  {| completeItems := completeItems c; config := config c; document := document
     c; floating := floating c; activted := activted c; input := input c;
     lastInsert := lastInsert c; complete := complete c; recentScores :=
     recentScores c; resolveTokenSource := resolveTokenSource c; changedTick :=
     v; currIndex := currIndex c; insertCharTs := insertCharTs c; insertLeaveTs
     := insertLeaveTs c; isResolving := isResolving c; previewBuffer :=
     previewBuffer c |}.
Definition set_currIndex (v : nat) (c : Completion) : Completion :=
  {| completeItems := completeItems c; config := config c; document := document
     c; floating := floating c; activted := activted c; input := input c;
     lastInsert := lastInsert c; complete := complete c; recentScores :=
     recentScores c; resolveTokenSource := resolveTokenSource c; changedTick :=
     changedTick c; currIndex := v; insertCharTs := insertCharTs c;
     insertLeaveTs := insertLeaveTs c; isResolving := isResolving c;
     previewBuffer := previewBuffer c |}.
Definition set_insertCharTs (v : Z) (c : Completion) : Completion :=
  {| completeItems := completeItems c; config := config c; document := document
     c; floating := floating c; activted := activted c; input := input c;
     lastInsert := lastInsert c; complete := complete c; recentScores :=
     recentScores c; resolveTokenSource := resolveTokenSource c; changedTick :=
     changedTick c; currIndex := currIndex c; insertCharTs := v; insertLeaveTs
     := insertLeaveTs c; isResolving := isResolving c; previewBuffer :=
     previewBuffer c |}.
Definition set_insertLeaveTs (v : Z) (c : Completion) : Completion :=
  {| completeItems := completeItems c; config := config c; document := document
     c; floating := floating c; activted := activted c; input := input c;
     lastInsert := lastInsert c; complete := complete c; recentScores :=
     recentScores c; resolveTokenSource := resolveTokenSource c; changedTick :=
     changedTick c; currIndex := currIndex c; insertCharTs := insertCharTs c;
     insertLeaveTs := v; isResolving := isResolving c; previewBuffer :=
     previewBuffer c |}.
Definition set_isResolving (v : bool) (c : Completion) : Completion :=
  {| completeItems := completeItems c; config := config c; document := document
     c; floating := floating c; activted := activted c; input := input c;
     lastInsert := lastInsert c; complete := complete c; recentScores :=
     recentScores c; resolveTokenSource := resolveTokenSource c; changedTick :=
     changedTick c; currIndex := currIndex c; insertCharTs := insertCharTs c;
     insertLeaveTs := insertLeaveTs c; isResolving := v; previewBuffer :=
     previewBuffer c |}.
Definition set_previewBuffer (v : option Z) (c : Completion) : Completion :=
  {| completeItems := completeItems c; config := config c; document := document
     c; floating := floating c; activted := activted c; input := input c;
     lastInsert := lastInsert c; complete := complete c; recentScores :=
     recentScores c; resolveTokenSource := resolveTokenSource c; changedTick :=
     changedTick c; currIndex := currIndex c; insertCharTs := insertCharTs c;
     insertLeaveTs := insertLeaveTs c; isResolving := isResolving c;
     previewBuffer := v |}.

(** The part of [workspace] the controller uses: the current buffer number,
    the table behind [getDocument], the user's [completeopt] and the
    capabilities of the host ([workspace.env]). *)
Record Workspace := {
  ws_bufnr : Z;
  ws_documents : gmap Z loc;
  ws_completeOpt : string;
  env_pumevent : bool;
  env_floating : bool;
  env_isVim : bool;
}.

Definition set_ws_bufnr (v : Z) (s : Workspace) : Workspace :=
  {| ws_bufnr := v; ws_documents := ws_documents s;
     ws_completeOpt := ws_completeOpt s; env_pumevent := env_pumevent s;
     env_floating := env_floating s; env_isVim := env_isVim s |}.

(** What the host editor answers to the controller's requests. *)
Record Host := {
  h_lnum : Z;
  h_col : Z;
  h_mode : string;
  h_complete_option : CompleteOption;
  h_new_buffer : Z;
  h_namespace : Z;
}.

(** The state every handler runs in: the controller, the workspace, the
    stores of the shared objects, the host, the clock behind [Date.now()]
    and whether [global.__TEST__] is defined. *)
Record World := {
  ctl : Completion;
  workspace : Workspace;
  documents : gmap loc Document;
  aggregators : gmap loc Complete;
  tokens : gmap loc bool;
  host : Host;
  now : Z;
  is_test : bool;
}.

Definition set_ctl (v : Completion) (w : World) : World :=
  {| ctl := v; workspace := workspace w; documents := documents w;
     aggregators := aggregators w; tokens := tokens w; host := host w;
     now := now w; is_test := is_test w |}.

Definition set_workspace (v : Workspace) (w : World) : World :=
  {| ctl := ctl w; workspace := v; documents := documents w;
     aggregators := aggregators w; tokens := tokens w; host := host w;
     now := now w; is_test := is_test w |}.

Definition set_documents (v : gmap loc Document) (w : World) : World :=
  {| ctl := ctl w; workspace := workspace w; documents := v;
     aggregators := aggregators w; tokens := tokens w; host := host w;
     now := now w; is_test := is_test w |}.

Definition set_aggregators (v : gmap loc Complete) (w : World) : World :=
  {| ctl := ctl w; workspace := workspace w; documents := documents w;
     aggregators := v; tokens := tokens w; host := host w;
     now := now w; is_test := is_test w |}.

Definition set_tokens (v : gmap loc bool) (w : World) : World :=
  {| ctl := ctl w; workspace := workspace w; documents := documents w;
     aggregators := aggregators w; tokens := v; host := host w;
     now := now w; is_test := is_test w |}.

Definition upd_ctl (f : Completion -> Completion) (w : World) : World :=
  set_ctl (f (ctl w)) w.

(** ** Calls made by the controller

    Notifications and requests sent to the host, and calls on the
    collaborators, in the order the controller makes them. *)
Inductive Effect :=
| Notify_do_complete (startcol : Z) (items : list VimCompleteItem)
| Notify_hide
| Notify_map
| Notify_unmap
| Command (cmd : string)
| Request_reload
| Request_getcurpos
| Request_mode
| Request_get_complete_option
| Request_setline (lnum : Z) (text : string)
| Request_cursor (lnum column : Z)
| Request_createNewBuffer
| Request_setOption (name value : string)
| Request_createNameSpace (name : string)
| ShowMessage (msg kind : string)
| LoggerDebug (msg : string) (o : CompleteOption)
| LoggerError (args : list string)
| ConsoleError (text : string)
| PatchChange (d : loc)
| ForceSync (d : loc) (ignorePause : bool)
| FireContentChanges (d : loc)
| FloatingClose
| FloatingShow (content kind : string) (detail : bool)
| DoComplete (agg : loc) (arr : list ISource)
| CompleteInComplete (agg : loc) (search : string)
| DoCompleteResolve (item : VimCompleteItem) (token : loc)
| DoCompleteDone (item : VimCompleteItem) (opt : option CompleteOption).

(** The suspension points: every [await] after which the handler has code
    left to run.  While a handler is suspended the host and the other
    handlers run. *)
Inductive Point :=
| P_resume_patchChange | P_resume_settle | P_resume_requery
| P_do_fetch | P_resumeInput_curpos | P_do_resumeInput
| P_start_catch
| P_prev_curpos
| P_tci_patch | P_tci_pre | P_tci_setline | P_tci_content | P_tci_option
| P_trigger_should | P_trigger_option
| P_done_resolve | P_done_wait | P_done_mode | P_done_patch
| P_done_content | P_done_hook
| P_pum_resolve | P_pum_option1 | P_pum_option2 | P_pum_buffer
| P_pum_namespace | P_pum_wait | P_pum_show
| P_charpre_reload.

(** ** The monad of the handlers *)

Inductive outcome (A : Type) :=
| Ok (a : A)
| Throw (e : Error).
Arguments Ok {A} a.
Arguments Throw {A} e.

Record Run (A : Type) := mkRun {
  res : outcome A;
  st : World;
  out : list Effect;
}.
Arguments mkRun {A} res st out.
Arguments res {A} r.
Arguments st {A} r.
Arguments out {A} r.

Definition M (A : Type) : Type := World -> Run A.

Definition ret {A} (a : A) : M A := fun w => mkRun (Ok a) w [].

Definition bind {A B} (m : M A) (k : A -> M B) : M B := fun w =>
  match m w with
  | mkRun (Ok a) w1 o1 =>
      match k a w1 with
      | mkRun r w2 o2 => mkRun r w2 (o1 ++ o2)
      end
  | mkRun (Throw e) w1 o1 => mkRun (Throw e) w1 o1
  end.

Definition throw {A} (e : Error) : M A := fun w => mkRun (Throw e) w [].

(** [try { m } catch (e) { h e }]: the state reached and the calls made
    before the exception stay. *)
Definition try_catch {A} (m : M A) (h : Error -> M A) : M A := fun w =>
  match m w with
  | mkRun (Ok a) w1 o1 => mkRun (Ok a) w1 o1
  | mkRun (Throw e) w1 o1 =>
      match h e w1 with
      | mkRun r w2 o2 => mkRun r w2 (o1 ++ o2)
      end
  end.

Definition emit (e : Effect) : M unit := fun w => mkRun (Ok tt) w [e].
Definition gets {A} (f : World -> A) : M A := fun w => mkRun (Ok (f w)) w [].
Definition modify (f : World -> World) : M unit := fun w => mkRun (Ok tt) (f w) [].

(** Reading and writing the controller's fields. *)
Definition this {A} (f : Completion -> A) : M A := gets (fun w => f (ctl w)).
Definition assign (f : Completion -> Completion) : M unit := modify (upd_ctl f).

(** The value of an awaited promise. *)
Definition settle {A} (o : outcome A) : M A :=
  match o with
  | Ok a => ret a
  | Throw e => throw e
  end.

Declare Scope js_scope.
Delimit Scope js_scope with js.
Notation "'let*' x ':=' m 'in' k" := (bind m (fun x => k))
  (at level 10, x name, m at level 100, k at level 200) : js_scope.
Notation "m ';;' k" := (bind m (fun _ => k))
  (at level 100, k at level 200, right associativity) : js_scope.
(** [if (c) return v], followed by the rest of the function. *)
Notation "'when' c 'return_' v ';;' k" := (if c then ret v else k)
  (at level 10, c at level 99, v at level 99, k at level 200) : js_scope.
Local Open Scope js_scope.

(** ** The collaborators

    The document class, the provider registry ([sources]), the aggregator
    class and the string utilities are not part of the controller: it is
    verified against every behaviour they may have.  [interleave p] is what
    the host and the other handlers do to the state while the handler is
    suspended at [p]; the result of an awaited call is read from the state
    the handler resumes in. *)
Record Collaborators := {
  interleave : Point -> World -> World;
  (* util/string *)
  byteSlice : string -> Z -> Z -> string;
  isWord : string -> bool;
  isTriggerCharacter : string -> bool;
  characterIndex : string -> Z -> Z;
  (* Document *)
  doc_isWord : Document -> string -> bool;
  getline : Document -> Z -> string;
  (* sources *)
  sources_shouldTrigger : string -> string -> bool;
  sources_shouldCommit : option VimCompleteItem -> string -> bool;
  sources_getCompleteSources : CompleteOption -> bool -> list ISource;
  sources_getSource : string -> option ISource;
  sources_doCompleteResolve : VimCompleteItem -> World -> outcome VimCompleteItem;
  sources_doCompleteDone :
    VimCompleteItem -> option CompleteOption -> World -> outcome unit;
  (* Complete *)
  complete_doComplete : loc -> list ISource -> World -> outcome (list VimCompleteItem);
  complete_completeInComplete :
    loc -> string -> World -> outcome (option (list VimCompleteItem));
  complete_filterResults : Complete -> string -> option (list VimCompleteItem);
}.

(** ** The methods of [Completion] *)
Section Controller.

Variable K : Collaborators.

(** An [await] after which the handler goes on. *)
Definition await (p : Point) : M unit := modify (interleave K p).

(** [Date.now()] *)
Definition Date_now : M Z := gets now.

(** [workspace.getDocument(bufnr)] *)
Definition getDocument (n : Z) : M (option loc) :=
  gets (fun w => ws_documents (workspace w) !! n).

(** Following a reference to read its property [prop]: a [TypeError] when
    the reference is [null] or [undefined]. *)
Definition ref {A} (prop : string) (r : option A) : M A :=
  match r with
  | Some a => ret a
  | None => throw (TypeError prop)
  end.

(** The document and the aggregator behind a reference. *)
Definition read_doc (l : loc) : M Document := fun w =>
  ref "Document" (documents w !! l) w.

Definition read_agg (l : loc) : M Complete := fun w =>
  ref "Complete" (aggregators w !! l) w.

(** [get option()] *)
Definition get_option (w : World) : option CompleteOption :=
  c_option <$> (complete (ctl w) ≫= (fun l => aggregators w !! l)).

(** [this.option.prop], a [TypeError] when there is no session. *)
Definition option_of (prop : string) : M CompleteOption := fun w =>
  match get_option w with
  | Some o => ret o w
  | None => throw (TypeError prop) w
  end.

(** [get bufnr()] *)
Definition get_bufnr (w : World) : option Z := bufnr <$> get_option w.

(** [this.document] and [this.complete], for use where a local variable has
    the name of the field. *)
Definition this_document : M (option loc) := this document.
Definition this_complete : M (option loc) := this complete.

(** [get isActivted()] *)
Definition isActivted : M bool := this activted.

(** [get completeOpt()] *)
Definition completeOpt (c : Completion) : string :=
  let preview := if enablePreview (config c) then ",preview" else "" in
  if noselect (config c) then "noselect,menuone" ++ preview
  else "noinsert,menuone" ++ preview.

(** [get latestInsert()] *)
Definition latestInsert (w : World) : option LastInsert :=
  match lastInsert (ctl w) with
  | None => None
  | Some li => if now w - timestamp li >? 100 then None else Some li
  end.

(** [get latestInsertChar()] *)
Definition latestInsertChar (w : World) : string :=
  match latestInsert w with
  | None => ""
  | Some li => character li
  end.

(** [hasSelected()] *)
Definition hasSelected (w : World) : bool :=
  if env_pumevent (workspace w) then negb (currIndex (ctl w) =? 0)%nat
  else if negb (noselect (config (ctl w))) then true
  else isResolving (ctl w).

(** [closePreviewWindow()] *)
Definition closePreviewWindow : M unit :=
  let* f := this floating in
  if f then emit FloatingClose ;; assign (set_floating false)
  else ret tt.

(** [source.cancel()] on a cancellation token source *)
Definition cancel_token (t : loc) : M unit :=
  modify (fun w => set_tokens (<[t := true]> (tokens w)) w).

(** [token.isCancellationRequested] *)
Definition isCancellationRequested (t : loc) : M bool :=
  gets (fun w => default false (tokens w !! t)).

(** [new CancellationTokenSource()] *)
Definition new_CancellationTokenSource : M loc := fun w =>
  let t := fresh (dom (tokens w)) in
  mkRun (Ok t) (set_tokens (<[t := false]> (tokens w)) w) [].

(** [this.document.paused = b], a [TypeError] when [this.document] is
    [undefined]. *)
Definition assign_paused (b : bool) : M unit :=
  let* d := this document in
  match d with
  | Some l => modify (fun w => set_documents (alter (set_paused b) l (documents w)) w)
  | None => throw (TypeError "paused")
  end.

(** [this.complete.cancel()] *)
Definition cancel_complete : M unit :=
  let* c := this complete in
  match c with
  | Some l => modify (fun w => set_aggregators (alter cancel l (aggregators w)) w)
  | None => throw (TypeError "cancel")
  end.

(** [stop()] *)
Definition stop : M unit :=
  let* a := this activted in
  when negb a return_ tt ;;
  (let* ts := this resolveTokenSource in
   match ts with
   | Some t => cancel_token t ;; assign (set_resolveTokenSource None)
   | None => ret tt
   end) ;;
  closePreviewWindow ;;
  assign (set_activted false) ;;
  assign_paused false ;;
  (let* d := this document in
   match d with
   | Some l => emit (FireContentChanges l)
   | None => ret tt
   end) ;;
  assign (set_completeItems []) ;;
  (let* c := this complete in
   match c with
   | Some _ => cancel_complete ;; assign (set_complete None)
   | None => ret tt
   end) ;;
  (let* cfg := this config in
   if numberSelect cfg then emit Notify_unmap else ret tt) ;;
  emit Notify_hide ;;
  let* cfg := this config in
  if negb (keepCompleteopt cfg)
  then let* co := gets (fun w => ws_completeOpt (workspace w)) in
       emit (Command ("noa set completeopt=" ++ co))
  else ret tt.

(** [start(complete)] *)
Definition start (c : loc) : M unit :=
  let* a := this activted in
  assign (set_activted true) ;;
  assign (set_isResolving false) ;;
  closePreviewWindow ;;
  (if a then cancel_complete else ret tt) ;;
  assign (set_complete (Some c)) ;;
  assign (set_completeItems []) ;;
  (let* cfg := this config in
   if negb (keepCompleteopt cfg)
   then let* co := this completeOpt in
        emit (Command ("noa set completeopt=" ++ co))
   else ret tt) ;;
  let* document := this document in
  let* document := ref "forceSync" document in
  emit (ForceSync document true) ;;
  assign_paused true.

(** [item.abbr = item.abbr ? `${idx} ${item.abbr}` : `${idx} ${item.word}`] *)
Definition number_item (idx : nat) (it : VimCompleteItem) : VimCompleteItem :=
  let label := if JS.truthy (abbr it) then default "" (abbr it) else word it in
  {| word := word it; abbr := Some (JS.digit idx ++ " " ++ label);
     info := info it; user_data := user_data it;
     documentation := documentation it; hasDetail := hasDetail it |}.

(** The loop of [appendNumber], entered at [i]. *)
Fixpoint appendNumber_from (i : nat) (items : list VimCompleteItem)
  : list VimCompleteItem :=
  match items with
  | [] => []
  | it :: rest =>
      if (i <=? 10)%nat
      then number_item (if (i =? 10)%nat then 0 else i) it
             :: appendNumber_from (S i) rest
      else items
  end.

(** [appendNumber(items)]; the candidates are relabelled in place. *)
Definition appendNumber (c : Completion) (items : list VimCompleteItem)
  : list VimCompleteItem :=
  if negb (numberSelect (config c)) then items
  else appendNumber_from 1 items.

(** [showCompletion(col, items)] *)
Definition showCompletion (startcol : Z) (items : list VimCompleteItem) : M unit :=
  let* document := this document in
  let* items := this (fun c => appendNumber c items) in
  let* document := ref "changedtick" document in
  let* d := read_doc document in
  assign (set_changedTick (changedtick d)) ;;
  (let* cfg := this config in
   if numberSelect cfg then emit Notify_map else ret tt) ;;
  emit (Notify_do_complete startcol items) ;;
  assign (set_completeItems items).

(** The loop of [getInput] from index [i] down: it stops at the first [i]
    that is 0 or has a non-word character just before it. *)
Fixpoint getInput_from (document : Document) (pre : string) (i : nat) : string :=
  match i with
  | O => JS.slice pre 0 (JS.len pre)
  | S j =>
      match JS.at_index pre (Z.of_nat j) with
      | Some ch =>
          if negb (doc_isWord K document ch)
          then JS.slice pre (Z.of_nat i) (JS.len pre)
          else getInput_from document pre j
      | None => JS.slice pre (Z.of_nat i) (JS.len pre)
      end
  end.

(** [getInput(document, pre)] *)
Definition getInput (document : Document) (pre : string) : string :=
  match String.length pre with
  | O => ""
  | S n => getInput_from document pre n
  end.

(** [shouldTrigger(document, pre)] *)
Definition shouldTrigger (c : Completion) (document : Document)
    (pre : option string) : bool :=
  match pre with
  | None => false
  | Some pre =>
      if negb (JS.truthy (Some pre)) || String.eqb (JS.trim pre) "" then false
      else
        let autoTrigger := autoTrigger (config c) in
        if String.eqb autoTrigger "none" then false
        else if sources_shouldTrigger K pre (doc_filetype document) then true
        else if negb (String.eqb autoTrigger "always") then false
        else if doc_isWord K document (JS.slice_from pre (-1)) then
          let minLength := minTriggerInputLength (config c) in
          if minLength =? 1 then true
          else minLength <=? JS.len (getInput document pre)
        else false
  end.

(** [addRecent(word, bufnr)] *)
Definition addRecent (w0rd : string) (n : Z) : M unit :=
  when negb (JS.truthy (Some w0rd)) return_ tt ;;
  let* t := Date_now in
  assign (fun c => set_recentScores (<[pretty n ++ "|" ++ w0rd := t]> (recentScores c)) c).

(** [getPreviousContent(document)] *)
Definition getPreviousContent (document : loc) : M (option string) :=
  emit Request_getcurpos ;;
  await P_prev_curpos ;;
  let* lnum := gets (fun w => h_lnum (host w)) in
  let* column := gets (fun w => h_col (host w)) in
  let* o := gets get_option in
  when match o with
       | Some o => negb (lnum =? linenr o)
       | None => false
       end return_ None ;;
  let* d := read_doc document in
  let line := getline K d (lnum - 1) in
  ret (Some (if column =? 1 then "" else byteSlice K line 0 (column - 1))).

(** [getResumeInput()]; [option] and [document] are references taken on
    entry and read after the request. *)
Definition getResumeInput : M (option string) :=
  let* session := this complete in
  let* document := this document in
  let* activted := this activted in
  when negb activted return_ None ;;
  emit Request_getcurpos ;;
  await P_resumeInput_curpos ;;
  let* lnum := gets (fun w => h_lnum (host w)) in
  let* column := gets (fun w => h_col (host w)) in
  let* session := ref "linenr" session in
  let* agg := read_agg session in
  let option := c_option agg in
  when negb (lnum =? linenr option) || (column <? col option + 1) return_ None ;;
  let* document := ref "getline" document in
  let* d := read_doc document in
  let line := getline K d (lnum - 1) in
  ret (Some (byteSlice K line (col option) (column - 1))).

(** Lines 180-185 of [resumeCompletion]: what is done with the candidates
    once they are there. *)
Definition resume_show (items : option (list VimCompleteItem)) : M unit :=
  let* a := isActivted in
  when negb a return_ tt ;;
  match items with
  | None | Some [] => stop
  | Some items =>
      let* o := option_of "col" in
      showCompletion (col o) items
  end.

(** [resumeCompletion(search)] *)
Definition resumeCompletion (search : option string) : M unit :=
  let* document := this document in
  let* complete := this complete in
  let* activted := this activted in
  when negb activted return_ tt ;;
  let* complete := ref "results" complete in
  let* agg := read_agg complete in
  when negb (bool_decide (is_Some (c_results agg))) return_ tt ;;
  let* inp := this input in
  when bool_decide (search = inp) return_ tt ;;
  let completeInput := c_input agg in
  match search with
  | None => stop
  | Some search =>
      if JS.endsWith search " " || (JS.len search <? JS.len completeInput)
      then stop
      else
        let* document := ref "changedtick" document in
        let* d := read_doc document in
        let changedtick0 := changedtick d in
        assign (set_input (Some search)) ;;
        if c_isIncomplete agg then
          emit (PatchChange document) ;;
          await P_resume_patchChange ;;
          emit (ForceSync document false) ;;
          await P_resume_settle ;;
          let* d := read_doc document in
          when negb (changedtick d =? changedtick0) return_ tt ;;
          emit (CompleteInComplete complete search) ;;
          await P_resume_requery ;;
          let* items := (fun w => settle (complete_completeInComplete K complete search w) w) in
          let* d := read_doc document in
          when negb (changedtick d =? changedtick0) return_ tt ;;
          resume_show items
        else
          resume_show (complete_filterResults K agg search)
  end.

(** Modelled from the spec: the constructor of [Complete] is not among the
    sources; a new aggregator holds "the TriggerContext that opened it", its
    original trigger input, no result yet, and is neither incomplete nor
    canceled. *)
Definition new_Complete (option : CompleteOption) : M loc := fun w =>
  let l := fresh (dom (aggregators w)) in
  let agg := {| c_option := option; c_input := opt_input option;
                c_results := None; c_isIncomplete := false;
                c_isCanceled := false |} in
  mkRun (Ok l) (set_aggregators (<[l := agg]> (aggregators w)) w) [].

(** [_doComplete(option)] *)
Definition _doComplete (option : CompleteOption) : M unit :=
  assign (set_input (Some (opt_input option))) ;;
  let pre := byteSlice K (line option) 0 (colnr option - 1) in
  let* isTriggered :=
    match source option with
    | None =>
        if JS.truthy (Some pre) then
          let* document := this document in
          let* document := ref "isWord" document in
          let* d := read_doc document in
          ret (negb (doc_isWord K d (default "" (JS.at_index pre (JS.len pre - 1))))
               && sources_shouldTrigger K pre (filetype option))
        else ret false
    | Some _ => ret false
    end in
  let arr :=
    match source option with
    | None => sources_getCompleteSources K option isTriggered
    | Some name =>
        match sources_getSource K name with
        | Some s => [s]
        | None => []
        end
    end in
  when bool_decide (arr = []) return_ tt ;;
  let* session := new_Complete option in
  start session ;;
  let* current := this_complete in
  let* current := ref "doComplete" current in
  emit (DoComplete current arr) ;;
  await P_do_fetch ;;
  let* items := (fun w => settle (complete_doComplete K current arr w) w) in
  let* agg := read_agg session in
  let* a := isActivted in
  when c_isCanceled agg || negb a return_ tt ;;
  match items with
  | [] => stop
  | _ =>
      let* search := getResumeInput in
      await P_do_resumeInput ;;
      let* agg := read_agg session in
      when c_isCanceled agg return_ tt ;;
      if bool_decide (search = Some (opt_input option))
      then showCompletion (col option) items
      else resumeCompletion search
  end.

(** [startCompletion(option)] *)
Definition startCompletion (option : CompleteOption) : M unit :=
  modify (fun w => set_workspace (set_ws_bufnr (bufnr option) (workspace w)) w) ;;
  let* document := getDocument (bufnr option) in
  match document with
  | None => ret tt
  | Some l =>
      let* d := read_doc l in
      let option := with_filetype (doc_filetype d) option in
      assign (set_document (Some l)) ;;
      try_catch (_doComplete option)
        (fun e =>
           await P_start_catch ;;
           stop ;;
           emit (ShowMessage ("Error happens on complete: " ++ message e) "error") ;;
           emit (LoggerError [stack e]))
  end.

(** [triggerCompletion(document, pre)] *)
Definition triggerCompletion (document : loc) (pre : option string) : M unit :=
  let* d := read_doc document in
  let* should := this (fun c => shouldTrigger c d pre) in
  await P_trigger_should ;;
  when negb should return_ tt ;;
  emit Request_get_complete_option ;;
  await P_trigger_option ;;
  let* option := gets (fun w => h_complete_option (host w)) in
  let* pre := ref "length" pre in
  let option := with_triggerCharacter (JS.at_index pre (JS.len pre - 1)) option in
  emit (LoggerDebug "trigger completion with" option) ;;
  startCompletion option.

(** Lines 307-324 of [onTextChangedI]: no commit character was typed. *)
Definition textChangedI_resume (document : loc) : M unit :=
  let* content := getPreviousContent document in
  await P_tci_content ;;
  match content with
  | None => stop
  | Some content =>
      let character := JS.slice_from content (-1) in
      let* d := read_doc document in
      if isTriggerCharacter K character
         && sources_shouldTrigger K content (doc_filetype d)
      then
        emit Request_get_complete_option ;;
        await P_tci_option ;;
        let* option := gets (fun w => h_complete_option (host w)) in
        let option := with_triggerCharacter (Some character) option in
        emit (LoggerDebug "trigger completion with" option) ;;
        startCompletion option
      else
        let* a := isActivted in
        when negb a return_ tt ;;
        let* o := option_of "col" in
        let search := JS.slice_from content (characterIndex K content (col o)) in
        resumeCompletion (Some search)
  end.

(** The candidate the commit character applies to:
    [this.currIndex ? this.completeItems[this.currIndex - 1] : this.completeItems[0]] *)
Definition commit_candidate (c : Completion) : option VimCompleteItem :=
  if negb (currIndex c =? 0)%nat then completeItems c !! (currIndex c - 1)%nat
  else completeItems c !! 0%nat.

(** [onTextChangedI(bufnr)] *)
Definition onTextChangedI (n : Z) : M unit :=
  let* latestInsertChar := gets latestInsertChar in
  assign (set_lastInsert None) ;;
  let* current := gets (fun w => ws_bufnr (workspace w)) in
  let* document := getDocument current in
  match document with
  | None => ret tt
  | Some document =>
      emit (PatchChange document) ;;
      await P_tci_patch ;;
      let* a := isActivted in
      if negb a then
        when negb (JS.truthy (Some latestInsertChar)) return_ tt ;;
        let* pre := getPreviousContent document in
        await P_tci_pre ;;
        let last := if JS.truthy pre then JS.slice_from (default "" pre) (-1) else "" in
        if negb (JS.has_space last) then triggerCompletion document pre
        else ret tt
      else
        let* b := gets get_bufnr in
        when negb (bool_decide (Some n = b)) return_ tt ;;
        let* cfg := this config in
        if acceptSuggestionOnCommitCharacter cfg && JS.truthy (Some latestInsertChar)
        then
          let* own := this_document in
          let* own := ref "isWord" own in
          let* d := read_doc own in
          if negb (doc_isWord K d latestInsertChar) then
            let* item := this commit_candidate in
            if sources_shouldCommit K item latestInsertChar then
              let* o := option_of "linenr" in
              stop ;;
              let* item := ref "word" item in
              let newLine := JS.slice (line o) 0 (col o) ++ word item
                             ++ latestInsertChar ++ JS.slice_from (line o) (colnr o - 1) in
              emit (Request_setline (linenr o) newLine) ;;
              await P_tci_setline ;;
              let curcol := col o + JS.len (word item) + 2 in
              emit (Request_cursor (linenr o) curcol)
            else textChangedI_resume document
          else textChangedI_resume document
        else textChangedI_resume document
  end.

(** [this.completeItems.find(o => o.word == item.word && o.user_data == item.user_data)]
    for the payload of [CompleteDone]. *)
Definition find_completed (item : CompletedItem) (items : list VimCompleteItem)
  : option (nat * VimCompleteItem) :=
  list_find (fun o => Some (word o) = done_word item
                      /\ user_data o = done_user_data item) items.

(** [onCompleteDone(item)] *)
Definition onCompleteDone (item : CompletedItem) : M unit :=
  let* document := this document in
  let* a := isActivted in
  match document with
  | None => ret tt
  | Some document =>
      when negb a || negb (bool_decide (is_Some (done_word item))) return_ tt ;;
      let* opt := gets get_option in
      let* found := this (fun c => find_completed item (completeItems c)) in
      stop ;;
      match found with
      | None => ret tt
      | Some (_, item) =>
          let* timestamp := this insertCharTs in
          let* insertLeaveTs0 := this insertLeaveTs in
          try_catch
            (let* token := new_CancellationTokenSource in
             emit (DoCompleteResolve item token) ;;
             await P_done_resolve ;;
             let* item := (fun w => settle (sources_doCompleteResolve K item w) w) in
             let* d := read_doc document in
             addRecent (word item) (doc_bufnr d) ;;
             await P_done_wait ;;
             emit Request_mode ;;
             await P_done_mode ;;
             let* mode := gets (fun w => h_mode (host w)) in
             let* ts := this insertCharTs in
             let* leave := this insertLeaveTs in
             when negb (String.eqb mode "i") || negb (ts =? timestamp)
                  || negb (leave =? insertLeaveTs0) return_ tt ;;
             emit (PatchChange document) ;;
             await P_done_patch ;;
             let* content := getPreviousContent document in
             await P_done_content ;;
             let* content := ref "endsWith" content in
             when negb (JS.endsWith content (word item)) return_ tt ;;
             emit (DoCompleteDone item opt) ;;
             await P_done_hook ;;
             (fun w => settle (sources_doCompleteDone K item opt w) w) ;;
             emit (ForceSync document false))
            (fun e =>
               emit (ConsoleError (stack e)) ;;
               emit (LoggerError ["error on complete done"; stack e]))
      end
  end.

(** [onInsertLeave(bufnr)] *)
Definition onInsertLeave (n : Z) : M unit :=
  let* t := Date_now in
  assign (set_insertLeaveTs t) ;;
  let* doc := getDocument n in
  (match doc with
   | Some l => emit (ForceSync l true)
   | None => ret tt
   end) ;;
  stop.

(** [onInsertCharPre(character)] *)
Definition onInsertCharPre (ch : string) : M unit :=
  let* a := isActivted in
  let* env := gets workspace in
  let* items := this completeItems in
  let* test := gets is_test in
  (if a && negb (env_pumevent env) && negb (env_isVim env)
      && negb (bool_decide (items = [])) && isWord K ch && negb test
   then emit Request_reload ;; await P_charpre_reload
   else ret tt) ;;
  let* t := Date_now in
  assign (set_lastInsert (Some {| character := ch; timestamp := t |})) ;;
  assign (set_insertCharTs t).

(** [createPreviewBuffer()] *)
Definition createPreviewBuffer : M unit :=
  emit Request_createNewBuffer ;;
  await P_pum_buffer ;;
  let* buf := gets (fun w => h_new_buffer (host w)) in
  assign (set_previewBuffer (Some buf)) ;;
  emit (Request_setOption "buftype" "nofile") ;;
  await P_pum_option1 ;;
  emit (Request_setOption "bufhidden" "hide") ;;
  await P_pum_option2.

(** [this.completeItems.find(o => o.word == item.word && o.user_data == item.user_data)]
    for the candidate of a popup redraw, with the index [indexOf] gives for
    what was found. *)
Definition find_item (item : VimCompleteItem) (items : list VimCompleteItem)
  : option (nat * VimCompleteItem) :=
  list_find (fun o => word o = word item /\ user_data o = user_data item) items.

(** [onPumRedraw(item, bounding)]; the geometry of the popup is handed on to
    the preview and is left out.  The call [this.floating.show(...)] of
    line 457 reads [this.floating]: a [TypeError] when the preview window
    was closed while the handler waited. *)
Definition onPumRedraw (item : VimCompleteItem) : M unit :=
  let* env := gets workspace in
  when negb (env_floating env) return_ tt ;;
  (let* ts := this resolveTokenSource in
   match ts with
   | Some t => cancel_token t ;; assign (set_resolveTokenSource None)
   | None => ret tt
   end) ;;
  let* li := this lastInsert in
  when bool_decide (is_Some li) return_ tt ;;
  let* found := this (fun c => find_item item (completeItems c)) in
  match found with
  | None =>
      assign (set_currIndex 0%nat) ;;
      closePreviewWindow
  | Some (i, currItem) =>
      assign (set_currIndex (i + 1)%nat) ;;
      let* token := new_CancellationTokenSource in
      assign (set_resolveTokenSource (Some token)) ;;
      emit (DoCompleteResolve currItem token) ;;
      await P_pum_resolve ;;
      let* currItem := (fun w => settle (sources_doCompleteResolve K currItem w) w) in
      let* canceled := isCancellationRequested token in
      when canceled return_ tt ;;
      let content :=
        match documentation currItem with
        | Some doc => Some (doc_value doc)
        | None => info currItem
        end in
      if negb (JS.truthy content) then
        closePreviewWindow ;;
        assign (set_resolveTokenSource None)
      else
        (let* buf := this previewBuffer in
         if bool_decide (is_Some buf) then ret tt else createPreviewBuffer) ;;
        (let* f := this floating in
         if f then ret tt
         else
           emit (Request_createNameSpace "coc-pum") ;;
           await P_pum_namespace ;;
           assign (set_floating true)) ;;
        let kind :=
          match documentation currItem with
          | Some doc => if String.eqb (doc_kind doc) "markdown" then "markdown" else "plaintext"
          | None => "plaintext"
          end in
        await P_pum_wait ;;
        let* canceled := isCancellationRequested token in
        let* a := isActivted in
        when canceled || negb a return_ tt ;;
        let* f := this floating in
        (if f then ret tt else throw (TypeError "show")) ;;
        emit (FloatingShow (default "" content) kind (hasDetail currItem)) ;;
        await P_pum_show ;;
        assign (set_resolveTokenSource None)
  end.

End Controller.


(** ** Observation points and concrete sessions

    The states a suspended [resumeCompletion] resumes in, and the concrete
    sessions the theorems below are instantiated on. *)

(** The state in which [resumeCompletion] re-reads the change-version after
    the settle delay, and the one in which it re-reads it after the
    providers were queried again. *)
Definition resume_settled (K : Collaborators) (search : string) (w : World) : World :=
  interleave K P_resume_settle
    (interleave K P_resume_patchChange (upd_ctl (set_input (Some search)) w)).

Definition resume_requeried (K : Collaborators) (search : string) (w : World) : World :=
  interleave K P_resume_requery (resume_settled K search w).

(** The state in which [onTextChangedI] goes on after flushing the pending
    edits of the document. *)
Definition textChangedI_patched (K : Collaborators) (w : World) : World :=
  interleave K P_tci_patch (upd_ctl (set_lastInsert None) w).

(** The states [onCompleteDone] resumes in: after the resolve of the
    accepted candidate; after the recency of the resolved candidate's word
    was recorded for buffer [n], the delay and the answer to the mode
    request, where the mode and the timestamps are checked; and the reading
    of the text before the cursor that follows the flush of the document. *)
Definition done_resolved (K : Collaborators) (w : World) : World :=
  interleave K P_done_resolve (st (new_CancellationTokenSource (st (stop w)))).

Definition done_checked (K : Collaborators) (item : VimCompleteItem) (n : Z)
    (w : World) : World :=
  interleave K P_done_mode
    (interleave K P_done_wait (st (addRecent (word item) n (done_resolved K w)))).

Definition done_content (K : Collaborators) (dl : loc) (item : VimCompleteItem)
    (n : Z) (w : World) : Run (option string) :=
  getPreviousContent K dl (interleave K P_done_patch (done_checked K item n w)).

(** The preceding run of word characters: how many code units at the end of
    [pre] are word characters of the document. *)
Fixpoint take_while {A} (p : A -> bool) (l : list A) : list A :=
  match l with
  | [] => []
  | x :: r => if p x then x :: take_while p r else []
  end.

Definition is_word_unit (K : Collaborators) (d : Document) (c : ascii) : bool :=
  doc_isWord K d (String c EmptyString).

Definition word_run (K : Collaborators) (d : Document) (pre : string) : Z :=
  Z.of_nat (length (take_while (is_word_unit K d) (reverse (JS.chars pre)))).

(** The session a handler finds: the controller is active, it owns an
    aggregator and its document is set. *)
Definition in_session (w : World) (cl : loc) (agg : Complete) (dl : loc) : Prop :=
  activted (ctl w) = true
  /\ complete (ctl w) = Some cl /\ aggregators w !! cl = Some agg
  /\ document (ctl w) = Some dl.

(** The invariant of [SelectionState]. *)
Definition index_in_range (w : World) : Prop :=
  (currIndex (ctl w) <= length (completeItems (ctl w)))%nat.

Module Examples.

Definition candidate (w : string) : VimCompleteItem :=
  {| word := w; abbr := None; info := None; user_data := None;
     documentation := None; hasDetail := false |}.

(** The defaults of [getCompleteConfig]. *)
Definition defaults : CompleteConfig :=
  {| autoTrigger := "always"; keepCompleteopt := false;
     acceptSuggestionOnCommitCharacter := false;
     previewIsKeyword := "@,48-57,_192-255"; enablePreview := false;
     maxPreviewWidth := 50; triggerAfterInsertEnter := false;
     noselect := true; numberSelect := false; maxItemCount := 50;
     timeout := 500; minTriggerInputLength := 1; snippetIndicator := "~";
     fixInsertedWord := true; localityBonus := true |}.

Definition with_autoTrigger (mode : string) (c : CompleteConfig) : CompleteConfig :=
  {| autoTrigger := mode; keepCompleteopt := keepCompleteopt c;
     acceptSuggestionOnCommitCharacter := acceptSuggestionOnCommitCharacter c;
     previewIsKeyword := previewIsKeyword c; enablePreview := enablePreview c;
     maxPreviewWidth := maxPreviewWidth c;
     triggerAfterInsertEnter := triggerAfterInsertEnter c;
     noselect := noselect c; numberSelect := numberSelect c;
     maxItemCount := maxItemCount c; timeout := timeout c;
     minTriggerInputLength := minTriggerInputLength c;
     snippetIndicator := snippetIndicator c;
     fixInsertedWord := fixInsertedWord c; localityBonus := localityBonus c |}.

Definition with_commit (b : bool) (c : CompleteConfig) : CompleteConfig :=
  {| autoTrigger := autoTrigger c; keepCompleteopt := keepCompleteopt c;
     acceptSuggestionOnCommitCharacter := b;
     previewIsKeyword := previewIsKeyword c; enablePreview := enablePreview c;
     maxPreviewWidth := maxPreviewWidth c;
     triggerAfterInsertEnter := triggerAfterInsertEnter c;
     noselect := noselect c; numberSelect := numberSelect c;
     maxItemCount := maxItemCount c; timeout := timeout c;
     minTriggerInputLength := minTriggerInputLength c;
     snippetIndicator := snippetIndicator c;
     fixInsertedWord := fixInsertedWord c; localityBonus := localityBonus c |}.

(** The controller as the class initialises it. *)
Definition fresh_controller (cfg : CompleteConfig) : Completion :=
  {| completeItems := []; config := cfg; document := None; floating := false;
     activted := false; input := None; lastInsert := None; complete := None;
     recentScores := ∅; resolveTokenSource := None; changedTick := 0;
     currIndex := 0; insertCharTs := 0; insertLeaveTs := 0;
     isResolving := false; previewBuffer := None |}.

(** Buffer 1 holds a JavaScript document of one line. *)
Definition buffer (text : string) (tick : Z) : Document :=
  {| doc_bufnr := 1; doc_filetype := "javascript"; changedtick := tick;
     paused := false; doc_lines := [text] |}.

(** The trigger context of a completion on line 1 of buffer 1, opened with
    the cursor after [text], whose last [String.length input] code units
    are the input. *)
Definition context (text input : string) : CompleteOption :=
  {| bufnr := 1; linenr := 1;
     col := JS.len text - JS.len input; colnr := JS.len text + 1;
     line := text; opt_input := input; filetype := "javascript";
     triggerCharacter := None; source := None |}.

Definition a_workspace : Workspace :=
  {| ws_bufnr := 1; ws_documents := {[ 1 := 0%nat ]};
     ws_completeOpt := "menu,preview"; env_pumevent := true;
     env_floating := true; env_isVim := false |}.

Definition a_host (text : string) (mode : string) : Host :=
  {| h_lnum := 1; h_col := JS.len text + 1; h_mode := mode;
     h_complete_option := context text "";
     h_new_buffer := 2; h_namespace := 1 |}.

(** No session: buffer 1 shows [text], the cursor is at its end. *)
Definition idle (cfg : CompleteConfig) (text : string) : World :=
  {| ctl := fresh_controller cfg; workspace := a_workspace;
     documents := {[ 0%nat := buffer text 7 ]}; aggregators := ∅; tokens := ∅;
     host := a_host text "i"; now := 1000; is_test := false |}.

(** Word characters: letters, digits and the underscore. *)
Definition word_char (c : ascii) : bool :=
  let n := nat_of_ascii c in
  ((48 <=? n) && (n <=? 57) || (65 <=? n) && (n <=? 90)
   || (97 <=? n) && (n <=? 122) || (n =? 95))%nat.

Definition is_word (s : string) : bool :=
  negb (String.eqb s "") && forallb word_char (JS.chars s).

(** Collaborators of a quiet editor: nothing happens while a handler is
    suspended; code units are bytes; one provider, [around], that is
    triggered by a dot, resolves and accepts without failing, and whose
    candidates have the dot as their commit character; the aggregator
    answers a query with [found]. *)
Definition quiet (found : string -> list VimCompleteItem) : Collaborators :=
  {| interleave := fun _ w => w;
     byteSlice := JS.slice;
     isWord := is_word;
     isTriggerCharacter := fun s => negb (String.eqb s "") && negb (is_word s);
     characterIndex := fun _ i => i;
     doc_isWord := fun _ => is_word;
     getline := fun d n => default "" (doc_lines d !! Z.to_nat n);
     sources_shouldTrigger := fun pre _ => JS.endsWith pre ".";
     sources_shouldCommit := fun item ch =>
       bool_decide (is_Some item) && String.eqb ch ".";
     sources_getCompleteSources := fun _ _ => ["around"];
     sources_getSource := fun name =>
       if String.eqb name "around" then Some "around" else None;
     sources_doCompleteResolve := fun item _ => Ok item;
     sources_doCompleteDone := fun _ _ _ => Ok tt;
     complete_doComplete := fun _ _ w => Ok (found "");
     complete_completeInComplete := fun _ search _ => Ok (Some (found search));
     complete_filterResults := fun _ search => Some (found search) |}.

(** The same editor with another provider registry: [triggers pre filetype]
    tells whether a provider's trigger characters match. *)
Definition with_triggers (f : string -> string -> bool) (K : Collaborators)
  : Collaborators :=
  {| interleave := interleave K;
     byteSlice := byteSlice K; isWord := isWord K;
     isTriggerCharacter := isTriggerCharacter K;
     characterIndex := characterIndex K; doc_isWord := doc_isWord K;
     getline := getline K; sources_shouldTrigger := f;
     sources_shouldCommit := sources_shouldCommit K;
     sources_getCompleteSources := sources_getCompleteSources K;
     sources_getSource := sources_getSource K;
     sources_doCompleteResolve := sources_doCompleteResolve K;
     sources_doCompleteDone := sources_doCompleteDone K;
     complete_doComplete := complete_doComplete K;
     complete_completeInComplete := complete_completeInComplete K;
     complete_filterResults := complete_filterResults K |}.




(** The same editor with a user who edits document 0 while the handler is
    suspended at [p]: the change-version moves on. *)
Definition bump (d : Document) : Document :=
  {| doc_bufnr := doc_bufnr d; doc_filetype := doc_filetype d;
     changedtick := changedtick d + 1; paused := paused d;
     doc_lines := doc_lines d |}.

Definition point_eqb (p q : Point) : bool :=
  match p, q with
  | P_resume_patchChange, P_resume_patchChange
  | P_resume_settle, P_resume_settle
  | P_resume_requery, P_resume_requery
  | P_done_resolve, P_done_resolve
  | P_done_wait, P_done_wait
  | P_done_mode, P_done_mode => true
  | _, _ => false
  end.

Definition with_interleave (f : Point -> World -> World) (K : Collaborators)
  : Collaborators :=
  {| interleave := f;
     byteSlice := byteSlice K; isWord := isWord K;
     isTriggerCharacter := isTriggerCharacter K;
     characterIndex := characterIndex K; doc_isWord := doc_isWord K;
     getline := getline K; sources_shouldTrigger := sources_shouldTrigger K;
     sources_shouldCommit := sources_shouldCommit K;
     sources_getCompleteSources := sources_getCompleteSources K;
     sources_getSource := sources_getSource K;
     sources_doCompleteResolve := sources_doCompleteResolve K;
     sources_doCompleteDone := sources_doCompleteDone K;
     complete_doComplete := complete_doComplete K;
     complete_completeInComplete := complete_completeInComplete K;
     complete_filterResults := complete_filterResults K |}.

Definition editing (p : Point) (found : string -> list VimCompleteItem)
  : Collaborators :=
  with_interleave
    (fun q w => if point_eqb p q
                then set_documents (alter bump 0%nat (documents w)) w
                else w)
    (quiet found).

(** The user leaves insert mode 20ms later: the host is in normal mode and
    [onInsertLeave] runs for buffer 1. *)
Definition leave_insert (w : World) : World :=
  st (onInsertLeave 1
        {| ctl := ctl w; workspace := workspace w; documents := documents w;
           aggregators := aggregators w; tokens := tokens w;
           host := {| h_lnum := h_lnum (host w); h_col := h_col (host w);
                      h_mode := "n";
                      h_complete_option := h_complete_option (host w);
                      h_new_buffer := h_new_buffer (host w);
                      h_namespace := h_namespace (host w) |};
           now := now w + 20; is_test := is_test w |}).

(** A quiet editor whose user leaves insert mode while the accepted
    candidate is being resolved. *)
Definition leaving (found : string -> list VimCompleteItem) : Collaborators :=
  with_interleave
    (fun q w => if point_eqb P_done_resolve q then leave_insert w else w)
    (quiet found).

(** The aggregator of a session opened on [text], whose last code units are
    [input]; [results] is what it has received so far. *)
Definition aggregator (text input : string)
    (results : option (list (list VimCompleteItem))) (incomplete : bool) : Complete :=
  {| c_option := context text input; c_input := input; c_results := results;
     c_isIncomplete := incomplete; c_isCanceled := false |}.

(** A session opened on [text], whose last code units are [input], with
    the candidates [shown] in the popup. *)
Definition session (cfg : CompleteConfig) (text input : string)
    (shown : list VimCompleteItem)
    (results : option (list (list VimCompleteItem))) (incomplete : bool) : World :=
  let w := idle cfg text in
  set_aggregators
    {[ 0%nat := aggregator text input results incomplete ]}
    (set_documents {[ 0%nat := set_paused true (buffer text 7) ]}
       (upd_ctl (fun c =>
          set_activted true (set_document (Some 0%nat) (set_complete (Some 0%nat)
            (set_input (Some input) (set_changedTick 7
              (set_completeItems shown c)))))) w)).

(** The user has just typed [ch]: the mark [onInsertCharPre] recorded is
    10ms old. *)
Definition typed (ch : string) (w : World) : World :=
  upd_ctl (set_lastInsert (Some {| character := ch; timestamp := now w - 10 |})) w.

(** A session on [fo] with one candidate shown, a resolve in flight and the
    preview open. *)
Definition resolving : World :=
  set_tokens {[ 0%nat := false ]}
    (upd_ctl (fun c => set_floating true (set_resolveTokenSource (Some 0%nat) c))
       (session defaults "fo" "fo" [candidate "foo"] (Some [[candidate "foo"]]) false)).

End Examples.

(** ** Further notions used by the properties of the other methods *)

(** The controller is active exactly when it owns an aggregator. *)
Definition session_owned (w : World) : Prop :=
  activted (ctl w) = true <-> is_Some (complete (ctl w)).

(** A controller at rest: no session, nothing shown, no preview, no resolve
    in flight. *)
Definition at_rest (c : Completion) : Prop :=
  activted c = false /\ complete c = None /\ completeItems c = []
  /\ floating c = false /\ resolveTokenSource c = None /\ isResolving c = false.

(** The state [start] leaves when it is called with aggregator [c] on a
    controller at rest whose document is [l]. *)
Definition started_state (c l : loc) (w : World) : World :=
  set_documents (alter (set_paused true) l (documents w))
    (upd_ctl (fun k => set_completeItems [] (set_complete (Some c)
                         (set_isResolving false (set_activted true k)))) w).


(** The providers [_doComplete] selects (lines 216-228) when the
    controller's document is [d]. *)
Definition chosen_sources (K : Collaborators) (option : CompleteOption)
    (d : Document) : list ISource :=
  let pre := byteSlice K (line option) 0 (colnr option - 1) in
  match source option with
  | None =>
      sources_getCompleteSources K option
        (JS.truthy (Some pre)
         && (negb (doc_isWord K d (default "" (JS.at_index pre (JS.len pre - 1))))
             && sources_shouldTrigger K pre (filetype option)))
  | Some name =>
      match sources_getSource K name with
      | Some s => [s]
      | None => []
      end
  end.

(** The stages of [_doComplete]: the call of [start] on the new aggregator,
    the state the handler resumes in when the fetch is over, the reading of
    the resume input, and the state the handler resumes in after it. *)
Definition fetch_started (opt : CompleteOption) (w : World) : Run unit :=
  start (fresh (dom (aggregators w)))
    (st (new_Complete opt (upd_ctl (set_input (Some (opt_input opt))) w))).

Definition fetch_resumed (K : Collaborators) (opt : CompleteOption)
    (w : World) : World :=
  interleave K P_do_fetch (st (fetch_started opt w)).

Definition fetch_input (K : Collaborators) (opt : CompleteOption)
    (w : World) : Run (option string) :=
  getResumeInput K (fetch_resumed K opt w).

Definition fetch_shown (K : Collaborators) (opt : CompleteOption)
    (w : World) : World :=
  interleave K P_do_resumeInput (st (fetch_input K opt w)).

(** The candidates [showCompletion] shows, and the state it leaves when the
    change-version of the controller's document is [tick]. *)
Definition shown_state (items : list VimCompleteItem) (tick : Z) (w : World) : World :=
  upd_ctl (fun c => set_completeItems (appendNumber (ctl w) items)
                      (set_changedTick tick c)) w.

(** The state in which [onPumRedraw] asks the providers to resolve the
    candidate it found at index [i]: the previous resolve token is canceled,
    the selection index is [i + 1], and a fresh token is the current one. *)
Definition redraw_released (w : World) : World :=
  match resolveTokenSource (ctl w) with
  | Some t =>
      upd_ctl (set_resolveTokenSource None)
        (set_tokens (<[t := true]> (tokens w)) w)
  | None => w
  end.

Definition redraw_token (w : World) : loc :=
  fresh (dom (tokens (redraw_released w))).

Definition redraw_requested (i : nat) (w : World) : World :=
  upd_ctl (set_resolveTokenSource (Some (redraw_token w)))
    (set_tokens (<[redraw_token w := false]> (tokens (redraw_released w)))
       (upd_ctl (set_currIndex (i + 1)%nat) (redraw_released w))).

Definition redraw_resumed (K : Collaborators) (i : nat) (w : World) : World :=
  interleave K P_pum_resolve (redraw_requested i w).

(** What [onPumRedraw] shows of a resolved candidate:
    [currItem.documentation ? currItem.documentation.value : currItem.info]
    and
    [currItem.documentation && currItem.documentation.kind == 'markdown' ? 'markdown' : 'plaintext'] *)
Definition preview_content (it : VimCompleteItem) : option string :=
  match documentation it with
  | Some doc => Some (doc_value doc)
  | None => info it
  end.

Definition preview_kind (it : VimCompleteItem) : string :=
  match documentation it with
  | Some doc => if String.eqb (doc_kind doc) "markdown" then "markdown" else "plaintext"
  | None => "plaintext"
  end.

(** The state in which [onPumRedraw] goes on after its wait of 10ms, when
    the preview buffer and the floating window are there already. *)
Definition redraw_waited (K : Collaborators) (i : nat) (w : World) : World :=
  interleave K P_pum_wait (redraw_resumed K i w).

(** The token [t] has been canceled. *)
Definition token_canceled (t : loc) (w : World) : Prop :=
  tokens w !! t = Some true.

(** The action [m] keeps the property [P] of the state: run in a state
    that has it, it leaves a state that has it, however it ends. *)
Definition keeps {A} (P : World -> Prop) (m : M A) : Prop :=
  forall w, P w -> P (st (m w)).

(** ** Byte columns

    The columns of a trigger context are byte columns: the host counts the
    bytes of the UTF-8 encoding of the line, and [byteSlice] and
    [characterIndex] of the string utilities take such offsets.  A code
    unit below 128 is one byte; of the code units a [string] holds here
    (below 256) any other is two.  The functions below are the two
    utilities for offsets that fall between characters. *)
Definition utf8_width (c : ascii) : Z :=
  if (nat_of_ascii c <? 128)%nat then 1 else 2.

(** The code units whose bytes are among the first [n] bytes, and the ones
    that follow the first [n] bytes. *)
Fixpoint byte_take (cs : list ascii) (n : Z) : list ascii :=
  match cs with
  | [] => []
  | c :: r => if utf8_width c <=? n then c :: byte_take r (n - utf8_width c) else []
  end.

Fixpoint byte_drop (cs : list ascii) (n : Z) : list ascii :=
  match cs with
  | [] => []
  | c :: r => if n <=? 0 then cs else byte_drop r (n - utf8_width c)
  end.

Definition utf8_byteSlice (s : string) (from to : Z) : string :=
  JS.str (byte_take (byte_drop (JS.chars s) from) (to - from)).

Definition utf8_characterIndex (s : string) (byteIndex : Z) : Z :=
  Z.of_nat (length (byte_take (JS.chars s) byteIndex)).

(** ** [getCompleteConfig]

    The configuration is read through [workspace.getConfiguration(section)]
    and its method [get(key, defaultValue)], which belong to the workspace;
    they are taken as they come, one reader for each type of value. *)
Record Configuration := {
  get_boolean : string -> string -> bool -> bool;
  get_string : string -> string -> string -> string;
  get_number : string -> string -> Z -> Z;
}.

(** [s.includes(t)] *)
Fixpoint includes (s t : string) : bool :=
  String.prefix t s
  || match s with
     | EmptyString => false
     | String _ r => includes r t
     end.

Section Config.

Variable G : Configuration.

(** [getConfig(key, defaultValue)]:
    [config.get(key, suggest.get(key, defaultValue))] *)
Definition getConfig_boolean (key : string) (defaultValue : bool) : bool :=
  get_boolean G "coc.preferences" key (get_boolean G "suggest" key defaultValue).
Definition getConfig_string (key : string) (defaultValue : string) : string :=
  get_string G "coc.preferences" key (get_string G "suggest" key defaultValue).
Definition getConfig_number (key : string) (defaultValue : Z) : Z :=
  get_number G "coc.preferences" key (get_number G "suggest" key defaultValue).

(** [getCompleteConfig()], for the [completeopt] of the user and the
    [pumevent] capability of the host. *)
Definition getCompleteConfig (userCompleteOpt : string) (pumevent : bool)
  : CompleteConfig :=
  let keep := getConfig_boolean "keepCompleteopt" false in
  let auto := getConfig_string "autoTrigger" "always" in
  let auto :=
    if keep
    then if negb (includes userCompleteOpt "noinsert")
            && negb (includes userCompleteOpt "noselect")
         then "none" else auto
    else auto in
  {| autoTrigger := auto;
     keepCompleteopt := keep;
     acceptSuggestionOnCommitCharacter :=
       pumevent && getConfig_boolean "acceptSuggestionOnCommitCharacter" false;
     previewIsKeyword := getConfig_string "previewIsKeyword" "@,48-57,_192-255";
     enablePreview := getConfig_boolean "enablePreview" false;
     maxPreviewWidth := getConfig_number "maxPreviewWidth" 50;
     triggerAfterInsertEnter := getConfig_boolean "triggerAfterInsertEnter" false;
     noselect := getConfig_boolean "noselect" true;
     numberSelect := getConfig_boolean "numberSelect" false;
     maxItemCount := getConfig_number "maxCompleteItemCount" 50;
     timeout := getConfig_number "timeout" 500;
     minTriggerInputLength := getConfig_number "minTriggerInputLength" 1;
     snippetIndicator := getConfig_string "snippetIndicator" "~";
     fixInsertedWord := getConfig_boolean "fixInsertedWord" true;
     localityBonus := getConfig_boolean "localityBonus" true |}.

End Config.

Module Scenarios.

(** The editor [K] in which [f] happens while a handler is suspended at the
    fetch of [_doComplete]. *)
Definition during_fetch (f : World -> World) (K : Collaborators) : Collaborators :=
  Examples.with_interleave
    (fun q w => match q with
                | P_do_fetch => f w
                | _ => interleave K q w
                end) K.

(** The editor [K] in which [f] happens while a handler is suspended at the
    resolve of [onPumRedraw]. *)
Definition during_resolve (f : World -> World) (K : Collaborators) : Collaborators :=
  Examples.with_interleave
    (fun q w => match q with
                | P_pum_resolve => f w
                | _ => interleave K q w
                end) K.

(** The state [w] with the cursor of the host at line [lnum], column
    [column]. *)
Definition cursor_at (lnum column : Z) (w : World) : World :=
  {| ctl := ctl w; workspace := workspace w; documents := documents w;
     aggregators := aggregators w; tokens := tokens w;
     host := {| h_lnum := lnum; h_col := column; h_mode := h_mode (host w);
                h_complete_option := h_complete_option (host w);
                h_new_buffer := h_new_buffer (host w);
                h_namespace := h_namespace (host w) |};
     now := now w; is_test := is_test w |}.

(** The state [w] in a host without floating windows. *)
Definition without_floating (w : World) : World :=
  set_workspace
    {| ws_bufnr := ws_bufnr (workspace w);
       ws_documents := ws_documents (workspace w);
       ws_completeOpt := ws_completeOpt (workspace w);
       env_pumevent := env_pumevent (workspace w);
       env_floating := false; env_isVim := env_isVim (workspace w) |} w.

(** The editor [K] in which the popup is redrawn for [item] while a
    handler is suspended at the resolve of [onPumRedraw]. *)
Definition redrawn_during_resolve (item : VimCompleteItem) (K : Collaborators)
  : Collaborators :=
  during_resolve (fun w => st (onPumRedraw K item w)) K.

(** A candidate with the documentation [text]. *)
Definition documented (word text : string) : VimCompleteItem :=
  {| word := word; abbr := None; info := Some text; user_data := None;
     documentation := None; hasDetail := false |}.

(** The editor [K] in which [f] happens while [onPumRedraw] waits before
    it shows the preview. *)
Definition during_wait (f : World -> World) (K : Collaborators) : Collaborators :=
  Examples.with_interleave
    (fun q w => match q with
                | P_pum_wait => f w
                | _ => interleave K q w
                end) K.

(** A session on [fo] with one documented candidate shown, the preview
    buffer made and the preview open. *)
Definition previewing : World :=
  upd_ctl (fun c => set_floating true (set_previewBuffer (Some 2) c))
    (Examples.session Examples.defaults "fo" "fo" [documented "foo" "a word"]
       (Some [[documented "foo" "a word"]]) false).

(** The editor [K] with lines encoded in UTF-8. *)
Definition with_utf8 (K : Collaborators) : Collaborators :=
  {| interleave := interleave K;
     byteSlice := utf8_byteSlice; isWord := isWord K;
     isTriggerCharacter := isTriggerCharacter K;
     characterIndex := utf8_characterIndex; doc_isWord := doc_isWord K;
     getline := getline K; sources_shouldTrigger := sources_shouldTrigger K;
     sources_shouldCommit := sources_shouldCommit K;
     sources_getCompleteSources := sources_getCompleteSources K;
     sources_getSource := sources_getSource K;
     sources_doCompleteResolve := sources_doCompleteResolve K;
     sources_doCompleteDone := sources_doCompleteDone K;
     complete_doComplete := complete_doComplete K;
     complete_completeInComplete := complete_completeInComplete K;
     complete_filterResults := complete_filterResults K |}.

(** The line of an e with an acute accent (the code unit 233), a dot and
    the input [fo]: its
    encoding has five bytes, of which the first two are the accented
    letter. *)
Definition accented : string := String "233"%char ".fo".

(** The trigger context the host gives for a completion of [fo] at the end
    of that line: the input starts after byte 3, and the cursor is in byte
    column 6. *)
Definition accented_context : CompleteOption :=
  {| bufnr := 1; linenr := 1; col := 3; colnr := 6; line := accented;
     opt_input := "fo"; filetype := "javascript"; triggerCharacter := None;
     source := None |}.

(** A session on that line with acceptance on commit characters enabled
    and the candidate [foo] shown. *)
Definition accented_session : World :=
  cursor_at 1 6
    (set_aggregators
       {[ 0%nat := {| c_option := accented_context; c_input := "fo";
                      c_results := Some [[Examples.candidate "foo"]];
                      c_isIncomplete := false; c_isCanceled := false |} ]}
       (set_documents {[ 0%nat := set_paused true (Examples.buffer accented 7) ]}
          (upd_ctl (fun c =>
             set_activted true (set_document (Some 0%nat) (set_complete (Some 0%nat)
               (set_input (Some "fo") (set_changedTick 7
                 (set_completeItems [Examples.candidate "foo"] c))))))
             (Examples.idle (Examples.with_commit true Examples.defaults)
                accented)))).

(** The state in which the host reports the dot the user typed at the end
    of that line: the line is one byte longer, the cursor one column
    further, and the keystroke is 10ms old. *)
Definition accented_typed : World :=
  Examples.typed "."
    (cursor_at 1 7
       (set_documents
          {[ 0%nat := set_paused true (Examples.buffer (accented ++ ".") 8) ]}
          accented_session)).

(** The state in which the host reports that the candidate [foo] of a
    session on [fo] was accepted: the line is [foo], the cursor after it. *)
Definition accepted : World :=
  cursor_at 1 4
    (set_documents {[ 0%nat := set_paused true (Examples.buffer "foo" 8) ]}
       (Examples.session Examples.defaults "fo" "fo" [Examples.candidate "foo"]
          (Some [[Examples.candidate "foo"]]) false)).

(** The editor of a user who, while the accepted candidate is resolved,
    asks for a completion again (the refresh mapping calls
    [startCompletion] with the trigger context of the host, here for the
    line [foo]), and then, during the delay that follows, moves the cursor
    to the start of the next line with a cursor key: the host stays in
    insert mode, and no character is typed. *)
Definition refreshing (found : string -> list VimCompleteItem) : Collaborators :=
  Examples.with_interleave
    (fun q w => match q with
                | P_done_resolve =>
                    st (startCompletion (Examples.quiet found)
                          (Examples.context "foo" "foo") w)
                | P_done_wait => cursor_at 2 1 w
                | _ => w
                end)
    (Examples.quiet found).

(** A configuration in which nothing is set: every reader gives the
    default it is handed. *)
Definition unset : Configuration :=
  {| get_boolean := fun _ _ v => v;
     get_string := fun _ _ v => v;
     get_number := fun _ _ v => v |}.

(** The same configuration with [suggest.keepCompleteopt] set. *)
Definition keeping : Configuration :=
  {| get_boolean := fun section key v =>
       if String.eqb section "suggest" && String.eqb key "keepCompleteopt"
       then true else v;
     get_string := fun _ _ v => v;
     get_number := fun _ _ v => v |}.

End Scenarios.

(** * Properties of the controller *)

(** ** Running the monad *)

(** Unfolding the primitives of the monad. *)
Ltac run :=
  cbv beta iota delta
    [bind ret throw emit gets modify this assign settle await Date_now ref
     read_doc read_agg option_of getDocument
     isActivted this_document this_complete upd_ctl];
  cbn.

(** The methods are unfolded on request only. *)
Arguments stop : simpl never.
Arguments start : simpl never.
Arguments showCompletion : simpl never.
Arguments resume_show : simpl never.
Arguments resumeCompletion : simpl never.
Arguments getPreviousContent : simpl never.
Arguments getResumeInput : simpl never.
Arguments _doComplete : simpl never.
Arguments startCompletion : simpl never.
Arguments triggerCompletion : simpl never.
Arguments textChangedI_resume : simpl never.
Arguments addRecent : simpl never.
Arguments get_option : simpl never.
Arguments get_bufnr : simpl never.
Arguments commit_candidate : simpl never.
Arguments latestInsertChar : simpl never.
Arguments find_completed : simpl never.
Arguments find_item : simpl never.
Arguments new_CancellationTokenSource : simpl never.
Arguments new_Complete : simpl never.
Arguments shouldTrigger : simpl never.
Arguments JS.truthy : simpl never.

(** Naming every field of the state and of the configuration. *)
Ltac open_world w :=
  destruct w as
    [[f_items [f_auto f_keep f_accept ? ? ? ? ? f_number ? ? f_min ? ? ?]
        f_document f_floating f_activted f_input f_lastInsert f_complete
        f_recent f_token f_tick f_index f_charTs f_leaveTs f_resolving f_buffer]
       f_workspace f_documents f_aggregators f_tokens f_host f_now f_test];
  cbn in *.

Ltac unfold_stop :=
  unfold stop, closePreviewWindow, assign_paused, cancel_complete, cancel_token.

Ltac in_list := cbn; repeat first [ apply list_elem_of_here | apply list_elem_of_further ].

(** Facts about a concrete state, by evaluation. *)
Ltac evaluate := repeat apply conj; vm_compute; first [ reflexivity | discriminate ].

(** A call that differs from every call of an explicit list is not in it. *)
Ltac not_in_list H :=
  cbn in H;
  repeat (apply elem_of_cons in H; destruct H as [H|H]; [discriminate|]);
  apply elem_of_nil in H; destruct H.

(** No candidates are shown by the calls of an explicit list. *)
Ltac shown_nothing :=
  let c := fresh "c" in
  let its := fresh "its" in
  let Hin := fresh "Hin" in
  intros (c & its & Hin); not_in_list Hin.

(** ** [stop] *)

Lemma stop_inactive (w : World) :
  activted (ctl w) = false -> stop w = mkRun (Ok tt) w [].
Proof. intros H. unfold stop. run. rewrite H. reflexivity. Qed.

Lemma stop_activted (w : World) : activted (ctl (st (stop w))) = false.
Proof.
  open_world w. unfold_stop. run.
  destruct f_activted, f_token, f_floating, f_document, f_complete,
    f_number, f_keep; reflexivity.
Qed.

Lemma stop_completeItems (w : World) :
  activted (ctl w) = true -> is_Some (document (ctl w)) ->
  res (stop w) = Ok tt /\ completeItems (ctl (st (stop w))) = []
  /\ Notify_hide ∈ out (stop w).
Proof.
  intros Ha [l Hd]. open_world w. subst. unfold_stop. run.
  destruct f_token, f_floating, f_complete, f_number, f_keep; cbn; repeat split; in_list.
Qed.

Lemma stop_shows_nothing (w : World) (c : Z) (items : list VimCompleteItem) :
  Notify_do_complete c items ∉ out (stop w).
Proof.
  open_world w. unfold_stop. run.
  destruct f_activted, f_token, f_floating, f_document, f_complete,
    f_number, f_keep; intros Hin; not_in_list Hin.
Qed.

(** C8.  A call of [stop] on a controller that is already stopped changes
    nothing and sends nothing, so calling it twice is calling it once; and
    one call on an active controller (whose document is set) returns
    normally with the session inactive, the in-flight resolve token
    canceled and forgotten, the preview closed, the document's paused flag
    released, the candidate list empty, the aggregator canceled and
    discarded, and the hide-popup command sent. *)
Theorem stop_idempotent_teardown (w : World) :
  stop (st (stop w)) = mkRun (Ok tt) (st (stop w)) []
  /\ (activted (ctl w) = false -> stop w = mkRun (Ok tt) w [])
  /\ (forall l, activted (ctl w) = true -> document (ctl w) = Some l ->
      res (stop w) = Ok tt
      /\ activted (ctl (st (stop w))) = false
      /\ (forall t, resolveTokenSource (ctl w) = Some t ->
                    tokens (st (stop w)) !! t = Some true)
      /\ resolveTokenSource (ctl (st (stop w))) = None
      /\ floating (ctl (st (stop w))) = false
      /\ (floating (ctl w) = true -> FloatingClose ∈ out (stop w))
      /\ documents (st (stop w)) !! l = set_paused false <$> documents w !! l
      /\ completeItems (ctl (st (stop w))) = []
      /\ complete (ctl (st (stop w))) = None
      /\ (forall c, complete (ctl w) = Some c ->
                    aggregators (st (stop w)) !! c = cancel <$> aggregators w !! c)
      /\ Notify_hide ∈ out (stop w)).
Proof.
  split; [apply stop_inactive, stop_activted|].
  split; [apply stop_inactive|].
  intros l Ha Hd. open_world w. subst. unfold_stop. run.
  destruct f_token, f_floating, f_complete, f_number, f_keep; cbn.
  all: repeat split; try reflexivity; try discriminate.
  all: try (intros ? [= <-]); try (intros _).
  all: first [ apply lookup_insert_eq | apply lookup_alter_eq | in_list ].
Qed.

Lemma stop_idempotent_teardown_witness :
  let w := Examples.resolving in
  res (stop w) = Ok tt
  /\ activted (ctl (st (stop w))) = false
  /\ tokens (st (stop w)) !! 0%nat = Some true
  /\ (paused <$> documents (st (stop w)) !! 0%nat) = Some false
  /\ (c_isCanceled <$> aggregators (st (stop w)) !! 0%nat) = Some true
  /\ out (stop w) = [FloatingClose; FireContentChanges 0%nat; Notify_hide;
                     Command "noa set completeopt=menu,preview"]
  /\ stop (st (stop w)) = mkRun (Ok tt) (st (stop w)) [].
Proof.
  pose proof (stop_idempotent_teardown Examples.resolving)
    as (Htwice & _ & Hactive).
  destruct (Hactive 0%nat eq_refl eq_refl)
    as (Hres & Hact & Htok & _ & _ & _ & Hdoc & _ & _ & Hagg & _).
  cbv zeta.
  refine (conj Hres (conj Hact (conj (Htok 0%nat eq_refl) (conj _ (conj _ (conj _ Htwice)))))).
  - etransitivity; [exact (f_equal (fmap paused) Hdoc)|vm_compute; reflexivity].
  - etransitivity; [exact (f_equal (fmap c_isCanceled) (Hagg 0%nat eq_refl))|].
    vm_compute. reflexivity.
  - vm_compute. reflexivity.
Defined.

(** ** The pending-insert mark *)

(** C9.  [latestInsert] gives the recorded mark exactly when there is one
    and its age, the time elapsed since its timestamp, is at most 100ms; it
    gives [null] in every other case, that is when no mark is recorded or
    the recorded one is older than 100ms.  The mark [onInsertCharPre]
    records is the typed character with the time of recording, so it is a
    genuine keystroke as long as the clock has not moved on. *)
Theorem latestInsert_fresh (K : Collaborators) (w : World) :
  (forall m, latestInsert w = Some m
             <-> lastInsert (ctl w) = Some m /\ now w - timestamp m <= 100)
  /\ (latestInsert w = None
      <-> lastInsert (ctl w) = None
          \/ exists m, lastInsert (ctl w) = Some m /\ now w - timestamp m > 100)
  /\ (forall ch,
        let w' := st (onInsertCharPre K ch w) in
        let mark := {| character := ch; timestamp := now w' |} in
        lastInsert (ctl w') = Some mark /\ insertCharTs (ctl w') = now w'
        /\ latestInsert w' = Some mark).
Proof.
  unfold latestInsert. split; [|split].
  - intros m. destruct (lastInsert (ctl w)) as [li|].
    + destruct (Z.gtb_spec (now w - timestamp li) 100) as [Hold|Hfresh]; split.
      * discriminate.
      * intros [[= <-] Hage]. lia.
      * intros [= <-]. split; [reflexivity|lia].
      * intros [Heq _]. exact Heq.
    + split; [discriminate|intros [[=] _]].
  - destruct (lastInsert (ctl w)) as [li|].
    + destruct (Z.gtb_spec (now w - timestamp li) 100) as [Hold|Hfresh]; split.
      * intros _. right. exists li. split; [reflexivity|lia].
      * reflexivity.
      * discriminate.
      * intros [[=]|[m [[= <-] Hage]]]. lia.
    + split; [intros _; left; reflexivity|reflexivity].
  - intros ch. unfold onInsertCharPre. run.
    destruct (_ && _); cbn; rewrite Z.sub_diag; repeat split.
Qed.

(** ** [resumeCompletion] *)

(** C10.  Handing [resumeCompletion] a search equal to the recorded input
    does nothing at all: the state, and with it the session, the candidate
    list and the popup, is the one before the call, and no call is made on
    the host, the document or the aggregator.  (An active controller owns
    its aggregator.) *)
Theorem resume_same_input_noop (K : Collaborators) (w : World)
    (search : option string) :
  (activted (ctl w) = true ->
   exists cl agg, complete (ctl w) = Some cl /\ aggregators w !! cl = Some agg) ->
  search = input (ctl w) ->
  resumeCompletion K search w = mkRun (Ok tt) w [].
Proof.
  intros Hinv Hsame. unfold resumeCompletion. run.
  destruct (activted (ctl w)); cbn; [|reflexivity].
  destruct (Hinv eq_refl) as (cl & agg & Hc & Hagg).
  rewrite Hc. cbn. rewrite Hagg. cbn.
  destruct (bool_decide (is_Some (c_results agg))); cbn; [|reflexivity].
  rewrite (bool_decide_eq_true_2 _ Hsame). reflexivity.
Qed.

Lemma resume_same_input_noop_witness :
  let K := Examples.quiet (fun _ => [Examples.candidate "foo"]) in
  let w := Examples.session Examples.defaults "fo" "fo" [Examples.candidate "foo"]
             (Some [[Examples.candidate "foo"]]) false in
  activted (ctl w) = true /\ resumeCompletion K (Some "fo") w = mkRun (Ok tt) w [].
Proof.
  cbv zeta. split; [evaluate|].
  apply resume_same_input_noop; [|evaluate].
  intros _.
  exists 0%nat, (Examples.aggregator "fo" "fo" (Some [[Examples.candidate "foo"]]) false).
  split; vm_compute; reflexivity.
Defined.

(** C1, as amended.  In a session whose aggregator has results, a search
    that differs from the recorded input and is null, ends with a space, or
    is shorter than the original trigger input makes [resumeCompletion] do
    what [stop] does and nothing else: it returns normally, the session is
    inactive, the candidate list is empty, the hide-popup command is sent
    and no candidates are shown. *)
Theorem resume_stale_search_stops (K : Collaborators) (w : World)
    (search : option string) (cl : loc) (agg : Complete) (dl : loc) :
  in_session w cl agg dl ->
  is_Some (c_results agg) ->
  search <> input (ctl w) ->
  (search = None
   \/ exists s, search = Some s
                /\ (JS.endsWith s " " = true \/ JS.len s < JS.len (c_input agg))) ->
  let r := resumeCompletion K search w in
  r = stop w
  /\ res r = Ok tt
  /\ activted (ctl (st r)) = false
  /\ completeItems (ctl (st r)) = []
  /\ Notify_hide ∈ out r
  /\ (forall c items, Notify_do_complete c items ∉ out r).
Proof.
  intros (Ha & Hc & Hagg & Hd) Hres Hdiff Hstale. cbv zeta.
  assert (Hrun : resumeCompletion K search w = stop w).
  { unfold resumeCompletion. run. rewrite Ha, Hc. cbn. rewrite Hagg. cbn.
    rewrite (bool_decide_eq_true_2 _ Hres). cbn.
    rewrite (bool_decide_eq_false_2 _ Hdiff).
    destruct Hstale as [->|(s & -> & [Hsp|Hlen])].
    - destruct (stop w); reflexivity.
    - rewrite Hsp. cbn. destruct (stop w); reflexivity.
    - apply Z.ltb_lt in Hlen. rewrite Hlen, orb_true_r.
      destruct (stop w); reflexivity. }
  rewrite Hrun.
  destruct (stop_completeItems w Ha) as (Hok & Hitems & Hhide); [by eexists|].
  repeat split; auto using stop_activted, stop_shows_nothing.
Qed.

Lemma resume_stale_search_stops_witness :
  let K := Examples.quiet (fun _ => [Examples.candidate "foo"]) in
  let w := Examples.session Examples.defaults "fo" "fo" [Examples.candidate "foo"]
             (Some [[Examples.candidate "foo"]]) false in
  let r := resumeCompletion K (Some "f ") w in
  activted (ctl w) = true
  /\ r = stop w /\ activted (ctl (st r)) = false
  /\ out r = [FireContentChanges 0%nat; Notify_hide;
              Command "noa set completeopt=menu,preview"].
Proof.
  cbv zeta.
  edestruct (resume_stale_search_stops
               (Examples.quiet (fun _ => [Examples.candidate "foo"]))
               (Examples.session Examples.defaults "fo" "fo" [Examples.candidate "foo"]
                  (Some [[Examples.candidate "foo"]]) false)
               (Some "f ") 0%nat
               (Examples.aggregator "fo" "fo" (Some [[Examples.candidate "foo"]]) false)
               0%nat)
    as (Hrun & _ & Hact & _).
  - unfold in_session. evaluate.
  - eexists. reflexivity.
  - evaluate.
  - right. exists "f ". split; [reflexivity|]. left. evaluate.
  - refine (conj _ (conj Hrun (conj Hact _))); [evaluate|].
    etransitivity; [exact (f_equal out Hrun)|evaluate].
Defined.

(** C1 as stated fails.  A search with a space that is not its last
    character ("a b" in a session opened on "a") goes to the filter, and the
    candidates it leaves are shown in a session that stays active; and a
    search ending with a space, handed over while the aggregator has no
    result yet, leaves the session as it is. *)
Lemma resume_search_with_space_survives :
  let K := Examples.quiet (fun _ => [Examples.candidate "a b"]) in
  let shown := Examples.session Examples.defaults "a" "a" [Examples.candidate "a b"]
                 (Some [[Examples.candidate "a b"]]) false in
  let fetching := Examples.session Examples.defaults "a" "a" [] None false in
  (JS.has_space "a b" = true
   /\ activted (ctl shown) = true
   /\ activted (ctl (st (resumeCompletion K (Some "a b") shown))) = true
   /\ out (resumeCompletion K (Some "a b") shown)
      = [Notify_do_complete 0 [Examples.candidate "a b"]])
  /\ (JS.has_space "a " = true
      /\ activted (ctl fetching) = true
      /\ resumeCompletion K (Some "a ") fetching = mkRun (Ok tt) fetching []).
Proof. vm_compute. repeat split. Qed.

(** C2.  When [resumeCompletion] takes the search to an aggregator flagged
    incomplete, it captures the change-version of the document, and reads it
    again in the state it resumes in after the settle delay and in the state
    it resumes in after the providers were queried again.  Candidates are
    shown only if both readings equal the captured version.  If the first
    reading differs, the handler returns in the state it resumed in, having
    flushed the document and not queried the providers; if the second
    differs, it returns in the state it resumed in after the query, whose
    result is dropped; either way nothing is shown. *)
Theorem resume_incomplete_checks_version (K : Collaborators) (w : World)
    (s : string) (cl : loc) (agg : Complete) (dl : loc) (d : Document) :
  in_session w cl agg dl ->
  documents w !! dl = Some d ->
  is_Some (c_results agg) ->
  Some s <> input (ctl w) ->
  JS.endsWith s " " = false ->
  JS.len (c_input agg) <= JS.len s ->
  c_isIncomplete agg = true ->
  let r := resumeCompletion K (Some s) w in
  let settled := changedtick <$> documents (resume_settled K s w) !! dl in
  let requeried := changedtick <$> documents (resume_requeried K s w) !! dl in
  ((exists c items, Notify_do_complete c items ∈ out r) ->
   settled = Some (changedtick d) /\ requeried = Some (changedtick d))
  /\ (forall t1, settled = Some t1 -> t1 <> changedtick d ->
      r = mkRun (Ok tt) (resume_settled K s w) [PatchChange dl; ForceSync dl false])
  /\ (forall t2 items,
      settled = Some (changedtick d) ->
      complete_completeInComplete K cl s (resume_requeried K s w) = Ok items ->
      requeried = Some t2 -> t2 <> changedtick d ->
      r = mkRun (Ok tt) (resume_requeried K s w)
            [PatchChange dl; ForceSync dl false; CompleteInComplete cl s]).
Proof.
  intros (Ha & Hc & Hagg & Hd) Hdoc Hres Hdiff Hsp Hlen Hinc. cbv zeta.
  set (w1 := resume_settled K s w).
  set (w2 := resume_requeried K s w).
  assert (Hrun : resumeCompletion K (Some s) w =
    match documents w1 !! dl with
    | None => mkRun (Throw (TypeError "Document")) w1 [PatchChange dl; ForceSync dl false]
    | Some d1 =>
        if negb (changedtick d1 =? changedtick d)
        then mkRun (Ok tt) w1 [PatchChange dl; ForceSync dl false]
        else
          match complete_completeInComplete K cl s w2 with
          | Throw e => mkRun (Throw e) w2
                         [PatchChange dl; ForceSync dl false; CompleteInComplete cl s]
          | Ok items =>
              match documents w2 !! dl with
              | None => mkRun (Throw (TypeError "Document")) w2
                          [PatchChange dl; ForceSync dl false; CompleteInComplete cl s]
              | Some d2 =>
                  if negb (changedtick d2 =? changedtick d)
                  then mkRun (Ok tt) w2
                         [PatchChange dl; ForceSync dl false; CompleteInComplete cl s]
                  else
                    let r := resume_show items w2 in
                    mkRun (res r) (st r)
                      ([PatchChange dl; ForceSync dl false; CompleteInComplete cl s]
                         ++ out r)
              end
          end
    end).
  { subst w1 w2. unfold resume_requeried, resume_settled, resumeCompletion. run.
    rewrite Ha, Hc. cbn. rewrite Hagg. cbn.
    rewrite (bool_decide_eq_true_2 _ Hres). cbn.
    rewrite (bool_decide_eq_false_2 _ Hdiff), Hsp.
    apply Z.ltb_ge in Hlen. rewrite Hlen. cbn. rewrite Hd. cbn.
    rewrite Hdoc. cbn. rewrite Hinc. cbn.
    set (w1 := interleave K P_resume_settle _).
    destruct (documents w1 !! dl) as [d1|]; cbn; [|reflexivity].
    destruct (changedtick d1 =? changedtick d); cbn; [|reflexivity].
    set (w2 := interleave K P_resume_requery w1).
    destruct (complete_completeInComplete K cl s w2); cbn; [|reflexivity].
    destruct (documents w2 !! dl) as [d2|]; cbn; [|reflexivity].
    destruct (changedtick d2 =? changedtick d); cbn; [|reflexivity].
    destruct (resume_show a w2); reflexivity. }
  rewrite Hrun. clear Hrun.
  destruct (documents w1 !! dl) as [d1|]; cbn.
  2:{ split; [shown_nothing|]. split; [intros t1 [=]|intros t2 its [=]]. }
  destruct (Z.eqb_spec (changedtick d1) (changedtick d)) as [E1 | Hne1]; cbn.
  2:{ split; [shown_nothing|]. split.
      - intros t1 [= <-] _. reflexivity.
      - intros t2 its [= E]. contradiction. }
  split; [|split; [intros t1 [= <-] Hne; contradiction|]].
  - destruct (complete_completeInComplete K cl s w2) as [items|e]; cbn;
      [|shown_nothing].
    destruct (documents w2 !! dl) as [d2|]; cbn; [|shown_nothing].
    destruct (Z.eqb_spec (changedtick d2) (changedtick d)) as [E2 | Hne2]; cbn;
      [|shown_nothing].
    intros _. split; congruence.
  - intros t2 items _ -> Htick Hne.
    destruct (documents w2 !! dl) as [d2|]; cbn in *; [|discriminate].
    injection Htick as <-.
    destruct (Z.eqb_spec (changedtick d2) (changedtick d)) as [E2 | Hne2];
      [contradiction|reflexivity].
Qed.

(** C2 on a session whose document is edited during the settle delay: the
    providers are not queried and nothing is shown. *)
Lemma resume_incomplete_checks_version_witness :
  let K := Examples.editing P_resume_settle (fun _ => [Examples.candidate "foo"]) in
  let w := Examples.session Examples.defaults "fo" "fo" [Examples.candidate "foo"]
             (Some [[Examples.candidate "foo"]]) true in
  (changedtick <$> documents w !! 0%nat) = Some 7
  /\ (changedtick <$> documents (resume_settled K "foo" w) !! 0%nat) = Some 8
  /\ resumeCompletion K (Some "foo") w
     = mkRun (Ok tt) (resume_settled K "foo" w)
         [PatchChange 0%nat; ForceSync 0%nat false].
Proof.
  cbv zeta. split; [evaluate|]. split; [evaluate|].
  edestruct (resume_incomplete_checks_version
               (Examples.editing P_resume_settle (fun _ => [Examples.candidate "foo"]))
               (Examples.session Examples.defaults "fo" "fo" [Examples.candidate "foo"]
                  (Some [[Examples.candidate "foo"]]) true)
               "foo" 0%nat
               (Examples.aggregator "fo" "fo" (Some [[Examples.candidate "foo"]]) true)
               0%nat (set_paused true (Examples.buffer "fo" 7)))
    as (_ & Hfirst & _).
  - unfold in_session. evaluate.
  - evaluate.
  - eexists. reflexivity.
  - evaluate.
  - evaluate.
  - evaluate.
  - evaluate.
  - apply (Hfirst 8); evaluate.
Defined.

(** In a quiet editor the same search is answered by the providers and the
    candidates are shown. *)
Example resume_incomplete_applies :
  let K := Examples.quiet (fun _ => [Examples.candidate "foo"]) in
  let w := Examples.session Examples.defaults "fo" "fo" [Examples.candidate "foo"]
             (Some [[Examples.candidate "foo"]]) true in
  out (resumeCompletion K (Some "foo") w)
  = [PatchChange 0%nat; ForceSync 0%nat false; CompleteInComplete 0%nat "foo";
     Notify_do_complete 0 [Examples.candidate "foo"]].
Proof. vm_compute. reflexivity. Qed.

(** ** Strings *)
Section Strings.

Lemma chars_length (s : string) : length (JS.chars s) = String.length s.
Proof. induction s as [|c s IH]; cbn; [reflexivity|]. f_equal. exact IH. Qed.

Lemma str_length (l : list ascii) : String.length (JS.str l) = length l.
Proof. induction l as [|c l IH]; cbn; [reflexivity|]. f_equal. exact IH. Qed.

Lemma len_chars (s : string) : JS.len s = Z.of_nat (length (JS.chars s)).
Proof. unfold JS.len. rewrite chars_length. reflexivity. Qed.

Lemma len_append (s t : string) : JS.len (s ++ t) = JS.len s + JS.len t.
Proof.
  unfold JS.len. rewrite <- Nat2Z.inj_add. f_equal.
  induction s as [|c s IH]; [reflexivity|].
  change (S (String.length (s ++ t)) = S (String.length s + String.length t)).
  f_equal. exact IH.
Qed.

(** [s.slice(i, s.length)] for an index within the string. *)
Lemma slice_suffix (s : string) (i : nat) :
  (i <= length (JS.chars s))%nat ->
  JS.slice s (Z.of_nat i) (JS.len s) = JS.str (drop i (JS.chars s)).
Proof.
  intros Hi. unfold JS.slice, JS.rel_index. rewrite len_chars.
  set (n := length (JS.chars s)) in *.
  destruct (Z.ltb_spec (Z.of_nat i) 0) as [Hneg|_]; [lia|].
  destruct (Z.ltb_spec (Z.of_nat n) 0) as [Hneg|_]; [lia|].
  rewrite Z.min_id, Z.min_l by lia. rewrite Nat2Z.id.
  rewrite take_ge; [reflexivity|]. rewrite length_drop. lia.
Qed.

(** [s.slice(0, i)] for an index within the string. *)
Lemma slice_prefix (s : string) (i : Z) :
  0 <= i <= JS.len s ->
  JS.slice s 0 i = JS.str (take (Z.to_nat i) (JS.chars s)).
Proof.
  intros Hi. unfold JS.slice, JS.rel_index. cbn.
  destruct (Z.ltb_spec i 0) as [Hneg|_]; [lia|].
  rewrite Z.min_l, Z.min_l by lia. rewrite Z.sub_0_r. reflexivity.
Qed.

(** [s.slice(-1)] is the last code unit. *)
Lemma slice_last (s : string) (l : list ascii) (c : ascii) :
  JS.chars s = (l ++ [c])%list -> JS.slice_from s (-1) = String c EmptyString.
Proof.
  intros Hs. unfold JS.slice_from, JS.slice, JS.rel_index. rewrite len_chars, Hs.
  rewrite length_app. cbn [length].
  destruct (Z.ltb_spec (Z.of_nat (length l + 1)) 0) as [Hneg|_]; [lia|].
  cbn [Z.ltb Z.compare]. rewrite Z.min_id, Z.max_l by lia.
  replace (Z.to_nat (Z.of_nat (length l + 1) + -1)) with (length l) by lia.
  rewrite drop_app_length.
  replace (Z.to_nat _) with 1%nat by lia. reflexivity.
Qed.

Lemma chars_snoc (s : string) :
  s <> EmptyString -> exists l c, JS.chars s = (l ++ [c])%list.
Proof.
  intros Hne. destruct (JS.chars s) as [|a l] eqn:E using rev_ind.
  - destruct s; [congruence|discriminate].
  - eauto.
Qed.

Lemma trim_empty : JS.trim "" = "".
Proof. reflexivity. Qed.

End Strings.

(** ** The trigger policy *)
Section Trigger.

Variable K : Collaborators.
Variable d : Document.

Notation isw := (is_word_unit K d).

Lemma getInput_from_length (pre : string) (i : nat) :
  (i <= length (JS.chars pre))%nat ->
  String.length (getInput_from K d pre i)
  = (length (JS.chars pre) - i
     + length (take_while isw (reverse (take i (JS.chars pre)))))%nat.
Proof.
  induction i as [|j IH]; intros Hi.
  - cbn [getInput_from].
    change (JS.slice pre 0 (JS.len pre)) with (JS.slice pre (Z.of_nat 0) (JS.len pre)).
    rewrite (slice_suffix pre 0) by lia.
    rewrite str_length, take_0, length_drop. cbn. lia.
  - cbn [getInput_from]. unfold JS.at_index.
    destruct (Z.ltb_spec (Z.of_nat j) 0) as [Hneg|_]; [lia|].
    rewrite Nat2Z.id.
    destruct (lookup_lt_is_Some_2 (JS.chars pre) j) as [c Hc]; [lia|].
    rewrite Hc, (take_S_r _ _ _ Hc), reverse_snoc. cbn [take_while].
    fold (is_word_unit K d c). destruct (isw c); cbn [negb].
    + rewrite IH by lia. cbn [length]. lia.
    + rewrite slice_suffix by lia. rewrite str_length, length_drop.
      cbn [length]. lia.
Qed.

(** [getInput] is the preceding run of word characters when the text ends
    with one. *)
Lemma getInput_word_run (pre : string) (l : list ascii) (c : ascii) :
  JS.chars pre = (l ++ [c])%list -> isw c = true ->
  JS.len (getInput K d pre) = word_run K d pre.
Proof.
  intros Hs Hw. unfold getInput, word_run, JS.len. f_equal.
  pose proof (chars_length pre) as Hlen. rewrite Hs, length_app in Hlen.
  cbn [length] in Hlen.
  destruct (String.length pre) as [|n] eqn:E; [lia|].
  rewrite getInput_from_length by (rewrite Hs, length_app; cbn; lia).
  rewrite Hs, length_app, reverse_snoc. cbn [length take_while]. fold (is_word_unit K d c).
  rewrite Hw. replace n with (length l) by lia.
  rewrite take_app_length. cbn [length]. lia.
Qed.

Lemma word_run_last (pre : string) (l : list ascii) (c : ascii) :
  JS.chars pre = (l ++ [c])%list -> (1 <= word_run K d pre <-> isw c = true).
Proof.
  intros Hs. unfold word_run. rewrite Hs, reverse_snoc. cbn [take_while].
  fold (is_word_unit K d c). destruct (isw c); cbn [length]; split; intros; try lia;
    try reflexivity; discriminate.
Qed.

(** C3, as amended.  [shouldTrigger] answers false when the preceding text
    is null, empty or blank, and when the auto-trigger mode is [none],
    whatever the providers say.  Otherwise it answers true whenever a
    provider's trigger characters match the preceding text for the
    document's file type; and when no provider matches, it answers true
    exactly in the mode [always] with a non-empty preceding run of word
    characters of at least the configured minimum length. *)
Theorem shouldTrigger_policy (c : Completion) (pre : option string) :
  (pre = None \/ (exists p, pre = Some p /\ JS.trim p = "")
   \/ autoTrigger (config c) = "none" ->
   shouldTrigger K c d pre = false)
  /\ (forall p, pre = Some p -> JS.trim p <> "" ->
      autoTrigger (config c) <> "none" ->
      (sources_shouldTrigger K p (doc_filetype d) = true ->
       shouldTrigger K c d pre = true)
      /\ (sources_shouldTrigger K p (doc_filetype d) = false ->
          (shouldTrigger K c d pre = true
           <-> autoTrigger (config c) = "always"
               /\ 1 <= word_run K d p
               /\ minTriggerInputLength (config c) <= word_run K d p))).
Proof.
  split.
  - intros [->|[(p & -> & Hblank)|Hnone]]; [reflexivity| |].
    + unfold shouldTrigger. rewrite Hblank. cbn. rewrite orb_true_r. reflexivity.
    + unfold shouldTrigger. destruct pre as [p|]; [|reflexivity].
      rewrite Hnone. cbn. destruct (_ || _); reflexivity.
  - intros p -> Hblank Hmode.
    assert (Hne : p <> "") by (intros ->; apply Hblank, trim_empty).
    destruct (chars_snoc p Hne) as (l & a & Hs).
    unfold shouldTrigger.
    replace (JS.truthy (Some p)) with true by (destruct p; [congruence|reflexivity]).
    apply String.eqb_neq in Hblank, Hmode. rewrite Hblank, Hmode. cbn.
    split; [intros ->; reflexivity|intros ->].
    rewrite (slice_last p l a Hs).
    pose proof (word_run_last p l a Hs) as Hlast. fold (is_word_unit K d a).
    destruct (String.eqb_spec (autoTrigger (config c)) "always") as [Hal|Hal]; cbn.
    2:{ split; [discriminate|]. intros (Habs & _). contradiction. }
    destruct (isw a) eqn:Hw.
    2:{ split; [discriminate|]. intros (_ & Hrun & _).
        apply Hlast in Hrun. discriminate. }
    pose proof (proj2 Hlast eq_refl) as Hrun.
    destruct (Z.eqb_spec (minTriggerInputLength (config c)) 1) as [Hmin|Hmin].
    + split; [|reflexivity]. intros _. repeat split; [exact Hal|exact Hrun|lia].
    + rewrite (getInput_word_run p l a Hs Hw). rewrite Z.leb_le.
      split; [intros Hle; repeat split; assumption|intros (_ & _ & Hle); exact Hle].
Qed.

End Trigger.

(** C3 as stated fails.  With a provider whose trigger characters match the
    preceding text, [shouldTrigger] still answers false in the mode [none],
    and it answers false when the preceding text is blank. *)
Lemma shouldTrigger_none_ignores_providers :
  let K := Examples.with_triggers
             (fun pre _ => JS.endsWith pre "." || JS.endsWith pre " ")
             (Examples.quiet (fun _ => [])) in
  let d := Examples.buffer "foo." 7 in
  let off := Examples.fresh_controller
               (Examples.with_autoTrigger "none" Examples.defaults) in
  let on := Examples.fresh_controller Examples.defaults in
  (sources_shouldTrigger K "foo." (doc_filetype d) = true
   /\ shouldTrigger K off d (Some "foo.") = false
   /\ shouldTrigger K on d (Some "foo.") = true)
  /\ (sources_shouldTrigger K " " (doc_filetype d) = true
      /\ shouldTrigger K on d (Some " ") = false).
Proof. vm_compute. repeat split. Qed.

(** ** Commit characters *)

(** What [stop] sends: nothing but the calls that close a session. *)
Lemma stop_out_kinds (w : World) (e : Effect) :
  e ∈ out (stop w) ->
  e = FloatingClose \/ (exists l, e = FireContentChanges l) \/ e = Notify_unmap
  \/ e = Notify_hide \/ exists c, e = Command c.
Proof.
  open_world w. unfold_stop. run.
  destruct f_activted, f_token, f_floating, f_document, f_complete,
    f_number, f_keep; cbn; intros Hin;
    repeat (apply elem_of_cons in Hin; destruct Hin as [->|Hin]; [eauto 8|]);
    apply elem_of_nil in Hin; destruct Hin.
Qed.

(** The run of the commit branch of [onTextChangedI], for every state: in
    an active session on the buffer of the event, with acceptance on
    commit characters enabled, when the latest genuine keystroke [ch] is
    not a word character of the document and [shouldCommit] holds of the
    candidate at the selection index (the first one when the index is 0),
    the handler stops the session and asks the host for the line
    [line.slice(0, col)], the word, [ch], [line.slice(colnr - 1)], the
    columns of the trigger context taken as indices of code units, and
    for the cursor at [col + word.length + 2]; it makes no other call. *)
Lemma commit_branch_run (K : Collaborators) (w : World) (n : Z)
    (dl : loc) (ch : string) (o : CompleteOption) (own : loc) (d : Document)
    (item : VimCompleteItem) :
  ws_documents (workspace w) !! ws_bufnr (workspace w) = Some dl ->
  latestInsertChar w = ch -> ch <> "" ->
  activted (ctl (textChangedI_patched K w)) = true ->
  get_option (textChangedI_patched K w) = Some o -> bufnr o = n ->
  acceptSuggestionOnCommitCharacter (config (ctl (textChangedI_patched K w))) = true ->
  document (ctl (textChangedI_patched K w)) = Some own ->
  documents (textChangedI_patched K w) !! own = Some d ->
  doc_isWord K d ch = false ->
  commit_candidate (ctl (textChangedI_patched K w)) = Some item ->
  sources_shouldCommit K (Some item) ch = true ->
  let w1 := textChangedI_patched K w in
  let r := onTextChangedI K n w in
  let newLine := JS.slice (line o) 0 (col o) ++ word item ++ ch
                 ++ JS.slice_from (line o) (colnr o - 1) in
  let curcol := col o + JS.len (word item) + 2 in
  res r = Ok tt
  /\ st r = interleave K P_tci_setline (st (stop w1))
  /\ activted (ctl (st (stop w1))) = false
  /\ Notify_hide ∈ out (stop w1)
  /\ out r = (PatchChange dl :: out (stop w1)
              ++ [Request_setline (linenr o) newLine;
                  Request_cursor (linenr o) curcol])%list
  /\ (forall it tok, DoCompleteResolve it tok ∉ out r)
  /\ (forall it op, DoCompleteDone it op ∉ out r)
  /\ (0 <= col o <= JS.len (line o) -> JS.len ch = 1 ->
      curcol = JS.len (JS.slice (line o) 0 (col o) ++ word item ++ ch) + 1).
Proof.
  intros Hdl Hch Hne Ha Ho Hn Hcfg Hown Hd Hw Hitem Hcommit. cbv zeta.
  destruct (stop_completeItems (textChangedI_patched K w) Ha) as (Hok & _ & Hhide);
    [rewrite Hown; by eexists|].
  assert (Htruthy : JS.truthy (Some ch) = true) by (destruct ch; [congruence|reflexivity]).
  assert (Hbuf : get_bufnr (textChangedI_patched K w) = Some n)
    by (unfold get_bufnr; rewrite Ho, <- Hn; reflexivity).
  assert (Hrun : onTextChangedI K n w =
    mkRun (Ok tt) (interleave K P_tci_setline (st (stop (textChangedI_patched K w))))
      (PatchChange dl :: out (stop (textChangedI_patched K w))
       ++ [Request_setline (linenr o)
             (JS.slice (line o) 0 (col o) ++ word item ++ ch
              ++ JS.slice_from (line o) (colnr o - 1));
           Request_cursor (linenr o) (col o + JS.len (word item) + 2)])%list).
  { revert Ha Ho Hcfg Hown Hd Hitem Hbuf Hok.
    unfold textChangedI_patched, onTextChangedI. run. rewrite Hch, Hdl. cbn.
    set (w1 := interleave K P_tci_patch _).
    intros Ha Ho Hcfg Hown Hd Hitem Hbuf Hok.
    rewrite Ha. cbn. rewrite Hbuf. cbn.
    rewrite (bool_decide_eq_true_2 _ eq_refl). cbn.
    rewrite Hcfg, Htruthy. cbn. rewrite Hown. cbn. rewrite Hd. cbn.
    rewrite Hw. cbn. rewrite Hitem. cbn. rewrite Hcommit. cbn.
    unfold option_of. rewrite Ho. cbn.
    destruct (stop w1) as [rs ws os]. cbn in Hok. subst rs. cbn.
    reflexivity. }
  rewrite Hrun. cbn [res st out].
  refine (conj eq_refl (conj eq_refl (conj (stop_activted _) (conj Hhide (conj eq_refl _))))).
  assert (Hcalls : forall e,
    e ∈ (PatchChange dl :: out (stop (textChangedI_patched K w))
         ++ [Request_setline (linenr o)
               (JS.slice (line o) 0 (col o) ++ word item ++ ch
                ++ JS.slice_from (line o) (colnr o - 1));
             Request_cursor (linenr o) (col o + JS.len (word item) + 2)])%list ->
    (forall it tok, e <> DoCompleteResolve it tok)
    /\ (forall it op, e <> DoCompleteDone it op)).
  { intros e Hin. apply elem_of_cons in Hin. destruct Hin as [->|Hin];
      [split; discriminate|].
    apply elem_of_app in Hin. destruct Hin as [Hin|Hin].
    - apply stop_out_kinds in Hin.
      destruct Hin as [->|[(l & ->)|[->|[->|(c & ->)]]]]; split; discriminate.
    - apply elem_of_cons in Hin. destruct Hin as [->|Hin]; [split; discriminate|].
      apply elem_of_cons in Hin. destruct Hin as [->|Hin]; [split; discriminate|].
      apply elem_of_nil in Hin. destruct Hin. }
  split; [|split].
  - intros it tok Hin. exact (proj1 (Hcalls _ Hin) it tok eq_refl).
  - intros it op Hin. exact (proj2 (Hcalls _ Hin) it op eq_refl).
  - intros Hcol Hone. rewrite !len_append, Hone, slice_prefix by exact Hcol.
    assert (Hpre : JS.len (JS.str (take (Z.to_nat (col o)) (JS.chars (line o)))) = col o).
    { unfold JS.len. rewrite str_length, length_take_le.
      - lia.
      - rewrite len_chars in Hcol. lia. }
    rewrite Hpre. lia.
Qed.

(** On the scenario of the specification, where every character of the
    line is one byte: [foo] is the candidate for "fo", the user types a
    dot, and the line becomes "foo." with the cursor in column 5. *)
Lemma commit_branch_run_on_ascii :
  let K := Examples.quiet (fun _ => []) in
  let w := Examples.typed "."
             (Examples.session (Examples.with_commit true Examples.defaults)
                "fo" "fo" [Examples.candidate "foo"]
                (Some [[Examples.candidate "foo"]]) false) in
  let r := onTextChangedI K 1 w in
  res r = Ok tt
  /\ activted (ctl (st r)) = false
  /\ out r = [PatchChange 0%nat; FireContentChanges 0%nat; Notify_hide;
              Command "noa set completeopt=menu,preview";
              Request_setline 1 "foo."; Request_cursor 1 5].
Proof.
  cbv zeta.
  edestruct (commit_branch_run
               (Examples.quiet (fun _ => []))
               (Examples.typed "."
                  (Examples.session (Examples.with_commit true Examples.defaults)
                     "fo" "fo" [Examples.candidate "foo"]
                     (Some [[Examples.candidate "foo"]]) false))
               1 0%nat "." (Examples.context "fo" "fo") 0%nat
               (set_paused true (Examples.buffer "fo" 7))
               (Examples.candidate "foo"))
    as (Hres & Hst & Hact & _ & Hout & _).
  1-12: evaluate.
  refine (conj Hres (conj _ _)).
  - etransitivity; [exact (f_equal (fun s => activted (ctl s)) Hst)|evaluate].
  - etransitivity; [exact Hout|evaluate].
Defined.

(** C4 fails on a line with a character of more than one byte.  The line
    is an accented e, a dot and [fo]; the host gives the trigger context
    for the input [fo] in byte columns, [col = 3] and [colnr = 6], and
    with them [getResumeInput] reads the input [fo] in the session, and
    [byteSlice] the prefix before it (the accented e and the dot) and the
    empty suffix after the cursor.  When the user types a dot, a commit
    character of the candidate [foo], [onTextChangedI] slices the line at
    these columns by code unit: the line it asks for keeps the [f] of the
    input before the word and is not the prefix, the word, the dot and the
    suffix; the cursor column it asks for, 8, is the byte column just
    after that intended line. *)
Lemma commit_character_slices_by_code_unit :
  let K := Scenarios.with_utf8 (Examples.quiet (fun _ => [])) in
  let o := Scenarios.accented_context in
  let w := Scenarios.accented_typed in
  let prefix := byteSlice K (line o) 0 (col o) in
  let suffix := byteSlice K (line o) (colnr o - 1) 5 in
  let r := onTextChangedI K 1 w in
  get_option w = Some o
  /\ res (getResumeInput K Scenarios.accented_session) = Ok (Some "fo")
  /\ prefix = String "233"%char "." /\ suffix = ""
  /\ line o = prefix ++ "fo" ++ suffix
  /\ res r = Ok tt
  /\ out r = [PatchChange 0%nat; FireContentChanges 0%nat; Notify_hide;
              Command "noa set completeopt=menu,preview";
              Request_setline 1 (String "233"%char ".ffoo.");
              Request_cursor 1 8]
  /\ String "233"%char ".ffoo." <> prefix ++ "foo" ++ "." ++ suffix
  /\ Request_setline 1 (prefix ++ "foo" ++ "." ++ suffix) ∉ out r.
Proof.
  cbv zeta. repeat apply conj.
  1-7: vm_compute; reflexivity.
  - vm_compute. discriminate.
  - vm_compute. intros Hin. not_in_list Hin.
Qed.

(** ** The selection index *)

(** The index [onPumRedraw] computes for a candidate it finds is within the
    candidate list. *)
Lemma find_item_in_range (item it : VimCompleteItem)
    (items : list VimCompleteItem) (i : nat) :
  find_item item items = Some (i, it) -> (1 <= i + 1 <= length items)%nat.
Proof.
  unfold find_item. intros Hfind. apply list_find_Some in Hfind.
  destruct Hfind as (Hlook & _). apply lookup_lt_Some in Hlook. lia.
Qed.

(** C5 fails on [stop].  A completion on "fo" shows two candidates, the popup
    selects the second, and the session is stopped: the candidate list is
    empty and the selection index is still 2. *)
Lemma stop_keeps_selection_index :
  let K := Examples.quiet
             (fun _ => [Examples.candidate "foo"; Examples.candidate "food"]) in
  let shown := st (startCompletion K (Examples.context "fo" "fo")
                     (Examples.idle Examples.defaults "fo")) in
  let selected := st (onPumRedraw K (Examples.candidate "food") shown) in
  let stopped := st (stop selected) in
  completeItems (ctl shown) = [Examples.candidate "foo"; Examples.candidate "food"]
  /\ currIndex (ctl selected) = 2%nat
  /\ index_in_range selected
  /\ completeItems (ctl stopped) = []
  /\ currIndex (ctl stopped) = 2%nat
  /\ ~ index_in_range stopped.
Proof.
  cbv zeta. unfold index_in_range.
  refine (conj _ (conj _ (conj _ (conj _ (conj _ _))))).
  1,2,4,5: vm_compute; reflexivity.
  - vm_compute. lia.
  - vm_compute. lia.
Qed.

(** ** [startCompletion] *)





(** ** Acceptance *)

Lemma getPreviousContent_run (K : Collaborators) (dl : loc) (w : World) :
  st (getPreviousContent K dl w) = interleave K P_prev_curpos w
  /\ out (getPreviousContent K dl w) = [Request_getcurpos].
Proof.
  unfold getPreviousContent. run.
  destruct (get_option _) as [o|]; cbn.
  - destruct (negb _); cbn; [split; reflexivity|].
    destruct (documents _ !! dl); cbn; split; reflexivity.
  - destruct (documents _ !! dl); cbn; split; reflexivity.
Qed.

Lemma addRecent_run (s : string) (n : Z) (w : World) :
  addRecent s n w = mkRun (Ok tt) (st (addRecent s n w)) [].
Proof. unfold addRecent. run. destruct (negb _); reflexivity. Qed.

Lemma new_CancellationTokenSource_run (w : World) :
  new_CancellationTokenSource w
  = mkRun (Ok (fresh (dom (tokens w)))) (st (new_CancellationTokenSource w)) [].
Proof. reflexivity. Qed.

Lemma getPreviousContent_eta (K : Collaborators) (dl : loc) (w : World) :
  getPreviousContent K dl w
  = mkRun (res (getPreviousContent K dl w)) (st (getPreviousContent K dl w))
      [Request_getcurpos].
Proof.
  destruct (getPreviousContent_run K dl w) as (_ & Hout).
  destruct (getPreviousContent K dl w) as [r s o]. cbn in *. subst o. reflexivity.
Qed.

(** The closed form of [onCompleteDone] for an accepted candidate that is
    found in the list and whose resolve succeeds. *)
Lemma onCompleteDone_run (K : Collaborators) (w : World) (done : CompletedItem)
    (dl : loc) (i : nat) (item item' : VimCompleteItem) (d : Document) :
  activted (ctl w) = true -> document (ctl w) = Some dl ->
  is_Some (done_word done) ->
  find_completed done (completeItems (ctl w)) = Some (i, item) ->
  sources_doCompleteResolve K item (done_resolved K w) = Ok item' ->
  documents (done_resolved K w) !! dl = Some d ->
  let stopped := st (stop w) in
  let checked := done_checked K item' (doc_bufnr d) w in
  let content := done_content K dl item' (doc_bufnr d) w in
  let w6 := interleave K P_done_content (st content) in
  let w7 := interleave K P_done_hook w6 in
  let opt := get_option w in
  let pre := (out (stop w)
              ++ [DoCompleteResolve item (fresh (dom (tokens stopped))); Request_mode])%list in
  let failed e := [ConsoleError (stack e);
                   LoggerError ["error on complete done"; stack e]] in
  onCompleteDone K done w =
  if negb (String.eqb (h_mode (host checked)) "i")
     || negb (insertCharTs (ctl checked) =? insertCharTs (ctl stopped))
     || negb (insertLeaveTs (ctl checked) =? insertLeaveTs (ctl stopped))
  then mkRun (Ok tt) checked pre
  else
    match res content with
    | Throw e =>
        mkRun (Ok tt) (st content)
          (pre ++ [PatchChange dl; Request_getcurpos] ++ failed e)%list
    | Ok None =>
        mkRun (Ok tt) w6
          (pre ++ [PatchChange dl; Request_getcurpos]
           ++ failed (TypeError "endsWith"))%list
    | Ok (Some c) =>
        if negb (JS.endsWith c (word item'))
        then mkRun (Ok tt) w6 (pre ++ [PatchChange dl; Request_getcurpos])%list
        else
          match sources_doCompleteDone K item' opt w7 with
          | Ok _ =>
              mkRun (Ok tt) w7
                (pre ++ [PatchChange dl; Request_getcurpos;
                         DoCompleteDone item' opt; ForceSync dl false])%list
          | Throw e =>
              mkRun (Ok tt) w7
                (pre ++ [PatchChange dl; Request_getcurpos;
                         DoCompleteDone item' opt] ++ failed e)%list
          end
    end.
Proof.
  intros Ha Hdoc Hword Hfound Hresolve Hd. cbv zeta.
  destruct (stop_completeItems w Ha) as (Hok & _); [rewrite Hdoc; by eexists|].
  revert Hresolve Hd.
  unfold done_content, done_checked, done_resolved, onCompleteDone. run.
  rewrite Hdoc, Ha. cbn. rewrite (bool_decide_eq_true_2 _ Hword). cbn.
  rewrite Hfound.
  destruct (stop w) as [rs ws os]. cbn in Hok. subst rs. cbn.
  unfold try_catch. rewrite new_CancellationTokenSource_run. cbn.
  set (w1 := interleave K P_done_resolve _).
  intros Hresolve Hd. rewrite Hresolve. cbn. rewrite Hd. cbn.
  rewrite addRecent_run. cbn.
  set (checked := interleave K P_done_mode _).
  destruct (negb (String.eqb (h_mode (host checked)) "i")
            || negb (insertCharTs (ctl checked) =? insertCharTs (ctl ws))
            || negb (insertLeaveTs (ctl checked) =? insertLeaveTs (ctl ws))); cbn;
    [reflexivity|].
  rewrite getPreviousContent_eta. cbn.
  destruct (res (getPreviousContent K dl _)) as [[c|]|e]; cbn.
  - destruct (negb (JS.endsWith c (word item'))); cbn;
      [rewrite <- ?app_assoc; reflexivity|].
    destruct (sources_doCompleteDone K item' _ _); cbn;
      rewrite <- ?app_assoc; reflexivity.
  - rewrite <- ?app_assoc; reflexivity.
  - rewrite <- ?app_assoc; reflexivity.
Qed.

(** Neither the accept hook nor the re-sync is among the calls of a list
    made of what [stop] sends and of other explicit calls. *)
Ltac no_hook Hin :=
  repeat first
    [ apply elem_of_nil in Hin; destruct Hin
    | apply elem_of_cons in Hin; destruct Hin as [Hin|Hin]; [discriminate|]
    | apply elem_of_app in Hin; destruct Hin as [Hin|Hin] ];
  try (apply stop_out_kinds in Hin;
       destruct Hin as [Hin|[(? & Hin)|[Hin|[Hin|(? & Hin)]]]]; discriminate).

(** The freshness checks of [onCompleteDone], for every state.  After a
    candidate of the list is accepted in an active session and resolved,
    the handler calls the accept hook of the providers and re-syncs the
    document only if, in the state it resumes in after the delay and the
    mode request, the host is in insert mode and the timestamps of the last
    keystroke and of the last insert-leave are the ones read just after
    [stop], and the text before the cursor, read after the flush, ends with
    the word of the candidate.  If the mode or a timestamp differs the
    handler returns in that state, and if the text is read and does not
    end with the word it returns in the state the text was read in: in
    both cases it returns normally, logs nothing and makes no further
    call.  If there is no text to read ([getPreviousContent] gives [null])
    the test of line 354 throws, and the error is written to the console
    and to the log. *)
Lemma accept_hook_checks (K : Collaborators) (w : World)
    (done : CompletedItem) (dl : loc) (i : nat) (item item' : VimCompleteItem)
    (d : Document) :
  activted (ctl w) = true -> document (ctl w) = Some dl ->
  is_Some (done_word done) ->
  find_completed done (completeItems (ctl w)) = Some (i, item) ->
  sources_doCompleteResolve K item (done_resolved K w) = Ok item' ->
  documents (done_resolved K w) !! dl = Some d ->
  let stopped := st (stop w) in
  let checked := done_checked K item' (doc_bufnr d) w in
  let content := done_content K dl item' (doc_bufnr d) w in
  let unchanged :=
    h_mode (host checked) = "i"
    /\ insertCharTs (ctl checked) = insertCharTs (ctl stopped)
    /\ insertLeaveTs (ctl checked) = insertLeaveTs (ctl stopped) in
  let started :=
    (out (stop w)
     ++ [DoCompleteResolve item (fresh (dom (tokens stopped))); Request_mode])%list in
  let r := onCompleteDone K done w in
  activted (ctl stopped) = false
  /\ res r = Ok tt
  /\ ((exists it op, DoCompleteDone it op ∈ out r) \/ ForceSync dl false ∈ out r ->
      unchanged
      /\ exists c, res content = Ok (Some c) /\ JS.endsWith c (word item') = true)
  /\ (~ unchanged -> r = mkRun (Ok tt) checked started)
  /\ (forall c, unchanged -> res content = Ok (Some c) ->
      JS.endsWith c (word item') = false ->
      r = mkRun (Ok tt) (interleave K P_done_content (st content))
            (started ++ [PatchChange dl; Request_getcurpos])%list)
  /\ (unchanged -> res content = Ok None ->
      r = mkRun (Ok tt) (interleave K P_done_content (st content))
            (started ++ [PatchChange dl; Request_getcurpos;
                         ConsoleError (stack (TypeError "endsWith"));
                         LoggerError ["error on complete done";
                                      stack (TypeError "endsWith")]])%list).
Proof.
  intros Ha Hdoc Hword Hfound Hresolve Hd. cbv zeta.
  rewrite (onCompleteDone_run K w done dl i item item' d Ha Hdoc Hword Hfound Hresolve Hd).
  split; [apply stop_activted|].
  set (checked := done_checked K item' (doc_bufnr d) w).
  set (content := done_content K dl item' (doc_bufnr d) w).
  destruct (String.eqb_spec (h_mode (host checked)) "i") as [Hmode|Hmode]; cbn [negb orb].
  2:{ split; [reflexivity|]. split; [|split; [|split]].
      - intros [(it & op & Hin)|Hin]; cbn in Hin; no_hook Hin.
      - reflexivity.
      - intros c (Habs & _). contradiction.
      - intros (Habs & _). contradiction. }
  destruct (Z.eqb_spec (insertCharTs (ctl checked)) (insertCharTs (ctl (st (stop w)))))
    as [Hts|Hts]; cbn [negb orb].
  2:{ split; [reflexivity|]. split; [|split; [|split]].
      - intros [(it & op & Hin)|Hin]; cbn in Hin; no_hook Hin.
      - reflexivity.
      - intros c (_ & Habs & _). contradiction.
      - intros (_ & Habs & _). contradiction. }
  destruct (Z.eqb_spec (insertLeaveTs (ctl checked)) (insertLeaveTs (ctl (st (stop w)))))
    as [Hleave|Hleave]; cbn [negb orb].
  2:{ split; [reflexivity|]. split; [|split; [|split]].
      - intros [(it & op & Hin)|Hin]; cbn in Hin; no_hook Hin.
      - reflexivity.
      - intros c (_ & _ & Habs). contradiction.
      - intros (_ & _ & Habs). contradiction. }
  assert (Hun : h_mode (host checked) = "i"
                /\ insertCharTs (ctl checked) = insertCharTs (ctl (st (stop w)))
                /\ insertLeaveTs (ctl checked) = insertLeaveTs (ctl (st (stop w))))
    by (repeat split; assumption).
  destruct (res content) as [[c|]|e].
  - destruct (JS.endsWith c (word item')) eqn:Hends; cbn [negb].
    + destruct (sources_doCompleteDone K item' _ _); cbn [res out].
      * split; [reflexivity|]. split; [|split; [|split]].
        -- intros _. split; [exact Hun|]. exists c. split; [reflexivity|exact Hends].
        -- intros Habs. contradiction.
        -- intros c' _ [= <-] Habs. congruence.
        -- intros _ [=].
      * split; [reflexivity|]. split; [|split; [|split]].
        -- intros _. split; [exact Hun|]. exists c. split; [reflexivity|exact Hends].
        -- intros Habs. contradiction.
        -- intros c' _ [= <-] Habs. congruence.
        -- intros _ [=].
    + split; [reflexivity|]. split; [|split; [|split]].
      * intros [(it & op & Hin)|Hin]; cbn in Hin; no_hook Hin.
      * intros Habs. contradiction.
      * intros c' _ [= <-] _. reflexivity.
      * intros _ [=].
  - split; [reflexivity|]. split; [|split; [|split]].
    + intros [(it & op & Hin)|Hin]; cbn in Hin; no_hook Hin.
    + intros Habs. contradiction.
    + intros c' _ [=].
    + intros _ _. cbn. rewrite <- ?app_assoc. reflexivity.
  - split; [reflexivity|]. split; [|split; [|split]].
    + intros [(it & op & Hin)|Hin]; cbn in Hin; no_hook Hin.
    + intros Habs. contradiction.
    + intros c' _ [=].
    + intros _ [=].
Qed.

(** On the scenario of the specification: [foo] is accepted and the user
    leaves insert mode while it is resolved; the accept hook and the
    re-sync are skipped. *)
Lemma accept_hook_checks_on_leave :
  let K := Examples.leaving (fun _ => [Examples.candidate "foo"]) in
  let w := Examples.session Examples.defaults "fo" "fo" [Examples.candidate "foo"]
             (Some [[Examples.candidate "foo"]]) false in
  let r := onCompleteDone K {| done_word := Some "foo"; done_user_data := None |} w in
  res r = Ok tt
  /\ out r = [FireContentChanges 0%nat; Notify_hide;
              Command "noa set completeopt=menu,preview";
              DoCompleteResolve (Examples.candidate "foo") 0%nat; Request_mode]
  /\ h_mode (host (st r)) = "n"
  /\ activted (ctl (st r)) = false.
Proof.
  cbv zeta.
  edestruct (accept_hook_checks
               (Examples.leaving (fun _ => [Examples.candidate "foo"]))
               (Examples.session Examples.defaults "fo" "fo" [Examples.candidate "foo"]
                  (Some [[Examples.candidate "foo"]]) false)
               {| done_word := Some "foo"; done_user_data := None |}
               0%nat 0%nat (Examples.candidate "foo") (Examples.candidate "foo"))
    as (_ & Hres & _ & Hstale & _ & _).
  - evaluate.
  - evaluate.
  - by eexists.
  - evaluate.
  - evaluate.
  - vm_compute. reflexivity.
  - refine (conj Hres _).
    rewrite Hstale.
    + cbn [st out]. evaluate.
    + intros (Hmode & _). vm_compute in Hmode. discriminate.
Defined.

(** C6 fails when there is no text to read.  The candidate [foo] is
    accepted; while it is resolved the user asks for a completion again,
    and during the delay that follows moves the cursor to the next line
    with a cursor key.  When [onCompleteDone] resumes, the host is in
    insert mode and both timestamps are the ones it read on entry, so the
    checks of line 351 pass; the cursor is not on the line of the new
    session, so [getPreviousContent] gives [null] (line 82), the test of
    line 354 throws, and the handler writes the error to the console and to
    the log.  The accept hook is skipped, but not silently. *)
Lemma accept_hook_logs_unread_text :
  let K := Scenarios.refreshing (fun _ => [Examples.candidate "foo"]) in
  let w := Scenarios.accepted in
  let r := onCompleteDone K {| done_word := Some "foo"; done_user_data := None |} w in
  res r = Ok tt
  /\ h_mode (host (st r)) = "i"
  /\ insertCharTs (ctl (st r)) = insertCharTs (ctl w)
  /\ insertLeaveTs (ctl (st r)) = insertLeaveTs (ctl w)
  /\ linenr <$> get_option (st r) = Some 1 /\ h_lnum (host (st r)) = 2
  /\ out r = [FireContentChanges 0%nat; Notify_hide;
              Command "noa set completeopt=menu,preview";
              DoCompleteResolve (Examples.candidate "foo") 0%nat; Request_mode;
              PatchChange 0%nat; Request_getcurpos;
              ConsoleError "TypeError: Cannot read property 'endsWith' of undefined";
              LoggerError ["error on complete done";
                           "TypeError: Cannot read property 'endsWith' of undefined"]]
  /\ (forall it op, DoCompleteDone it op ∉ out r).
Proof.
  cbv zeta. repeat apply conj.
  1-7: vm_compute; reflexivity.
  intros it op Hin. vm_compute in Hin. not_in_list Hin.
Qed.

(** * Further properties: the other methods of the controller *)

(** ** [start] and [stop] *)

(** X1.  [start] and [stop] keep the controller active exactly when it owns
    an aggregator: [start] in every state where this holds (also when it
    throws for want of a document), [stop] in every such state where an
    active controller has its document. *)
Theorem start_stop_keep_ownership (c : loc) (w : World) :
  session_owned w ->
  session_owned (st (start c w))
  /\ ((activted (ctl w) = true -> is_Some (document (ctl w))) ->
      session_owned (st (stop w))).
Proof.
  unfold session_owned. intros Hinv. split.
  - open_world w. unfold start, closePreviewWindow, assign_paused, cancel_complete.
    run.
    destruct f_activted, f_complete as [old|], f_floating, f_keep,
      f_document as [l|]; cbn;
      try (split; [intros _; by eexists|reflexivity]).
    all: destruct Hinv as [Hinv _]; destruct (Hinv eq_refl) as [? [=]].
  - intros Hdoc. open_world w. unfold_stop. run.
    destruct f_activted; cbn.
    + destruct (Hdoc eq_refl) as [l ->].
      destruct f_token, f_floating, f_complete, f_number, f_keep; cbn;
        (split; [discriminate|intros [? [=]]]).
    + exact Hinv.
Qed.

Lemma start_stop_keep_ownership_witness :
  session_owned (st (start 1%nat Examples.resolving))
  /\ session_owned (st (stop Examples.resolving)).
Proof.
  destruct (start_stop_keep_ownership 1%nat Examples.resolving) as (Hstart & Hstop).
  - split; [intros _; vm_compute; by eexists|intros _; vm_compute; reflexivity].
  - split; [exact Hstart|]. apply Hstop. intros _. vm_compute. by eexists.
Defined.

(** X2.  [start] on an active controller replaces its session: the previous
    aggregator is canceled, the new one is owned, the candidate list is
    empty, the preview is closed, the document is synced and paused, and the
    controller is active. *)
Theorem start_replaces_session (c old l : loc) (w : World) :
  activted (ctl w) = true -> complete (ctl w) = Some old ->
  document (ctl w) = Some l ->
  let r := start c w in
  res r = Ok tt
  /\ activted (ctl (st r)) = true
  /\ complete (ctl (st r)) = Some c
  /\ completeItems (ctl (st r)) = []
  /\ isResolving (ctl (st r)) = false
  /\ floating (ctl (st r)) = false
  /\ aggregators (st r) !! old = cancel <$> aggregators w !! old
  /\ documents (st r) !! l = set_paused true <$> documents w !! l
  /\ ForceSync l true ∈ out r.
Proof.
  intros Ha Hc Hd. open_world w. subst.
  unfold start, closePreviewWindow, assign_paused, cancel_complete. run.
  destruct f_floating, f_keep; cbn.
  all: repeat apply conj; try reflexivity.
  all: first [ apply lookup_alter_eq | in_list ].
Qed.

Lemma start_replaces_session_witness :
  let r := start 1%nat Examples.resolving in
  res r = Ok tt
  /\ complete (ctl (st r)) = Some 1%nat
  /\ (c_isCanceled <$> aggregators (st r) !! 0%nat) = Some true
  /\ (paused <$> documents (st r) !! 0%nat) = Some true
  /\ out r = [FloatingClose; Command "noa set completeopt=noselect,menuone";
              ForceSync 0%nat true].
Proof.
  cbv zeta.
  destruct (start_replaces_session 1%nat 0%nat 0%nat Examples.resolving)
    as (Hres & _ & Hc & _ & _ & _ & Hagg & Hdoc & _); [evaluate..|].
  refine (conj Hres (conj Hc (conj _ (conj _ _)))).
  - etransitivity; [exact (f_equal (fmap c_isCanceled) Hagg)|evaluate].
  - etransitivity; [exact (f_equal (fmap paused) Hdoc)|evaluate].
  - evaluate.
Defined.

(** The closed forms of [start] on a controller at rest and of [stop] on
    the state it leaves. *)
Lemma start_at_rest (c l : loc) (w : World) :
  at_rest (ctl w) -> document (ctl w) = Some l ->
  start c w
  = mkRun (Ok tt) (started_state c l w)
      ((if keepCompleteopt (config (ctl w)) then []
        else [Command ("noa set completeopt=" ++ completeOpt (ctl w))])
       ++ [ForceSync l true])%list.
Proof.
  intros (Ha & Hc & Hitems & Hfl & Htok & Hres) Hd.
  open_world w. subst. destruct f_keep; vm_compute; reflexivity.
Qed.

Lemma stop_started (c l : loc) (w : World) :
  at_rest (ctl w) -> document (ctl w) = Some l ->
  stop (started_state c l w)
  = mkRun (Ok tt)
      (set_aggregators (alter cancel c (aggregators w))
         (set_documents
            (alter (set_paused false) l (alter (set_paused true) l (documents w)))
            (upd_ctl (fun k => set_complete None (set_completeItems []
                                (set_activted false (set_isResolving false k)))) w)))
      ([FireContentChanges l]
       ++ (if numberSelect (config (ctl w)) then [Notify_unmap] else [])
       ++ [Notify_hide]
       ++ (if keepCompleteopt (config (ctl w)) then []
           else [Command ("noa set completeopt=" ++ ws_completeOpt (workspace w))]))%list.
Proof.
  intros (Ha & Hc & Hitems & Hfl & Htok & Hres) Hd.
  open_world w. subst. destruct f_keep, f_number; vm_compute; reflexivity.
Qed.

(** X3.  A session started on a controller at rest and stopped again leaves
    the controller and the document as they were; only the aggregator is
    marked canceled.  The host's [completeopt] is set to the controller's on
    [start] and back to the user's on [stop], and with [keepCompleteopt]
    neither command is sent. *)
Theorem start_then_stop_restores (c l : loc) (d : Document) (w : World) :
  at_rest (ctl w) -> document (ctl w) = Some l ->
  documents w !! l = Some d -> paused d = false ->
  let started := start c w in
  let stopped := stop (st started) in
  res started = Ok tt /\ res stopped = Ok tt
  /\ ctl (st stopped) = ctl w
  /\ documents (st stopped) = documents w
  /\ aggregators (st stopped) = alter cancel c (aggregators w)
  /\ activted (ctl (st started)) = true
  /\ (paused <$> documents (st started) !! l) = Some true
  /\ (out started ++ out stopped)%list
     = ((if keepCompleteopt (config (ctl w)) then []
         else [Command ("noa set completeopt=" ++ completeOpt (ctl w))])
        ++ [ForceSync l true; FireContentChanges l]
        ++ (if numberSelect (config (ctl w)) then [Notify_unmap] else [])
        ++ [Notify_hide]
        ++ (if keepCompleteopt (config (ctl w)) then []
            else [Command ("noa set completeopt=" ++ ws_completeOpt (workspace w))]))%list.
Proof.
  intros Hrest Hd Hdoc Hpaused. cbv zeta.
  rewrite (start_at_rest c l w Hrest Hd).
  cbn [res st out].
  rewrite (stop_started c l w Hrest Hd).
  destruct Hrest as (Ha & Hc & Hitems & Hfl & Htok & Hres).
  cbn [res st out].
  assert (Hback : alter (set_paused false) l (alter (set_paused true) l (documents w))
                  = documents w).
  { apply map_eq. intros k. destruct (decide (k = l)) as [->|Hne].
    - rewrite !lookup_alter_eq, Hdoc. cbn. f_equal.
      destruct d; cbn in *; subst; reflexivity.
    - rewrite !lookup_alter_ne by congruence. reflexivity. }
  rewrite Hback.
  refine (conj eq_refl (conj eq_refl (conj _ (conj eq_refl (conj eq_refl
            (conj eq_refl (conj _ _))))))).
  - open_world w. subst. vm_compute. reflexivity.
  - unfold started_state. cbn. rewrite lookup_alter_eq, Hdoc. reflexivity.
  - destruct (keepCompleteopt (config (ctl w))), (numberSelect (config (ctl w)));
      reflexivity.
Qed.

Lemma start_then_stop_restores_witness :
  let w := upd_ctl (set_document (Some 0%nat))
             (Examples.idle Examples.defaults "fo") in
  let started := start 0%nat w in
  let stopped := stop (st started) in
  ctl (st stopped) = ctl w
  /\ documents (st stopped) = documents w
  /\ (out started ++ out stopped)%list
     = [Command "noa set completeopt=noselect,menuone"; ForceSync 0%nat true;
        FireContentChanges 0%nat; Notify_hide;
        Command "noa set completeopt=menu,preview"].
Proof.
  cbv zeta.
  destruct (start_then_stop_restores 0%nat 0%nat (Examples.buffer "fo" 7)
              (upd_ctl (set_document (Some 0%nat))
                 (Examples.idle Examples.defaults "fo")))
    as (_ & _ & Hctl & Hdocs & _ & _ & _ & Hout).
  - unfold at_rest. evaluate.
  - evaluate.
  - evaluate.
  - evaluate.
  - refine (conj Hctl (conj Hdocs _)).
    etransitivity; [exact Hout|evaluate].
Defined.

(** ** [appendNumber] *)

Lemma appendNumber_from_spec (items : list VimCompleteItem) (k : nat) :
  length (appendNumber_from k items) = length items
  /\ (word <$> appendNumber_from k items) = (word <$> items)
  /\ drop (11 - k) (appendNumber_from k items) = drop (11 - k) items
  /\ (forall i it, (k + i <= 10)%nat -> items !! i = Some it ->
      appendNumber_from k items !! i
      = Some (number_item (if (k + i =? 10)%nat then 0 else k + i)%nat it)).
Proof.
  revert k. induction items as [|x items IH]; intros k.
  - cbn. rewrite !drop_nil. repeat split. intros i it _ [=].
  - cbn [appendNumber_from]. destruct (Nat.leb_spec k 10) as [Hk|Hk].
    + destruct (IH (S k)) as (Hlen & Hword & Hdrop & Hnum).
      split; [cbn; f_equal; exact Hlen|].
      split; [cbn; f_equal; exact Hword|].
      split.
      * replace (11 - k)%nat with (S (11 - S k)) by lia. cbn. exact Hdrop.
      * intros [|i] it Hi Hit.
        -- injection Hit as <-. rewrite Nat.add_0_r. reflexivity.
        -- change (items !! i = Some it) in Hit.
           change (appendNumber_from (S k) items !! i
                   = Some (number_item (if (k + S i =? 10)%nat then 0 else k + S i)%nat it)).
           rewrite (Hnum i it) by (auto; lia).
           replace (S k + i)%nat with (k + S i)%nat by lia. reflexivity.
    + repeat split. intros i it Hi. lia.
Qed.

(** X4.  With numeric quick-select, [appendNumber] relabels the first ten
    candidates and nothing else: the list keeps its length and its words,
    the candidates after the tenth are untouched, and candidate number [i+1]
    gets the digit [i+1] in front of its label, the tenth the digit 0.
    Without numeric quick-select the list is returned as it is. *)
Theorem appendNumber_labels (c : Completion) (items : list VimCompleteItem) :
  (numberSelect (config c) = false -> appendNumber c items = items)
  /\ (numberSelect (config c) = true ->
      length (appendNumber c items) = length items
      /\ (word <$> appendNumber c items) = (word <$> items)
      /\ drop 10 (appendNumber c items) = drop 10 items
      /\ (forall i it, (i < 10)%nat -> items !! i = Some it ->
          appendNumber c items !! i
          = Some (number_item (if (i =? 9)%nat then 0 else S i)%nat it)
          /\ abbr (number_item (if (i =? 9)%nat then 0 else S i)%nat it)
             = Some (JS.digit (if (i =? 9)%nat then 0 else S i)%nat ++ " "
                     ++ (if JS.truthy (abbr it) then default "" (abbr it)
                         else word it)))).
Proof.
  unfold appendNumber. split; intros ->; [reflexivity|]. cbn [negb].
  destruct (appendNumber_from_spec items 1) as (Hlen & Hword & Hdrop & Hnum).
  repeat split; try assumption.
  rewrite (Hnum i it) by (auto; lia). cbn [Nat.add].
  destruct (Nat.eqb_spec i 9) as [->|Hne]; [reflexivity|].
  destruct (Nat.eqb_spec (S i) 10) as [Heq|_]; [lia|reflexivity].
Qed.

(** ** [getInput] *)

Lemma chars_str (l : list ascii) : JS.chars (JS.str l) = l.
Proof. apply list_ascii_of_string_of_list_ascii. Qed.

Lemma getInput_from_chars (K : Collaborators) (d : Document) (pre : string)
    (i : nat) :
  (i <= length (JS.chars pre))%nat ->
  JS.chars (getInput_from K d pre i)
  = (reverse (take_while (is_word_unit K d) (reverse (take i (JS.chars pre))))
     ++ drop i (JS.chars pre))%list.
Proof.
  induction i as [|j IH]; intros Hi.
  - cbn [getInput_from].
    change (JS.slice pre 0 (JS.len pre)) with (JS.slice pre (Z.of_nat 0) (JS.len pre)).
    rewrite (slice_suffix pre 0) by lia. rewrite chars_str, take_0. reflexivity.
  - cbn [getInput_from]. unfold JS.at_index.
    destruct (Z.ltb_spec (Z.of_nat j) 0) as [Hneg|_]; [lia|].
    rewrite Nat2Z.id.
    destruct (lookup_lt_is_Some_2 (JS.chars pre) j) as [c Hc]; [lia|].
    rewrite Hc, (take_S_r _ _ _ Hc), reverse_snoc. cbn [take_while].
    fold (is_word_unit K d c). destruct (is_word_unit K d c); cbn [negb].
    + rewrite IH by lia. rewrite reverse_cons, <- app_assoc. cbn [app].
      rewrite (drop_S _ _ _ Hc). reflexivity.
    + rewrite slice_suffix by lia. rewrite chars_str. reflexivity.
Qed.

(** X5.  [getInput] of the empty string is the empty string; of any other
    string it is the last code unit together with the longest run of word
    characters that ends just before it.  The last code unit itself is not
    tested: it is kept also when it is not a word character. *)
Theorem getInput_suffix (K : Collaborators) (d : Document) (pre : string) :
  (pre = "" -> getInput K d pre = "")
  /\ (forall l c, JS.chars pre = (l ++ [c])%list ->
      JS.chars (getInput K d pre)
      = (reverse (take_while (is_word_unit K d) (reverse l)) ++ [c])%list).
Proof.
  split; [intros ->; reflexivity|].
  intros l c Hs. unfold getInput.
  pose proof (chars_length pre) as Hlen. rewrite Hs, length_app in Hlen.
  cbn [length] in Hlen.
  destruct (String.length pre) as [|n] eqn:E; [lia|].
  rewrite getInput_from_chars by (rewrite Hs, length_app; cbn; lia).
  rewrite Hs. replace n with (length l) by lia.
  rewrite take_app_length, drop_app_length. reflexivity.
Qed.

(** [getInput] keeps a trailing dot. *)
Example getInput_keeps_last :
  getInput (Examples.quiet (fun _ => [])) (Examples.buffer "" 0) "a.foo." = "foo.".
Proof. vm_compute. reflexivity. Qed.

(** ** [resumeCompletion] on a complete aggregator *)

(** What [resume_show] does in a session. *)
Lemma resume_show_run (w : World) (cl dl : loc) (agg : Complete) (d : Document)
    (items : option (list VimCompleteItem)) :
  in_session w cl agg dl -> documents w !! dl = Some d ->
  resume_show items w =
  match items with
  | None | Some [] => stop w
  | Some (x :: xs) =>
      mkRun (Ok tt)
        (upd_ctl (fun c => set_completeItems (appendNumber (ctl w) (x :: xs))
                             (set_changedTick (changedtick d) c)) w)
        ((if numberSelect (config (ctl w)) then [Notify_map] else [])
         ++ [Notify_do_complete (col (c_option agg)) (appendNumber (ctl w) (x :: xs))])%list
  end.
Proof.
  intros (Ha & Hc & Hagg & Hd) Hdoc.
  assert (Ho : get_option w = Some (c_option agg))
    by (unfold get_option; rewrite Hc; cbn; rewrite Hagg; reflexivity).
  unfold resume_show. run. rewrite Ha. cbn.
  destruct items as [[|x xs]|]; try (destruct (stop w); reflexivity).
  unfold option_of. rewrite Ho. cbn. unfold showCompletion, appendNumber. run.
  rewrite Hd. cbn. rewrite Hdoc. cbn.
  destruct (numberSelect (config (ctl w))); reflexivity.
Qed.

(** The closed form of [resumeCompletion] in a session whose aggregator has
    results and is complete. *)
Lemma resumeCompletion_complete_run (K : Collaborators) (w : World)
    (search : option string) (cl dl : loc) (agg : Complete) (d : Document) :
  in_session w cl agg dl -> documents w !! dl = Some d ->
  is_Some (c_results agg) -> c_isIncomplete agg = false ->
  resumeCompletion K search w =
  if bool_decide (search = input (ctl w)) then mkRun (Ok tt) w []
  else
    match search with
    | None => stop w
    | Some s =>
        if JS.endsWith s " " || (JS.len s <? JS.len (c_input agg)) then stop w
        else resume_show (complete_filterResults K agg s)
               (upd_ctl (set_input (Some s)) w)
    end.
Proof.
  intros (Ha & Hc & Hagg & Hd) Hdoc Hres Hinc.
  unfold resumeCompletion. run. rewrite Ha, Hc. cbn. rewrite Hagg. cbn.
  rewrite (bool_decide_eq_true_2 _ Hres). cbn.
  destruct (bool_decide (search = input (ctl w))); [reflexivity|].
  destruct search as [s|]; [|destruct (stop w); reflexivity].
  destruct (JS.endsWith s " " || (JS.len s <? JS.len (c_input agg)));
    [destruct (stop w); reflexivity|].
  rewrite Hd. cbn. rewrite Hdoc. cbn. rewrite Hinc.
  destruct (resume_show _ _); reflexivity.
Qed.

Lemma in_session_input (w : World) (cl dl : loc) (agg : Complete)
    (s : option string) :
  in_session w cl agg dl -> in_session (upd_ctl (set_input s) w) cl agg dl.
Proof. intros H. exact H. Qed.

(** X6.  In a session whose aggregator is complete, a search that is
    neither stale nor the recorded input is answered by the local filter
    alone: when the filter leaves candidates, [resumeCompletion] records the
    search and the change-version of the document, and shows the (numbered)
    candidates at the start column of the session; it makes no call on the
    providers or the document. *)
Theorem resume_filters_locally (K : Collaborators) (w : World) (s : string)
    (cl dl : loc) (agg : Complete) (d : Document)
    (x : VimCompleteItem) (xs : list VimCompleteItem) :
  in_session w cl agg dl -> documents w !! dl = Some d ->
  is_Some (c_results agg) -> c_isIncomplete agg = false ->
  Some s <> input (ctl w) ->
  JS.endsWith s " " = false -> JS.len (c_input agg) <= JS.len s ->
  complete_filterResults K agg s = Some (x :: xs) ->
  let shown := appendNumber (ctl w) (x :: xs) in
  resumeCompletion K (Some s) w
  = mkRun (Ok tt)
      (upd_ctl (fun c => set_completeItems shown
                           (set_changedTick (changedtick d)
                              (set_input (Some s) c))) w)
      ((if numberSelect (config (ctl w)) then [Notify_map] else [])
       ++ [Notify_do_complete (col (c_option agg)) shown])%list.
Proof.
  intros Hs Hdoc Hres Hinc Hdiff Hsp Hlen Hfilter. cbv zeta.
  rewrite (resumeCompletion_complete_run K w (Some s) cl dl agg d Hs Hdoc Hres Hinc).
  rewrite (bool_decide_eq_false_2 _ Hdiff), Hsp.
  apply Z.ltb_ge in Hlen. rewrite Hlen. cbn [orb]. rewrite Hfilter.
  rewrite (resume_show_run _ cl dl agg d _ (in_session_input w cl dl agg _ Hs) Hdoc).
  reflexivity.
Qed.

(** X6 on the scenario of the specification: "fo" gave [foo, food, fox];
    typing "o" leaves [foo, food], without a provider call. *)
Lemma resume_filters_locally_witness :
  let found s := if String.eqb s "foo"
                 then [Examples.candidate "foo"; Examples.candidate "food"]
                 else [Examples.candidate "foo"; Examples.candidate "food";
                       Examples.candidate "fox"] in
  let w := Examples.session Examples.defaults "fo" "fo" (found "fo")
             (Some [found "fo"]) false in
  let r := resumeCompletion (Examples.quiet found) (Some "foo") w in
  res r = Ok tt
  /\ input (ctl (st r)) = Some "foo"
  /\ completeItems (ctl (st r)) = [Examples.candidate "foo"; Examples.candidate "food"]
  /\ out r = [Notify_do_complete 0
                [Examples.candidate "foo"; Examples.candidate "food"]].
Proof.
  cbv zeta.
  erewrite (resume_filters_locally
              (Examples.quiet (fun s => if String.eqb s "foo"
                 then [Examples.candidate "foo"; Examples.candidate "food"]
                 else [Examples.candidate "foo"; Examples.candidate "food";
                       Examples.candidate "fox"]))
              _ "foo" 0%nat 0%nat
              (Examples.aggregator "fo" "fo"
                 (Some [[Examples.candidate "foo"; Examples.candidate "food";
                         Examples.candidate "fox"]]) false)
              (set_paused true (Examples.buffer "fo" 7))).
  - cbn [res st out]. evaluate.
  - unfold in_session. evaluate.
  - evaluate.
  - by eexists.
  - evaluate.
  - evaluate.
  - evaluate.
  - evaluate.
  - vm_compute. reflexivity.
Defined.

(** X7.  In the same situation, when the filter leaves no candidate (an
    empty list or none at all), [resumeCompletion] records the search and
    then does what [stop] does: the session ends and the popup is hidden. *)
Theorem resume_empty_filter_stops (K : Collaborators) (w : World) (s : string)
    (cl dl : loc) (agg : Complete) (d : Document) :
  in_session w cl agg dl -> documents w !! dl = Some d ->
  is_Some (c_results agg) -> c_isIncomplete agg = false ->
  Some s <> input (ctl w) ->
  JS.endsWith s " " = false -> JS.len (c_input agg) <= JS.len s ->
  complete_filterResults K agg s = None \/ complete_filterResults K agg s = Some [] ->
  let r := resumeCompletion K (Some s) w in
  r = stop (upd_ctl (set_input (Some s)) w)
  /\ res r = Ok tt
  /\ activted (ctl (st r)) = false
  /\ completeItems (ctl (st r)) = []
  /\ Notify_hide ∈ out r
  /\ (forall c items, Notify_do_complete c items ∉ out r).
Proof.
  intros Hs Hdoc Hres Hinc Hdiff Hsp Hlen Hfilter. cbv zeta.
  assert (Hrun : resumeCompletion K (Some s) w = stop (upd_ctl (set_input (Some s)) w)).
  { rewrite (resumeCompletion_complete_run K w (Some s) cl dl agg d Hs Hdoc Hres Hinc).
    rewrite (bool_decide_eq_false_2 _ Hdiff), Hsp.
    apply Z.ltb_ge in Hlen. rewrite Hlen. cbn [orb].
    rewrite (resume_show_run _ cl dl agg d _ (in_session_input w cl dl agg _ Hs) Hdoc).
    destruct Hfilter as [-> | ->]; reflexivity. }
  rewrite Hrun. destruct Hs as (Ha & Hc & Hagg & Hd).
  destruct (stop_completeItems (upd_ctl (set_input (Some s)) w)) as (Hok & Hitems & Hhide);
    [exact Ha|cbn; rewrite Hd; by eexists|].
  repeat apply conj; auto using stop_activted, stop_shows_nothing.
Qed.

Lemma resume_empty_filter_stops_witness :
  let w := Examples.session Examples.defaults "fo" "fo" [Examples.candidate "foo"]
             (Some [[Examples.candidate "foo"]]) false in
  let r := resumeCompletion (Examples.quiet (fun _ => [])) (Some "fox") w in
  res r = Ok tt /\ activted (ctl (st r)) = false
  /\ input (ctl (st r)) = Some "fox".
Proof.
  cbv zeta.
  edestruct (resume_empty_filter_stops (Examples.quiet (fun _ => []))
               (Examples.session Examples.defaults "fo" "fo" [Examples.candidate "foo"]
                  (Some [[Examples.candidate "foo"]]) false)
               "fox" 0%nat 0%nat
               (Examples.aggregator "fo" "fo" (Some [[Examples.candidate "foo"]]) false)
               (set_paused true (Examples.buffer "fo" 7)))
    as (Hrun & Hres & Hact & _).
  - unfold in_session. evaluate.
  - evaluate.
  - by eexists.
  - evaluate.
  - evaluate.
  - evaluate.
  - evaluate.
  - right. vm_compute. reflexivity.
  - refine (conj Hres (conj Hact _)).
    rewrite Hrun. vm_compute. reflexivity.
Defined.

Lemma resumeCompletion_inactive (K : Collaborators) (w : World)
    (search : option string) :
  activted (ctl w) = false -> resumeCompletion K search w = mkRun (Ok tt) w [].
Proof. intros Ha. unfold resumeCompletion. run. rewrite Ha. reflexivity. Qed.

(** X8.  In a session whose aggregator is complete, handing
    [resumeCompletion] the same search a second time does nothing: after the
    first call the search is the recorded input, or the session is over. *)
Theorem resume_repeated_is_noop (K : Collaborators) (w : World)
    (search : option string) (cl dl : loc) (agg : Complete) (d : Document) :
  in_session w cl agg dl -> documents w !! dl = Some d ->
  is_Some (c_results agg) -> c_isIncomplete agg = false ->
  let r := resumeCompletion K search w in
  resumeCompletion K search (st r) = mkRun (Ok tt) (st r) [].
Proof.
  intros Hs Hdoc Hres Hinc. cbv zeta.
  rewrite (resumeCompletion_complete_run K w search cl dl agg d Hs Hdoc Hres Hinc).
  destruct (bool_decide (search = input (ctl w))) eqn:Hsame.
  - cbn [st].
    rewrite (resumeCompletion_complete_run K w search cl dl agg d Hs Hdoc Hres Hinc).
    rewrite Hsame. reflexivity.
  - destruct search as [s|];
      [|apply resumeCompletion_inactive, stop_activted].
    destruct (JS.endsWith s " " || (JS.len s <? JS.len (c_input agg)));
      [apply resumeCompletion_inactive, stop_activted|].
    rewrite (resume_show_run _ cl dl agg d _ (in_session_input w cl dl agg _ Hs) Hdoc).
    destruct (complete_filterResults K agg s) as [[|x xs]|];
      try (apply resumeCompletion_inactive, stop_activted).
    cbn [st].
    erewrite (resumeCompletion_complete_run K _ (Some s) cl dl agg d);
      [|exact Hs|exact Hdoc|exact Hres|exact Hinc].
    cbn. rewrite (bool_decide_eq_true_2 _ eq_refl). reflexivity.
Qed.

Lemma resume_repeated_is_noop_witness :
  let K := Examples.quiet (fun _ => [Examples.candidate "foo"]) in
  let w := Examples.session Examples.defaults "fo" "fo" [Examples.candidate "foo"]
             (Some [[Examples.candidate "foo"]]) false in
  let r := resumeCompletion K (Some "foo") w in
  out r = [Notify_do_complete 0 [Examples.candidate "foo"]]
  /\ resumeCompletion K (Some "foo") (st r) = mkRun (Ok tt) (st r) [].
Proof.
  cbv zeta. split; [evaluate|].
  apply (resume_repeated_is_noop _ _ _ 0%nat 0%nat
           (Examples.aggregator "fo" "fo" (Some [[Examples.candidate "foo"]]) false)
           (set_paused true (Examples.buffer "fo" 7))).
  - unfold in_session. evaluate.
  - evaluate.
  - by eexists.
  - evaluate.
Defined.

(** ** [_doComplete] *)

Lemma start_ok (c : loc) (w : World) :
  (activted (ctl w) = true -> is_Some (complete (ctl w))) ->
  is_Some (document (ctl w)) ->
  res (start c w) = Ok tt
  /\ complete (ctl (st (start c w))) = Some c
  /\ activted (ctl (st (start c w))) = true.
Proof.
  intros Hown [l Hd]. open_world w. subst.
  destruct f_activted, f_complete as [old|], f_floating, f_keep;
    try (vm_compute; repeat split; reflexivity).
  all: destruct (Hown eq_refl) as [? [=]].
Qed.

(** What [start] sends. *)
Lemma start_out_kinds (c : loc) (w : World) (e : Effect) :
  e ∈ out (start c w) ->
  e = FloatingClose \/ (exists cmd, e = Command cmd) \/ exists l, e = ForceSync l true.
Proof.
  open_world w.
  destruct f_activted, f_complete, f_floating, f_keep, f_document;
    match goal with
    | |- _ ∈ ?o -> _ => let l := eval vm_compute in o in
        replace o with l by (vm_compute; reflexivity)
    end; intros Hin;
    repeat (apply elem_of_cons in Hin; destruct Hin as [->|Hin]; [eauto 6|]);
    apply elem_of_nil in Hin; destruct Hin.
Qed.

Lemma getResumeInput_out (K : Collaborators) (w : World) (e : Effect) :
  e ∈ out (getResumeInput K w) -> e = Request_getcurpos.
Proof.
  unfold getResumeInput. run.
  destruct (activted (ctl w)); cbn; [|intros Hin; apply elem_of_nil in Hin; destruct Hin].
  set (w1 := interleave K P_resumeInput_curpos w).
  destruct (complete (ctl w)) as [cl|]; cbn.
  2:{ intros Hin. apply list_elem_of_singleton in Hin. exact Hin. }
  destruct (aggregators w1 !! cl) as [a|]; cbn.
  2:{ intros Hin. apply list_elem_of_singleton in Hin. exact Hin. }
  destruct (_ || _); cbn.
  { intros Hin. apply list_elem_of_singleton in Hin. exact Hin. }
  destruct (document (ctl w)) as [l|]; cbn.
  2:{ intros Hin. apply list_elem_of_singleton in Hin. exact Hin. }
  destruct (documents w1 !! l); cbn;
    intros Hin; apply list_elem_of_singleton in Hin; exact Hin.
Qed.

Lemma new_Complete_run (option : CompleteOption) (w : World) :
  new_Complete option w
  = mkRun (Ok (fresh (dom (aggregators w)))) (st (new_Complete option w)) [].
Proof. reflexivity. Qed.

(** The run of [_doComplete] from the call of [start] on. *)
Ltac fetch_tail K w Hown Hd :=
  rewrite new_Complete_run; cbn;
  match goal with
  | |- context [start ?c ?e] =>
      let Hok := fresh "Hok" in
      let Hcl := fresh "Hcl" in
      destruct (start_ok c e) as (Hok & Hcl & _);
        [exact Hown|change (is_Some (document (ctl w))); rewrite Hd; by eexists|];
      destruct (start c e) as [rs ws os];
      cbn [res st out] in *; subst rs; cbn; rewrite Hcl; cbn
  end;
  match goal with
  | |- context [complete_doComplete K ?c ?arr ?w1] =>
      destruct (complete_doComplete K c arr w1) as [items|e]; cbn; [|reflexivity];
      destruct (aggregators w1 !! c) as [a|]; cbn; [|reflexivity];
      destruct (c_isCanceled a || negb (activted (ctl w1))); cbn; [reflexivity|];
      destruct items as [|x xs];
      [ destruct (stop w1); cbn; rewrite <- ?app_assoc; reflexivity
      | destruct (getResumeInput K w1) as [[search|e] wg og]; cbn;
        [|rewrite <- ?app_assoc; reflexivity];
        destruct (aggregators (interleave K P_do_resumeInput wg) !! c) as [a3|]; cbn;
        [|rewrite ?app_nil_r, <- ?app_assoc; reflexivity];
        destruct (c_isCanceled a3); cbn;
        [rewrite ?app_nil_r, <- ?app_assoc; reflexivity|];
        match goal with
        | |- context [bool_decide ?P] => destruct (bool_decide P)
        end;
        [ destruct (showCompletion _ _ (interleave K P_do_resumeInput wg)); cbn;
          rewrite <- ?app_assoc; reflexivity
        | destruct (resumeCompletion K search (interleave K P_do_resumeInput wg)); cbn;
          rewrite <- ?app_assoc; reflexivity ] ]
  end.

(** The closed form of [_doComplete] when the controller has its document
    and providers were selected. *)
Lemma _doComplete_run (K : Collaborators) (option : CompleteOption) (w : World)
    (dl : loc) (d : Document) :
  document (ctl w) = Some dl -> documents w !! dl = Some d ->
  (activted (ctl w) = true -> is_Some (complete (ctl w))) ->
  chosen_sources K option d <> [] ->
  let arr := chosen_sources K option d in
  let cl := fresh (dom (aggregators w)) in
  let w1 := fetch_resumed K option w in
  let g := fetch_input K option w in
  let w3 := fetch_shown K option w in
  let pre := (out (fetch_started option w) ++ [DoComplete cl arr])%list in
  _doComplete K option w =
  match complete_doComplete K cl arr w1 with
  | Throw e => mkRun (Throw e) w1 pre
  | Ok items =>
      match aggregators w1 !! cl with
      | None => mkRun (Throw (TypeError "Complete")) w1 pre
      | Some a =>
          if c_isCanceled a || negb (activted (ctl w1)) then mkRun (Ok tt) w1 pre
          else
            match items with
            | [] => mkRun (res (stop w1)) (st (stop w1)) (pre ++ out (stop w1))%list
            | _ =>
                match res g with
                | Throw e => mkRun (Throw e) (st g) (pre ++ out g)%list
                | Ok search =>
                    match aggregators w3 !! cl with
                    | None => mkRun (Throw (TypeError "Complete")) w3 (pre ++ out g)%list
                    | Some a3 =>
                        if c_isCanceled a3 then mkRun (Ok tt) w3 (pre ++ out g)%list
                        else
                          let r := if bool_decide (search = Some (opt_input option))
                                   then showCompletion (col option) items w3
                                   else resumeCompletion K search w3 in
                          mkRun (res r) (st r) (pre ++ out g ++ out r)%list
                    end
                end
            end
      end
  end.
Proof.
  intros Hd Hdoc Hown Harr. cbv zeta.
  unfold fetch_shown, fetch_input, fetch_resumed, fetch_started.
  unfold _doComplete. run.
  unfold chosen_sources in Harr |- *.
  destruct (source option) as [name|]; cbn.
  - rewrite (bool_decide_eq_false_2 _ Harr). fetch_tail K w Hown Hd.
  - destruct (JS.truthy _) eqn:Htruthy; cbn in Harr |- *.
    + rewrite Hd. cbn. rewrite Hdoc. cbn.
      rewrite (bool_decide_eq_false_2 _ Harr). fetch_tail K w Hown Hd.
    + rewrite (bool_decide_eq_false_2 _ Harr). fetch_tail K w Hown Hd.
Qed.

Lemma showCompletion_run (startcol : Z) (items : list VimCompleteItem)
    (w : World) (dl : loc) (d : Document) :
  document (ctl w) = Some dl -> documents w !! dl = Some d ->
  showCompletion startcol items w
  = mkRun (Ok tt) (shown_state items (changedtick d) w)
      ((if numberSelect (config (ctl w)) then [Notify_map] else [])
       ++ [Notify_do_complete startcol (appendNumber (ctl w) items)])%list.
Proof.
  intros Hd Hdoc. unfold showCompletion, shown_state, appendNumber. run.
  rewrite Hd. cbn. rewrite Hdoc. cbn.
  destruct (numberSelect (config (ctl w))); reflexivity.
Qed.

(** No candidates are shown by [start], by the fetch request or by [stop]. *)
Lemma fetch_prefix_shows_nothing (opt : CompleteOption) (w : World)
    (cl : loc) (arr : list ISource) (c : Z) (items : list VimCompleteItem)
    (rest : list Effect) :
  Notify_do_complete c items ∉ rest ->
  Notify_do_complete c items
  ∉ (out (fetch_started opt w) ++ [DoComplete cl arr] ++ rest)%list.
Proof.
  intros Hrest Hin. apply elem_of_app in Hin. destruct Hin as [Hin|Hin].
  - apply start_out_kinds in Hin.
    destruct Hin as [Hin|[(? & Hin)|(? & Hin)]]; discriminate.
  - apply elem_of_cons in Hin. destruct Hin as [Hin|Hin]; [discriminate|].
    exact (Hrest Hin).
Qed.

(** X9.  When the fetch of [_doComplete] yields no candidate, and the
    aggregator was not canceled and the controller is still active when the
    handler resumes, the handler calls [stop]: the session ends, the popup
    is hidden and nothing is shown. *)
Theorem fetch_without_candidates_stops (K : Collaborators)
    (option : CompleteOption) (w : World) (dl : loc) (d : Document)
    (a : Complete) :
  document (ctl w) = Some dl -> documents w !! dl = Some d ->
  (activted (ctl w) = true -> is_Some (complete (ctl w))) ->
  chosen_sources K option d <> [] ->
  complete_doComplete K (fresh (dom (aggregators w))) (chosen_sources K option d)
    (fetch_resumed K option w) = Ok [] ->
  aggregators (fetch_resumed K option w) !! fresh (dom (aggregators w)) = Some a ->
  c_isCanceled a = false ->
  activted (ctl (fetch_resumed K option w)) = true ->
  is_Some (document (ctl (fetch_resumed K option w))) ->
  let r := _doComplete K option w in
  res r = Ok tt
  /\ st r = st (stop (fetch_resumed K option w))
  /\ activted (ctl (st r)) = false
  /\ completeItems (ctl (st r)) = []
  /\ out r = (out (fetch_started option w)
              ++ [DoComplete (fresh (dom (aggregators w))) (chosen_sources K option d)]
              ++ out (stop (fetch_resumed K option w)))%list
  /\ Notify_hide ∈ out r
  /\ (forall c items, Notify_do_complete c items ∉ out r).
Proof.
  intros Hd Hdoc Hown Harr Hfetch Hagg Hlive Ha Hdoc1. cbv zeta.
  rewrite (_doComplete_run K option w dl d Hd Hdoc Hown Harr).
  rewrite Hfetch, Hagg, Hlive, Ha. cbn [orb negb res st out].
  destruct (stop_completeItems _ Ha Hdoc1) as (Hok & Hitems & Hhide).
  refine (conj Hok (conj eq_refl (conj (stop_activted _) (conj Hitems (conj _ (conj _ _)))))).
  - rewrite <- app_assoc. reflexivity.
  - apply elem_of_app. right. exact Hhide.
  - intros c items. rewrite <- app_assoc.
    apply fetch_prefix_shows_nothing, stop_shows_nothing.
Qed.

Lemma fetch_without_candidates_stops_witness :
  let r := _doComplete (Examples.quiet (fun _ => [])) (Examples.context "fo" "fo")
             (upd_ctl (set_document (Some 0%nat))
                (Examples.idle Examples.defaults "fo")) in
  res r = Ok tt /\ activted (ctl (st r)) = false
  /\ out r = [Command "noa set completeopt=noselect,menuone"; ForceSync 0%nat true;
              DoComplete 0%nat ["around"]; FireContentChanges 0%nat; Notify_hide;
              Command "noa set completeopt=menu,preview"].
Proof.
  cbv zeta.
  edestruct (fetch_without_candidates_stops (Examples.quiet (fun _ => []))
               (Examples.context "fo" "fo")
               (upd_ctl (set_document (Some 0%nat))
                  (Examples.idle Examples.defaults "fo"))
               0%nat (Examples.buffer "fo" 7))
    as (Hres & _ & Hact & _ & Hout & _).
  - evaluate.
  - evaluate.
  - intros [=].
  - evaluate.
  - evaluate.
  - vm_compute. reflexivity.
  - evaluate.
  - evaluate.
  - vm_compute. by eexists.
  - refine (conj Hres (conj Hact _)). rewrite Hout. vm_compute. reflexivity.
Defined.

(** X10.  When the aggregator was canceled, or the controller stopped,
    while the fetch was pending, [_doComplete] drops the result: whatever
    the providers answered, it returns in the state it resumed in, and
    nothing is shown. *)
Theorem canceled_fetch_is_dropped (K : Collaborators)
    (option : CompleteOption) (w : World) (dl : loc) (d : Document)
    (a : Complete) (items : list VimCompleteItem) :
  document (ctl w) = Some dl -> documents w !! dl = Some d ->
  (activted (ctl w) = true -> is_Some (complete (ctl w))) ->
  chosen_sources K option d <> [] ->
  complete_doComplete K (fresh (dom (aggregators w))) (chosen_sources K option d)
    (fetch_resumed K option w) = Ok items ->
  aggregators (fetch_resumed K option w) !! fresh (dom (aggregators w)) = Some a ->
  c_isCanceled a = true \/ activted (ctl (fetch_resumed K option w)) = false ->
  let r := _doComplete K option w in
  r = mkRun (Ok tt) (fetch_resumed K option w)
        (out (fetch_started option w)
         ++ [DoComplete (fresh (dom (aggregators w))) (chosen_sources K option d)])%list
  /\ (forall c its, Notify_do_complete c its ∉ out r).
Proof.
  intros Hd Hdoc Hown Harr Hfetch Hagg Hgone. cbv zeta.
  rewrite (_doComplete_run K option w dl d Hd Hdoc Hown Harr).
  rewrite Hfetch, Hagg.
  replace (c_isCanceled a || negb (activted (ctl (fetch_resumed K option w))))
    with true
    by (destruct Hgone as [-> | ->]; [reflexivity|rewrite orb_true_r; reflexivity]).
  split; [reflexivity|]. cbn [out]. intros c its Hin.
  apply (fetch_prefix_shows_nothing option w (fresh (dom (aggregators w)))
           (chosen_sources K option d) c its []); [apply not_elem_of_nil|exact Hin].
Qed.

(** X10 when the user leaves insert mode during the fetch. *)
Lemma canceled_fetch_is_dropped_witness :
  let K := Scenarios.during_fetch Examples.leave_insert
             (Examples.quiet (fun _ => [Examples.candidate "foo"])) in
  let r := _doComplete K (Examples.context "fo" "fo")
             (upd_ctl (set_document (Some 0%nat))
                (Examples.idle Examples.defaults "fo")) in
  res r = Ok tt /\ activted (ctl (st r)) = false
  /\ completeItems (ctl (st r)) = []
  /\ out r = [Command "noa set completeopt=noselect,menuone"; ForceSync 0%nat true;
              DoComplete 0%nat ["around"]].
Proof.
  cbv zeta.
  edestruct (canceled_fetch_is_dropped
               (Scenarios.during_fetch Examples.leave_insert
                  (Examples.quiet (fun _ => [Examples.candidate "foo"])))
               (Examples.context "fo" "fo")
               (upd_ctl (set_document (Some 0%nat))
                  (Examples.idle Examples.defaults "fo"))
               0%nat (Examples.buffer "fo" 7))
    as (Hrun & _).
  - evaluate.
  - evaluate.
  - intros [=].
  - evaluate.
  - vm_compute. reflexivity.
  - vm_compute. reflexivity.
  - left. reflexivity.
  - rewrite Hrun. cbn [res st out]. evaluate.
Defined.

(** X11.  When the fetch yields candidates, nothing was canceled or stopped
    meanwhile, and the text typed since the trigger is still the trigger
    input, [_doComplete] shows all the candidates (numbered when numeric
    quick-select is on) at the start column of the trigger context, records
    them as the candidate list and records the change-version of the
    document. *)
Theorem fetch_shows_candidates (K : Collaborators)
    (option : CompleteOption) (w : World) (dl : loc) (d : Document)
    (a a3 : Complete) (x : VimCompleteItem) (xs : list VimCompleteItem)
    (dl3 : loc) (d3 : Document) :
  document (ctl w) = Some dl -> documents w !! dl = Some d ->
  (activted (ctl w) = true -> is_Some (complete (ctl w))) ->
  chosen_sources K option d <> [] ->
  complete_doComplete K (fresh (dom (aggregators w))) (chosen_sources K option d)
    (fetch_resumed K option w) = Ok (x :: xs) ->
  aggregators (fetch_resumed K option w) !! fresh (dom (aggregators w)) = Some a ->
  c_isCanceled a = false ->
  activted (ctl (fetch_resumed K option w)) = true ->
  res (fetch_input K option w) = Ok (Some (opt_input option)) ->
  aggregators (fetch_shown K option w) !! fresh (dom (aggregators w)) = Some a3 ->
  c_isCanceled a3 = false ->
  document (ctl (fetch_shown K option w)) = Some dl3 ->
  documents (fetch_shown K option w) !! dl3 = Some d3 ->
  let w3 := fetch_shown K option w in
  let r := _doComplete K option w in
  res r = Ok tt
  /\ st r = shown_state (x :: xs) (changedtick d3) w3
  /\ completeItems (ctl (st r)) = appendNumber (ctl w3) (x :: xs)
  /\ changedTick (ctl (st r)) = changedtick d3
  /\ out r = (out (fetch_started option w)
              ++ [DoComplete (fresh (dom (aggregators w))) (chosen_sources K option d)]
              ++ out (fetch_input K option w)
              ++ (if numberSelect (config (ctl w3)) then [Notify_map] else [])
              ++ [Notify_do_complete (col option) (appendNumber (ctl w3) (x :: xs))])%list.
Proof.
  intros Hd Hdoc Hown Harr Hfetch Hagg Hlive Ha Hinput Hagg3 Hlive3 Hd3 Hdoc3.
  cbv zeta.
  rewrite (_doComplete_run K option w dl d Hd Hdoc Hown Harr).
  rewrite Hfetch, Hagg, Hlive, Ha. cbn [orb negb].
  rewrite Hinput, Hagg3, Hlive3. rewrite (bool_decide_eq_true_2 _ eq_refl).
  rewrite (showCompletion_run _ _ _ dl3 d3 Hd3 Hdoc3). cbn [res st out].
  refine (conj eq_refl (conj eq_refl (conj eq_refl (conj eq_refl _)))).
  rewrite <- !app_assoc. reflexivity.
Qed.

Lemma fetch_shows_candidates_witness :
  let found := fun _ : string => [Examples.candidate "foo"; Examples.candidate "food"] in
  let r := _doComplete (Examples.quiet found) (Examples.context "fo" "fo")
             (upd_ctl (set_document (Some 0%nat))
                (Examples.idle Examples.defaults "fo")) in
  res r = Ok tt
  /\ completeItems (ctl (st r)) = [Examples.candidate "foo"; Examples.candidate "food"]
  /\ changedTick (ctl (st r)) = 7
  /\ out r = [Command "noa set completeopt=noselect,menuone"; ForceSync 0%nat true;
              DoComplete 0%nat ["around"]; Request_getcurpos;
              Notify_do_complete 0 [Examples.candidate "foo"; Examples.candidate "food"]].
Proof.
  cbv zeta.
  edestruct (fetch_shows_candidates
               (Examples.quiet (fun _ => [Examples.candidate "foo"; Examples.candidate "food"]))
               (Examples.context "fo" "fo")
               (upd_ctl (set_document (Some 0%nat))
                  (Examples.idle Examples.defaults "fo"))
               0%nat (Examples.buffer "fo" 7))
    as (Hres & _ & Hitems & Htick & Hout).
  - evaluate.
  - evaluate.
  - intros [=].
  - evaluate.
  - vm_compute. reflexivity.
  - vm_compute. reflexivity.
  - reflexivity.
  - evaluate.
  - evaluate.
  - vm_compute. reflexivity.
  - reflexivity.
  - vm_compute. reflexivity.
  - vm_compute. reflexivity.
  - refine (conj Hres (conj _ (conj _ _))).
    + rewrite Hitems. vm_compute. reflexivity.
    + rewrite Htick. vm_compute. reflexivity.
    + rewrite Hout. vm_compute. reflexivity.
Defined.

(** ** [onTextChangedI] *)

(** X12.  A text change that does not come from a genuine keystroke starts
    nothing: when the workspace has no document for the current buffer,
    [onTextChangedI] only forgets the pending mark; and when no session is
    active as the handler resumes, and no mark was recorded or the recorded
    one is stale, it returns after flushing the document, without asking
    the host or the providers for anything. *)
Theorem synthetic_edit_starts_nothing (K : Collaborators) (n : Z) (w : World) :
  (ws_documents (workspace w) !! ws_bufnr (workspace w) = None ->
   onTextChangedI K n w = mkRun (Ok tt) (upd_ctl (set_lastInsert None) w) [])
  /\ (forall dl,
      ws_documents (workspace w) !! ws_bufnr (workspace w) = Some dl ->
      latestInsert w = None ->
      activted (ctl (textChangedI_patched K w)) = false ->
      onTextChangedI K n w
      = mkRun (Ok tt) (textChangedI_patched K w) [PatchChange dl]).
Proof.
  split.
  - intros Hnone. unfold onTextChangedI. run. rewrite Hnone. reflexivity.
  - intros dl Hdl Hmark. unfold textChangedI_patched, onTextChangedI, latestInsertChar.
    run. rewrite Hdl, Hmark. cbn. intros ->. reflexivity.
Qed.

(** X13.  An event for a buffer that is not the one of the active session
    leaves the session as it is: the handler returns after flushing the
    document. *)
Theorem other_buffer_is_ignored (K : Collaborators) (n : Z) (w : World) (dl : loc) :
  ws_documents (workspace w) !! ws_bufnr (workspace w) = Some dl ->
  activted (ctl (textChangedI_patched K w)) = true ->
  get_bufnr (textChangedI_patched K w) <> Some n ->
  onTextChangedI K n w = mkRun (Ok tt) (textChangedI_patched K w) [PatchChange dl].
Proof.
  intros Hdl. unfold textChangedI_patched, onTextChangedI. run. rewrite Hdl. cbn.
  intros -> Hother. cbn.
  rewrite bool_decide_eq_false_2 by congruence. reflexivity.
Qed.

Lemma other_buffer_is_ignored_witness :
  let K := Examples.quiet (fun _ => [Examples.candidate "foo"]) in
  let w := Examples.typed "o"
             (Examples.session Examples.defaults "fo" "fo" [Examples.candidate "foo"]
                (Some [[Examples.candidate "foo"]]) false) in
  onTextChangedI K 2 w = mkRun (Ok tt) (textChangedI_patched K w) [PatchChange 0%nat]
  /\ activted (ctl (textChangedI_patched K w)) = true.
Proof.
  cbv zeta. split; [|evaluate].
  apply other_buffer_is_ignored; evaluate.
Defined.

(** X14.  In an active session, on its buffer and with acceptance on commit
    characters off, when the cursor is found on another line than the one
    of the session, [onTextChangedI] calls [stop]: the session ends. *)
Theorem cursor_on_another_line_stops (K : Collaborators) (n : Z) (w : World)
    (dl : loc) (o : CompleteOption) :
  ws_documents (workspace w) !! ws_bufnr (workspace w) = Some dl ->
  activted (ctl (textChangedI_patched K w)) = true ->
  get_bufnr (textChangedI_patched K w) = Some n ->
  acceptSuggestionOnCommitCharacter (config (ctl (textChangedI_patched K w))) = false ->
  get_option (interleave K P_prev_curpos (textChangedI_patched K w)) = Some o ->
  h_lnum (host (interleave K P_prev_curpos (textChangedI_patched K w))) <> linenr o ->
  let moved := interleave K P_tci_content
                 (interleave K P_prev_curpos (textChangedI_patched K w)) in
  let r := onTextChangedI K n w in
  res r = res (stop moved)
  /\ st r = st (stop moved)
  /\ out r = (PatchChange dl :: Request_getcurpos :: out (stop moved))%list
  /\ activted (ctl (st r)) = false
  /\ (forall c items, Notify_do_complete c items ∉ out r).
Proof.
  intros Hdl Ha Hbuf Hcfg Ho Hline. cbv zeta.
  assert (Hrun : onTextChangedI K n w =
    let moved := interleave K P_tci_content
                   (interleave K P_prev_curpos (textChangedI_patched K w)) in
    mkRun (res (stop moved)) (st (stop moved))
      (PatchChange dl :: Request_getcurpos :: out (stop moved))%list).
  { revert Ha Hbuf Hcfg Ho Hline.
    unfold textChangedI_patched, onTextChangedI. run. rewrite Hdl. cbn.
    set (w1 := interleave K P_tci_patch _).
    intros Ha Hbuf Hcfg Ho Hline. rewrite Ha. cbn. rewrite Hbuf. cbn.
    rewrite (bool_decide_eq_true_2 _ eq_refl). cbn. rewrite Hcfg. cbn.
    unfold textChangedI_resume, getPreviousContent. run. rewrite Ho.
    apply Z.eqb_neq in Hline. rewrite Hline. cbn.
    destruct (stop _); reflexivity. }
  rewrite Hrun. cbn [res st out].
  refine (conj eq_refl (conj eq_refl (conj eq_refl (conj (stop_activted _) _)))).
  intros c items Hin.
  apply elem_of_cons in Hin. destruct Hin as [Hin|Hin]; [discriminate|].
  apply elem_of_cons in Hin. destruct Hin as [Hin|Hin]; [discriminate|].
  exact (stop_shows_nothing _ _ _ Hin).
Qed.

Lemma cursor_on_another_line_stops_witness :
  let K := Examples.quiet (fun _ => [Examples.candidate "foo"]) in
  let w := Scenarios.cursor_at 2 1
             (Examples.session Examples.defaults "fo" "fo" [Examples.candidate "foo"]
                (Some [[Examples.candidate "foo"]]) false) in
  let r := onTextChangedI K 1 w in
  res r = Ok tt /\ activted (ctl (st r)) = false
  /\ out r = [PatchChange 0%nat; Request_getcurpos; FireContentChanges 0%nat;
              Notify_hide; Command "noa set completeopt=menu,preview"].
Proof.
  cbv zeta.
  edestruct (cursor_on_another_line_stops
               (Examples.quiet (fun _ => [Examples.candidate "foo"]))
               1
               (Scenarios.cursor_at 2 1
                  (Examples.session Examples.defaults "fo" "fo"
                     [Examples.candidate "foo"]
                     (Some [[Examples.candidate "foo"]]) false))
               0%nat (Examples.context "fo" "fo"))
    as (Hres & _ & Hout & Hact & _).
  7:{ refine (conj _ (conj Hact _)).
      - rewrite Hres. vm_compute. reflexivity.
      - rewrite Hout. vm_compute. reflexivity. }
  all: evaluate.
Defined.

(** ** What [stop] leaves alone, and [onInsertLeave] *)

(** X15.  Whatever the state, [stop] does not touch the configuration, the
    controller's document reference, the recorded input, the pending insert
    mark, the recency table, the recorded change-version, the selection
    index, the two timestamps, the resolving flag, the preview buffer, the
    workspace, the host or the clock; and it changes no document but the
    controller's own, of which it changes the paused flag only. *)
Theorem stop_frame (w : World) :
  let w' := st (stop w) in
  config (ctl w') = config (ctl w)
  /\ document (ctl w') = document (ctl w)
  /\ input (ctl w') = input (ctl w)
  /\ lastInsert (ctl w') = lastInsert (ctl w)
  /\ recentScores (ctl w') = recentScores (ctl w)
  /\ changedTick (ctl w') = changedTick (ctl w)
  /\ currIndex (ctl w') = currIndex (ctl w)
  /\ insertCharTs (ctl w') = insertCharTs (ctl w)
  /\ insertLeaveTs (ctl w') = insertLeaveTs (ctl w)
  /\ isResolving (ctl w') = isResolving (ctl w)
  /\ previewBuffer (ctl w') = previewBuffer (ctl w)
  /\ workspace w' = workspace w /\ host w' = host w /\ now w' = now w
  /\ (forall l, document (ctl w) <> Some l -> documents w' !! l = documents w !! l)
  /\ (forall l d, documents w !! l = Some d ->
      exists d', documents w' !! l = Some d'
                 /\ changedtick d' = changedtick d /\ doc_lines d' = doc_lines d
                 /\ doc_bufnr d' = doc_bufnr d /\ doc_filetype d' = doc_filetype d).
Proof.
  cbv zeta. open_world w. unfold_stop. run.
  destruct f_activted, f_token, f_floating, f_document as [dl|], f_complete,
    f_number, f_keep; cbn.
  all: repeat apply conj; try reflexivity.
  all: try (intros x Hx; first [ reflexivity
                               | rewrite lookup_alter_ne by congruence; reflexivity ]).
  all: intros x dx Hd; try (exists dx; repeat split; exact Hd).
  all: destruct (decide (dl = x)) as [->|Hne];
    [ rewrite lookup_alter_eq, Hd; eexists; split; [reflexivity|repeat split]
    | rewrite lookup_alter_ne by exact Hne; exists dx; repeat split; exact Hd ].
Qed.

Lemma stop_insertLeaveTs (w : World) :
  insertLeaveTs (ctl (st (stop w))) = insertLeaveTs (ctl w).
Proof.
  open_world w. unfold_stop. run.
  destruct f_activted, f_token, f_floating, f_document, f_complete,
    f_number, f_keep; reflexivity.
Qed.

(** X16.  Whatever the state, after [onInsertLeave] the controller is
    inactive and the time of the event is recorded as the last insert-leave
    (which is what makes a pending acceptance stale); the document of the
    buffer, when the workspace has one, is asked to sync before the session
    is stopped. *)
Theorem insert_leave_ends_session (n : Z) (w : World) :
  let r := onInsertLeave n w in
  activted (ctl (st r)) = false
  /\ insertLeaveTs (ctl (st r)) = now w
  /\ (forall l, ws_documents (workspace w) !! n = Some l ->
      exists rest, out r = ForceSync l true :: rest)
  /\ (forall c items, Notify_do_complete c items ∉ out r).
Proof.
  cbv zeta. unfold onInsertLeave. run.
  set (w1 := set_ctl _ w).
  destruct (ws_documents (workspace w) !! n) as [l|]; cbn.
  - pose proof (stop_activted w1) as Hact.
    pose proof (stop_insertLeaveTs w1) as Hts.
    pose proof (stop_shows_nothing w1) as Hshow.
    destruct (stop w1) as [rs ws os]. cbn in *.
    refine (conj Hact (conj Hts (conj _ _))).
    + intros l' [= <-]. by eexists.
    + intros c items Hin. apply elem_of_cons in Hin.
      destruct Hin as [Hin|Hin]; [discriminate|]. exact (Hshow _ _ Hin).
  - pose proof (stop_activted w1) as Hact.
    pose proof (stop_insertLeaveTs w1) as Hts.
    pose proof (stop_shows_nothing w1) as Hshow.
    destruct (stop w1) as [rs ws os]. cbn in *.
    refine (conj Hact (conj Hts (conj _ Hshow))). intros l' [=].
Qed.

(** ** [onPumRedraw] *)

(** X17.  [onPumRedraw] changes no selection when it has no business to:
    in a host without floating windows it does nothing at all; with
    floating windows and a pending insert mark it only cancels and forgets
    the resolve in flight; and when the redrawn candidate is not in the
    candidate list (and no mark is pending) it resets the selection index
    to 0 and closes the preview, without calling the providers. *)
Theorem redraw_without_selection (K : Collaborators) (item : VimCompleteItem)
    (w : World) :
  (env_floating (workspace w) = false ->
   onPumRedraw K item w = mkRun (Ok tt) w [])
  /\ (env_floating (workspace w) = true -> is_Some (lastInsert (ctl w)) ->
      onPumRedraw K item w = mkRun (Ok tt) (redraw_released w) [])
  /\ (env_floating (workspace w) = true -> lastInsert (ctl w) = None ->
      find_item item (completeItems (ctl w)) = None ->
      let r := onPumRedraw K item w in
      res r = Ok tt
      /\ st r = upd_ctl (fun c => set_floating false (set_currIndex 0%nat c))
                  (redraw_released w)
      /\ out r = (if floating (ctl w) then [FloatingClose] else [])
      /\ index_in_range (st r)).
Proof.
  unfold onPumRedraw, redraw_released, index_in_range. split; [|split].
  - intros Hfl. run. rewrite Hfl. reflexivity.
  - intros Hfl Hmark. run. rewrite Hfl. cbn.
    destruct (resolveTokenSource (ctl w)); unfold cancel_token; run;
      rewrite (bool_decide_eq_true_2 _ Hmark); reflexivity.
  - intros Hfl Hmark Hfind. cbv zeta. run. rewrite Hfl. cbn.
    destruct (resolveTokenSource (ctl w)); unfold cancel_token, closePreviewWindow;
      run; rewrite Hmark; cbn; rewrite Hfind; cbn;
      destruct (floating (ctl w)) eqn:Hf; cbn; repeat split; try lia.
    all: open_world w; subst; reflexivity.
Qed.

Lemma redraw_without_selection_witness :
  onPumRedraw (Examples.quiet (fun _ => [])) (Examples.candidate "foo")
    (Scenarios.without_floating Examples.resolving)
  = mkRun (Ok tt) (Scenarios.without_floating Examples.resolving) []
  /\ onPumRedraw (Examples.quiet (fun _ => [])) (Examples.candidate "foo")
       (Examples.typed "o" Examples.resolving)
     = mkRun (Ok tt) (redraw_released (Examples.typed "o" Examples.resolving)) []
  /\ out (onPumRedraw (Examples.quiet (fun _ => [])) (Examples.candidate "bar")
            Examples.resolving) = [FloatingClose].
Proof.
  pose proof (redraw_without_selection (Examples.quiet (fun _ => []))
                (Examples.candidate "foo")
                (Scenarios.without_floating Examples.resolving)) as (H1 & _ & _).
  pose proof (redraw_without_selection (Examples.quiet (fun _ => []))
                (Examples.candidate "foo")
                (Examples.typed "o" Examples.resolving)) as (_ & H2 & _).
  pose proof (redraw_without_selection (Examples.quiet (fun _ => []))
                (Examples.candidate "bar") Examples.resolving) as (_ & _ & H3).
  refine (conj (H1 _) (conj (H2 _ _) _)).
  - vm_compute. reflexivity.
  - vm_compute. reflexivity.
  - vm_compute. eexists. reflexivity.
  - destruct H3 as (_ & _ & Hout & _); [vm_compute; reflexivity ..|].
    exact Hout.
Defined.

Ltac redraw_found Hfl Hmark Hfind :=
  unfold onPumRedraw, redraw_resumed, redraw_requested, redraw_token,
    redraw_released, cancel_token, new_CancellationTokenSource,
    isCancellationRequested, closePreviewWindow;
  run; rewrite Hfl; cbn;
  destruct (resolveTokenSource (ctl _)); run;
  rewrite Hmark; cbn; rewrite Hfind; cbn.

(** X18.  A resolve that was canceled while it was pending shows nothing:
    when the redrawn candidate is the [i]-th of the list, [onPumRedraw]
    sets the selection index to [i + 1] (which is within the list), makes
    a fresh token the current one and asks the providers to resolve the
    candidate; if the token is canceled when the resolve settles, the
    handler returns at once, and the state is the one it resumed in. *)
Theorem redraw_canceled_resolve_shows_nothing (K : Collaborators)
    (item it it' : VimCompleteItem) (i : nat) (w : World) :
  env_floating (workspace w) = true ->
  lastInsert (ctl w) = None ->
  find_item item (completeItems (ctl w)) = Some (i, it) ->
  sources_doCompleteResolve K it (redraw_resumed K i w) = Ok it' ->
  token_canceled (redraw_token w) (redraw_resumed K i w) ->
  onPumRedraw K item w
  = mkRun (Ok tt) (redraw_resumed K i w) [DoCompleteResolve it (redraw_token w)]
  /\ index_in_range (redraw_requested i w)
  /\ resolveTokenSource (ctl (redraw_requested i w)) = Some (redraw_token w)
  /\ tokens (redraw_requested i w) !! redraw_token w = Some false.
Proof.
  intros Hfl Hmark Hfind Hres Hcan. split.
  - revert Hres Hcan. unfold token_canceled.
    redraw_found Hfl Hmark Hfind.
    all: intros Hres Hcan; rewrite Hres; cbn; rewrite Hcan; reflexivity.
  - pose proof (find_item_in_range _ _ _ _ Hfind) as Hrange.
    unfold index_in_range, redraw_requested, redraw_token, redraw_released.
    destruct (resolveTokenSource (ctl w)); cbn;
      (split; [open_world w; cbn in *; lia|]); split; try reflexivity;
      apply lookup_insert_eq.
Qed.

Lemma redraw_canceled_resolve_shows_nothing_witness :
  onPumRedraw
    (Scenarios.redrawn_during_resolve (Examples.candidate "bar")
       (Examples.quiet (fun _ => [])))
    (Examples.candidate "foo") Examples.resolving
  = mkRun (Ok tt)
      (redraw_resumed
         (Scenarios.redrawn_during_resolve (Examples.candidate "bar")
            (Examples.quiet (fun _ => []))) 0 Examples.resolving)
      [DoCompleteResolve (Examples.candidate "foo") (redraw_token Examples.resolving)].
Proof.
  edestruct (redraw_canceled_resolve_shows_nothing
               (Scenarios.redrawn_during_resolve (Examples.candidate "bar")
                  (Examples.quiet (fun _ => [])))
               (Examples.candidate "foo") (Examples.candidate "foo")
               (Examples.candidate "foo") 0 Examples.resolving) as (H & _);
    [vm_compute; reflexivity ..| exact H].
Defined.

(** ** Properties kept by [onPumRedraw]

    A property of the state that is kept by the writes [onPumRedraw] makes
    (fields of the controller, the cancellation of a token, a fresh token)
    and by what happens while it is suspended is kept by the handler. *)

Section Frame.

Variable K : Collaborators.
Variable P : World -> Prop.

Hypothesis P_ctl : forall f w, P w -> P (upd_ctl f w).
Hypothesis P_cancel_token : forall t w,
  P w -> P (set_tokens (<[t := true]> (tokens w)) w).
Hypothesis P_new_token : forall w,
  P w -> P (set_tokens (<[fresh (dom (tokens w)) := false]> (tokens w)) w).
Hypothesis P_await : forall p w, P w -> P (interleave K p w).

Lemma keeps_ret {A} (a : A) : keeps P (ret a).
Proof. intros w H. exact H. Qed.

Lemma keeps_throw {A} (e : Error) : keeps P (@throw A e).
Proof. intros w H. exact H. Qed.

Lemma keeps_emit (e : Effect) : keeps P (emit e).
Proof. intros w H. exact H. Qed.

Lemma keeps_gets {A} (f : World -> A) : keeps P (gets f).
Proof. intros w H. exact H. Qed.

Lemma keeps_this {A} (f : Completion -> A) : keeps P (this f).
Proof. intros w H. exact H. Qed.

Lemma keeps_bind {A B} (m : M A) (k : A -> M B) :
  keeps P m -> (forall a, keeps P (k a)) -> keeps P (bind m k).
Proof.
  intros Hm Hk w H. unfold bind. specialize (Hm w H).
  destruct (m w) as [[a|e] w1 o1]; cbn in *; [|exact Hm].
  specialize (Hk a w1 Hm). destruct (k a w1). exact Hk.
Qed.

Lemma keeps_settle_at {A} (f : World -> outcome A) :
  keeps P (fun w => settle (f w) w).
Proof. intros w H. destruct (f w); exact H. Qed.

Lemma keeps_assign (f : Completion -> Completion) : keeps P (assign f).
Proof. intros w H. apply P_ctl. exact H. Qed.

Lemma keeps_await (p : Point) : keeps P (await K p).
Proof. intros w H. apply P_await. exact H. Qed.

Lemma keeps_cancel_token (t : loc) : keeps P (cancel_token t).
Proof. intros w H. apply P_cancel_token. exact H. Qed.

Lemma keeps_new_CancellationTokenSource : keeps P new_CancellationTokenSource.
Proof. intros w H. apply P_new_token. exact H. Qed.

Create HintDb keeps.
#[local] Hint Resolve keeps_ret keeps_throw keeps_emit keeps_gets keeps_this
  keeps_settle_at keeps_assign keeps_await keeps_cancel_token
  keeps_new_CancellationTokenSource : keeps.

Ltac keeps_step :=
  first
    [ solve [auto with keeps]
    | apply keeps_bind; [|intros ?]
    | match goal with
      | |- keeps _ (if ?c then _ else _) => destruct c
      | |- keeps _ (match ?x with _ => _ end) => destruct x
      end ].

Ltac keeps_all := cbv zeta; repeat keeps_step.

Lemma closePreviewWindow_keeps : keeps P closePreviewWindow.
Proof. unfold closePreviewWindow. keeps_all. Qed.

Lemma createPreviewBuffer_keeps : keeps P (createPreviewBuffer K).
Proof. unfold createPreviewBuffer. keeps_all. Qed.

#[local] Hint Resolve closePreviewWindow_keeps createPreviewBuffer_keeps : keeps.

Lemma onPumRedraw_keeps (item : VimCompleteItem) : keeps P (onPumRedraw K item).
Proof. unfold onPumRedraw, isCancellationRequested, isActivted. keeps_all. Qed.

End Frame.

(** ** Canceled tokens stay canceled *)

Lemma token_canceled_cancel (t t' : loc) (w : World) :
  token_canceled t w ->
  token_canceled t (set_tokens (<[t' := true]> (tokens w)) w).
Proof.
  unfold token_canceled. cbn. intros H.
  destruct (decide (t' = t)) as [->|Hne].
  - apply lookup_insert_eq.
  - rewrite lookup_insert_ne by exact Hne. exact H.
Qed.

Lemma token_canceled_fresh (t : loc) (w : World) :
  token_canceled t w ->
  token_canceled t (set_tokens (<[fresh (dom (tokens w)) := false]> (tokens w)) w).
Proof.
  unfold token_canceled. cbn. intros H.
  rewrite lookup_insert_ne; [exact H|].
  intros Heq. apply (is_fresh (dom (tokens w))). rewrite Heq.
  apply elem_of_dom. rewrite H. by eexists.
Qed.

Lemma onPumRedraw_keeps_canceled (K : Collaborators) (item : VimCompleteItem)
    (t : loc) :
  (forall p, keeps (token_canceled t) (await K p)) ->
  keeps (token_canceled t) (onPumRedraw K item).
Proof.
  intros Hawait. apply onPumRedraw_keeps; try (intros; assumption).
  - intros t' w. apply token_canceled_cancel.
  - intros w. apply token_canceled_fresh.
  - intros p w. apply (Hawait p w).
Qed.

(** X19.  A redraw of the popup cancels the resolve that is in flight, for
    good: in a host with floating windows, whatever the redrawn candidate
    and whatever the state, the token of the pending resolve is canceled
    when [onPumRedraw] ends (however it ends), as long as what happens
    while the handler is suspended does not revive a canceled token. *)
Theorem redraw_cancels_pending_resolve (K : Collaborators)
    (item : VimCompleteItem) (t : loc) (w : World) :
  env_floating (workspace w) = true ->
  resolveTokenSource (ctl w) = Some t ->
  (forall p, keeps (token_canceled t) (await K p)) ->
  token_canceled t (st (onPumRedraw K item w)).
Proof.
  intros Hfl Hts Hawait.
  assert (st (onPumRedraw K item w)
          = st (onPumRedraw K item (set_tokens (<[t := true]> (tokens w)) w)))
    as ->.
  { unfold onPumRedraw, cancel_token. run. rewrite !Hfl. cbn.
    rewrite !Hts. cbn. rewrite insert_insert_eq. reflexivity. }
  apply onPumRedraw_keeps_canceled; [exact Hawait|].
  unfold token_canceled. cbn. apply lookup_insert_eq.
Qed.

Lemma redraw_cancels_pending_resolve_witness :
  token_canceled 0%nat
    (st (onPumRedraw (Examples.quiet (fun _ => [])) (Examples.candidate "foo")
           Examples.resolving)).
Proof.
  apply redraw_cancels_pending_resolve.
  - vm_compute. reflexivity.
  - vm_compute. reflexivity.
  - intros p w H. exact H.
Defined.

(** ** A keystroke and the redraw that follows it *)

(** X22.  The keystroke [onInsertCharPre] records is the latest insert
    until 100ms have passed, and the popup redraw that the host sends for
    it changes no selection: in a host with floating windows,
    [onPumRedraw] run right after [onInsertCharPre] calls nothing and
    only cancels and forgets the resolve in flight. *)
Theorem redraw_after_keystroke_is_ignored (K : Collaborators) (ch : string)
    (item : VimCompleteItem) (w : World) :
  let w' := st (onInsertCharPre K ch w) in
  env_floating (workspace w') = true ->
  latestInsertChar w' = ch
  /\ insertCharTs (ctl w') = now w'
  /\ onPumRedraw K item w' = mkRun (Ok tt) (redraw_released w') []
  /\ currIndex (ctl (redraw_released w')) = currIndex (ctl w').
Proof.
  cbv zeta. unfold onInsertCharPre, onPumRedraw, redraw_released, cancel_token,
    latestInsertChar, latestInsert.
  run.
  destruct (activted (ctl w) && negb (env_pumevent (workspace w))
            && negb (env_isVim (workspace w))
            && negb (bool_decide (completeItems (ctl w) = []))
            && isWord K ch && negb (is_test w)); cbn.
  - set (w1 := interleave K P_charpre_reload w). intros Hfl. rewrite Hfl. cbn.
    rewrite Z.sub_diag. cbn.
    destruct (resolveTokenSource (ctl w1)); cbn; repeat split.
  - intros Hfl. rewrite Hfl. cbn. rewrite Z.sub_diag. cbn.
    destruct (resolveTokenSource (ctl w)); cbn; repeat split.
Qed.

Lemma redraw_after_keystroke_is_ignored_witness :
  out (onPumRedraw (Examples.quiet (fun _ => [])) (Examples.candidate "foo")
         (st (onInsertCharPre (Examples.quiet (fun _ => [])) "o"
                Examples.resolving))) = [].
Proof.
  edestruct (redraw_after_keystroke_is_ignored (Examples.quiet (fun _ => []))
               "o" (Examples.candidate "foo") Examples.resolving)
    as (_ & _ & H & _); [vm_compute; reflexivity|].
  exact (f_equal out H).
Defined.

(** ** [getCompleteConfig] *)

Lemma prefix_append (t s : string) :
  String.prefix t s = true <-> exists b, s = t ++ b.
Proof.
  revert s. induction t as [|c t IH]; intros [|c' s]; cbn.
  - split; [intros _; by exists ""|reflexivity].
  - split; [intros _; by eexists|reflexivity].
  - split; [discriminate|intros (b & [=])].
  - destruct (Ascii.ascii_dec c c') as [->|Hne].
    + rewrite IH. split; intros (b & Hb); exists b; [by rewrite Hb|].
      by injection Hb.
    + split; [discriminate|]. intros (b & Hb). injection Hb as Hc _.
      by destruct Hne.
Qed.

(** [includes s t] holds exactly when [t] occurs in [s]. *)
Lemma includes_occurs (s t : string) :
  includes s t = true <-> exists a b, s = a ++ t ++ b.
Proof.
  induction s as [|c s IH].
  - change (includes "" t) with (String.prefix t "" || false).
    rewrite orb_false_r, prefix_append. split.
    + intros (b & Hb). by exists "", b.
    + intros (a & b & Hab). destruct a; [by exists b|discriminate].
  - change (includes (String c s) t)
      with (String.prefix t (String c s) || includes s t).
    rewrite orb_true_iff, prefix_append, IH. split.
    + intros [(b & Hb)|(a & b & Hab)].
      * by exists "", b.
      * exists (String c a), b. cbn. by rewrite Hab.
    + intros (a & b & Hab). destruct a as [|c' a]; cbn in Hab.
      * left. by exists b.
      * right. injection Hab as _ Hs. by exists a, b.
Qed.

(** X23.  With [keepCompleteopt] set and a [completeopt] of the user that
    has neither [noinsert] nor [noselect], the configuration
    [getCompleteConfig] builds has the trigger mode [none], whatever
    [autoTrigger] is set to, and with it [shouldTrigger] refuses every
    input, also one a provider registered a trigger character for; and in
    a host without the [pumevent] capability the configuration has the
    acceptance on a commit character off, whatever is set. *)
Theorem keepCompleteopt_disables_triggering (G : Configuration)
    (K : Collaborators) (userCompleteOpt : string) (pumevent : bool)
    (c : Completion) (d : Document) (pre : option string) :
  getConfig_boolean G "keepCompleteopt" false = true ->
  includes userCompleteOpt "noinsert" = false ->
  includes userCompleteOpt "noselect" = false ->
  config c = getCompleteConfig G userCompleteOpt pumevent ->
  autoTrigger (config c) = "none"
  /\ shouldTrigger K c d pre = false
  /\ acceptSuggestionOnCommitCharacter (getCompleteConfig G userCompleteOpt false)
     = false.
Proof.
  intros Hkeep Hi Hs Hcfg.
  assert (autoTrigger (config c) = "none") as Hauto.
  { rewrite Hcfg. unfold getCompleteConfig. cbn. rewrite Hkeep, Hi, Hs.
    reflexivity. }
  split; [exact Hauto|]. split; [|reflexivity].
  unfold shouldTrigger. destruct pre as [pre|]; [|reflexivity].
  rewrite Hauto. cbn.
  destruct (negb (JS.truthy (Some pre)) || String.eqb (JS.trim pre) "");
    reflexivity.
Qed.

Lemma keepCompleteopt_disables_triggering_witness :
  shouldTrigger (Examples.quiet (fun _ => []))
    (Examples.fresh_controller
       (getCompleteConfig Scenarios.keeping "menu,preview" true))
    (Examples.buffer "foo." 7) (Some "foo.") = false.
Proof.
  edestruct (keepCompleteopt_disables_triggering Scenarios.keeping
               (Examples.quiet (fun _ => [])) "menu,preview" true
               (Examples.fresh_controller
                  (getCompleteConfig Scenarios.keeping "menu,preview" true))
               (Examples.buffer "foo." 7) (Some "foo."))
    as (_ & H & _); [vm_compute; reflexivity ..| exact H].
Defined.

(** Without [keepCompleteopt] the same input triggers: the provider has
    the dot as a trigger character. *)
Example unset_configuration_triggers :
  shouldTrigger (Examples.quiet (fun _ => []))
    (Examples.fresh_controller
       (getCompleteConfig Scenarios.unset "menu,preview" true))
    (Examples.buffer "foo." 7) (Some "foo.") = true
  /\ getCompleteConfig Scenarios.unset "menu,preview" true = Examples.defaults.
Proof. split; vm_compute; reflexivity. Qed.

(** ** The preview of [onPumRedraw] *)

(** X24.  A resolved candidate without documentation closes the preview:
    when the resolve of the [i]-th candidate settles with a candidate that
    has neither documentation nor info, and its token is not canceled,
    [onPumRedraw] closes the preview window if one is open, forgets the
    token and shows nothing. *)
Theorem redraw_without_content_closes_preview (K : Collaborators)
    (item it it' : VimCompleteItem) (i : nat) (w : World) :
  env_floating (workspace w) = true ->
  lastInsert (ctl w) = None ->
  find_item item (completeItems (ctl w)) = Some (i, it) ->
  sources_doCompleteResolve K it (redraw_resumed K i w) = Ok it' ->
  tokens (redraw_resumed K i w) !! redraw_token w = Some false ->
  JS.truthy (preview_content it') = false ->
  let r := onPumRedraw K item w in
  res r = Ok tt
  /\ st r = upd_ctl (fun c => set_resolveTokenSource None (set_floating false c))
              (redraw_resumed K i w)
  /\ out r = DoCompleteResolve it (redraw_token w)
             :: (if floating (ctl (redraw_resumed K i w)) then [FloatingClose] else []).
Proof.
  intros Hfl Hmark Hfind Hres Hcan Hcontent. cbv zeta.
  revert Hres Hcan. unfold preview_content in Hcontent.
  redraw_found Hfl Hmark Hfind.
  all: intros Hres Hcan; rewrite Hres; cbn; rewrite Hcan; cbn;
    rewrite Hcontent; cbn.
  all: match goal with
       | |- context [floating (ctl ?x)] =>
           destruct (floating (ctl x)) eqn:Hf; cbn; repeat split;
           destruct x as [[] ? ? ? ? ? ? ?]; cbn in *; subst; reflexivity
       end.
Qed.

Lemma redraw_without_content_closes_preview_witness :
  out (onPumRedraw (Examples.quiet (fun _ => [])) (Examples.candidate "foo")
         Examples.resolving)
  = [DoCompleteResolve (Examples.candidate "foo") 1%nat; FloatingClose].
Proof.
  edestruct (redraw_without_content_closes_preview (Examples.quiet (fun _ => []))
               (Examples.candidate "foo") (Examples.candidate "foo")
               (Examples.candidate "foo") 0 Examples.resolving)
    as (_ & _ & H); [vm_compute; reflexivity ..|].
  etransitivity; [exact H|]. vm_compute. reflexivity.
Defined.

(** X25.  The preview is shown only for a live session, a live token and
    a preview window that is still there: when the resolve of the [i]-th
    candidate settles with content, its token not canceled, and the
    preview buffer and window are there, [onPumRedraw] waits; if after the
    wait the token is canceled or the session is over it returns without
    showing anything (and leaves the token in place); if the session is
    live but the preview window is gone (a session was started during the
    wait, which closes the preview without canceling the token) the call
    of line 457 fails with a [TypeError] and nothing is shown; otherwise
    it shows the content, with its kind and the candidate's detail flag,
    and forgets the token after the show. *)
Theorem redraw_preview_needs_live_session (K : Collaborators)
    (item it it' : VimCompleteItem) (i : nat) (content : string) (w : World) :
  env_floating (workspace w) = true ->
  lastInsert (ctl w) = None ->
  find_item item (completeItems (ctl w)) = Some (i, it) ->
  sources_doCompleteResolve K it (redraw_resumed K i w) = Ok it' ->
  tokens (redraw_resumed K i w) !! redraw_token w = Some false ->
  preview_content it' = Some content -> content <> "" ->
  is_Some (previewBuffer (ctl (redraw_resumed K i w))) ->
  floating (ctl (redraw_resumed K i w)) = true ->
  onPumRedraw K item w
  = if default false (tokens (redraw_waited K i w) !! redraw_token w)
       || negb (activted (ctl (redraw_waited K i w)))
    then mkRun (Ok tt) (redraw_waited K i w)
           [DoCompleteResolve it (redraw_token w)]
    else if floating (ctl (redraw_waited K i w))
    then mkRun (Ok tt)
           (upd_ctl (set_resolveTokenSource None)
              (interleave K P_pum_show (redraw_waited K i w)))
           [DoCompleteResolve it (redraw_token w);
            FloatingShow content (preview_kind it') (hasDetail it')]
    else mkRun (Throw (TypeError "show")) (redraw_waited K i w)
           [DoCompleteResolve it (redraw_token w)].
Proof.
  intros Hfl Hmark Hfind Hres Hcan Hcontent Hne Hbuf Hfloat.
  assert (JS.truthy (Some content) = true) as Htruthy.
  { destruct content; [by destruct Hne|reflexivity]. }
  revert Hres Hcan Hbuf Hfloat.
  unfold preview_content in Hcontent. unfold preview_kind, redraw_waited.
  redraw_found Hfl Hmark Hfind.
  all: intros Hres Hcan Hbuf Hfloat; rewrite Hres; cbn; rewrite Hcan; cbn;
    rewrite Hcontent, Htruthy; cbn;
    rewrite (bool_decide_eq_true_2 _ Hbuf); cbn; rewrite Hfloat; cbn.
  all: match goal with
       | |- context [interleave ?k P_pum_wait ?x] =>
           set (w2 := interleave k P_pum_wait x)
       end.
  all: destruct (default false (tokens w2 !! _) || negb (activted (ctl w2)));
    [reflexivity|]; cbn; destruct (floating (ctl w2)); reflexivity.
Qed.

Lemma redraw_preview_needs_live_session_witness :
  out (onPumRedraw (Scenarios.during_wait (fun w => st (stop w))
                      (Examples.quiet (fun _ => [])))
         (Scenarios.documented "foo" "a word") Scenarios.previewing)
  = [DoCompleteResolve (Scenarios.documented "foo" "a word") 0%nat]
  /\ out (onPumRedraw (Examples.quiet (fun _ => []))
            (Scenarios.documented "foo" "a word") Scenarios.previewing)
     = [DoCompleteResolve (Scenarios.documented "foo" "a word") 0%nat;
        FloatingShow "a word" "plaintext" false]
  /\ res (onPumRedraw (Scenarios.during_wait (fun w => st (start 0%nat w))
                         (Examples.quiet (fun _ => [])))
            (Scenarios.documented "foo" "a word") Scenarios.previewing)
     = Throw (TypeError "show").
Proof.
  split; [|split].
  - etransitivity;
      [ apply (f_equal out);
        apply (redraw_preview_needs_live_session
                 (Scenarios.during_wait (fun w => st (stop w))
                    (Examples.quiet (fun _ => [])))
                 (Scenarios.documented "foo" "a word")
                 (Scenarios.documented "foo" "a word")
                 (Scenarios.documented "foo" "a word") 0 "a word"
                 Scenarios.previewing);
        first [ discriminate | vm_compute; first [reflexivity | by eexists] ]
      | vm_compute; reflexivity ].
  - etransitivity;
      [ apply (f_equal out);
        apply (redraw_preview_needs_live_session
                 (Examples.quiet (fun _ => []))
                 (Scenarios.documented "foo" "a word")
                 (Scenarios.documented "foo" "a word")
                 (Scenarios.documented "foo" "a word") 0 "a word"
                 Scenarios.previewing);
        first [ discriminate | vm_compute; first [reflexivity | by eexists] ]
      | vm_compute; reflexivity ].
  - etransitivity;
      [ apply (f_equal res);
        apply (redraw_preview_needs_live_session
                 (Scenarios.during_wait (fun w => st (start 0%nat w))
                    (Examples.quiet (fun _ => [])))
                 (Scenarios.documented "foo" "a word")
                 (Scenarios.documented "foo" "a word")
                 (Scenarios.documented "foo" "a word") 0 "a word"
                 Scenarios.previewing);
        first [ discriminate | vm_compute; first [reflexivity | by eexists] ]
      | vm_compute; reflexivity ].
Defined.

(** ** Errors of [onCompleteDone] *)



(** ** [completeOpt] *)

(** X27.  The [completeopt] the controller sets for a session always has
    [menuone] and exactly one of [noselect] and [noinsert], as the
    [noselect] setting says, and it has [preview] exactly when the preview
    is enabled: it is never one for which [getCompleteConfig] would turn
    the triggering off. *)
Theorem completeOpt_selects (c : Completion) :
  includes (completeOpt c) "menuone" = true
  /\ includes (completeOpt c) "noselect" = noselect (config c)
  /\ includes (completeOpt c) "noinsert" = negb (noselect (config c))
  /\ includes (completeOpt c) "preview" = enablePreview (config c)
  /\ negb (includes (completeOpt c) "noinsert")
     && negb (includes (completeOpt c) "noselect") = false.
Proof.
  unfold completeOpt.
  destruct (noselect (config c)), (enablePreview (config c));
    repeat apply conj; vm_compute; reflexivity.
Qed.

(** ** [hasSelected] after a redraw *)

(** The run at the bottom of a pile of matches is taken apart. *)
Ltac peel_run r :=
  lazymatch r with
  | match ?x with _ => _ end => peel_run x
  | _ => destruct r as [[?|?] ? ?]; cbn
  end.

Ltac peel :=
  match goal with
  | |- context [out (match ?x with _ => _ end)] => peel_run x
  end.

(** The value the innermost match of a run waits for. *)
Ltac scrutinee t :=
  lazymatch t with
  | match ?y with _ => _ end => scrutinee y
  | ?f ?a =>
      lazymatch f with
      | match ?y with _ => _ end => scrutinee y
      | _ => t
      end
  | _ => t
  end.

Ltac branch :=
  match goal with
  | |- context [st (match ?y with _ => _ end)] =>
      let s := scrutinee y in destruct s; cbn
  end.

(** [hasSelected] reads the workspace, the configuration, the selection
    index and the resolving flag only. *)
Lemma hasSelected_same (w w' : World) :
  workspace w' = workspace w -> config (ctl w') = config (ctl w) ->
  currIndex (ctl w') = currIndex (ctl w) ->
  isResolving (ctl w') = isResolving (ctl w) ->
  hasSelected w' = hasSelected w.
Proof. unfold hasSelected. intros -> -> -> ->. reflexivity. Qed.

(** A state built on an interleaving by writes that [hasSelected] does not
    read has something selected when the interleaving has. *)
Ltac selected Hkeep :=
  repeat first
    [ apply Hkeep
    | match goal with
      | |- hasSelected ?s = true =>
          match s with
          | context [interleave ?k ?p ?x] =>
              rewrite (hasSelected_same (interleave k p x) s
                         eq_refl eq_refl eq_refl eq_refl);
              apply Hkeep
          end
      end ].

(** X28.  In a host with floating windows and the [pumevent] capability,
    [hasSelected] follows the popup.  After the redraw for a candidate that
    is not in the list nothing is selected.  When the candidate is in the
    list, the first call of the handler is the resolve of that candidate,
    and when the handler ends, however it ends, something is selected, as
    long as what happens while it is suspended does not take a selection
    away. *)
Theorem hasSelected_follows_redraw (K : Collaborators) (item : VimCompleteItem)
    (w : World) :
  env_floating (workspace w) = true ->
  env_pumevent (workspace w) = true ->
  lastInsert (ctl w) = None ->
  (forall p w', hasSelected w' = true -> hasSelected (interleave K p w') = true) ->
  match find_item item (completeItems (ctl w)) with
  | None => hasSelected (st (onPumRedraw K item w)) = false
  | Some (i, it) =>
      hasSelected (st (onPumRedraw K item w)) = true
      /\ exists rest,
           out (onPumRedraw K item w)
           = DoCompleteResolve it (redraw_token w) :: rest
  end.
Proof.
  intros Hfl Hpum Hmark Hkeep.
  destruct (find_item item (completeItems (ctl w))) as [[i it]|] eqn:Hfind.
  - split.
    + redraw_found Hfl Hmark Hfind.
      all: unfold createPreviewBuffer; run.
      all: repeat branch.
      all: selected Hkeep.
      all: unfold hasSelected; cbn; rewrite Hpum, Nat.add_1_r; reflexivity.
    + redraw_found Hfl Hmark Hfind.
      all: repeat peel; by eexists.
  - unfold onPumRedraw, hasSelected, cancel_token, closePreviewWindow. run.
    rewrite Hfl. cbn.
    destruct (resolveTokenSource (ctl w)); run; rewrite Hmark; cbn;
      rewrite Hfind; cbn; destruct (floating (ctl w)); cbn; rewrite Hpum;
      reflexivity.
Qed.

Lemma hasSelected_follows_redraw_witness :
  hasSelected
    (st (onPumRedraw (Examples.quiet (fun _ => [])) (Examples.candidate "bar")
           Examples.resolving)) = false
  /\ hasSelected
       (st (onPumRedraw (Examples.quiet (fun _ => [])) (Examples.candidate "foo")
              Examples.resolving)) = true.
Proof.
  split.
  - exact (hasSelected_follows_redraw (Examples.quiet (fun _ => []))
             (Examples.candidate "bar") Examples.resolving
             eq_refl eq_refl eq_refl (fun p w' H => H)).
  - exact (proj1 (hasSelected_follows_redraw (Examples.quiet (fun _ => []))
                    (Examples.candidate "foo") Examples.resolving
                    eq_refl eq_refl eq_refl (fun p w' H => H))).
Defined.

(** ** [triggerCompletion] in the mode [none] *)

(** X29.  With the trigger mode [none], typing requests nothing:
    [triggerCompletion] returns once the trigger check has settled,
    without asking the host for a trigger context and without starting a
    session, whatever the text before the cursor and the trigger
    characters of the providers. *)
Theorem typing_in_mode_none_requests_nothing (K : Collaborators) (l : loc)
    (d : Document) (pre : option string) (w : World) :
  documents w !! l = Some d ->
  autoTrigger (config (ctl w)) = "none" ->
  triggerCompletion K l pre w = mkRun (Ok tt) (interleave K P_trigger_should w) [].
Proof.
  intros Hd Hauto. unfold triggerCompletion. run. rewrite Hd. cbn.
  assert (shouldTrigger K (ctl w) d pre = false) as ->; [|reflexivity].
  unfold shouldTrigger. destruct pre as [pre|]; [|reflexivity].
  rewrite Hauto. cbn.
  destruct (negb (JS.truthy (Some pre)) || String.eqb (JS.trim pre) "");
    reflexivity.
Qed.

Lemma typing_in_mode_none_requests_nothing_witness :
  triggerCompletion (Examples.quiet (fun _ => [])) 0%nat (Some "foo.")
    (Examples.idle (Examples.with_autoTrigger "none" Examples.defaults) "foo.")
  = mkRun (Ok tt)
      (Examples.idle (Examples.with_autoTrigger "none" Examples.defaults) "foo.")
      [].
Proof.
  exact (typing_in_mode_none_requests_nothing (Examples.quiet (fun _ => []))
           0%nat (Examples.buffer "foo." 7) (Some "foo.")
           (Examples.idle (Examples.with_autoTrigger "none" Examples.defaults) "foo.")
           eq_refl eq_refl).
Defined.
